(** * Verification of the streaming tag-protocol core

    A shallow embedding of the response-processing code: the tag helpers of
    the chat stream handler ([hasUnclosedDyadWrite], [escapeDyadTags], the
    stop-correct-resume loop), the response validator, the fast and the
    streaming monitor, the corrective agent and the workflow manager.

    JavaScript strings are sequences of UTF-16 code units; every index,
    [length], [substring] and regular expression of the source works on
    code units, so a string is a [list N] here. *)

From Stdlib Require Import NArith Ascii String List Bool Lia.
From stdpp Require Import gmap strings list pretty.

Set Warnings "-clear-no-such-hyp".
Open Scope N_scope.
Open Scope nat_scope.

(** ** JavaScript strings *)

Module JS.

Abbreviation jsstring := (list N).

(** An ASCII literal of the source, as code units. *)
Definition lit (s : string) : jsstring :=
  map N_of_ascii (list_ascii_of_string s).

(** The double quote, written apart from the literals. *)
Definition Q : jsstring := [34%N].
(** Line feed. *)
Definition NL : jsstring := [10%N].

(** [s.startsWith(p)], returning the rest of [s] after [p]. *)
Fixpoint strip (p s : jsstring) : option jsstring :=
  match p with
  | [] => Some s
  | a :: p' =>
      match s with
      | [] => None
      | b :: s' => if (a =? b)%N then strip p' s' else None
      end
  end.

Definition startsWith (s p : jsstring) : bool :=
  match strip p s with Some _ => true | None => false end.

(** [s.includes(p)]. *)
Fixpoint includes (s p : jsstring) : bool :=
  startsWith s p ||
  match s with
  | [] => false
  | _ :: t => includes t p
  end.

(** [s.endsWith(p)]. *)
Definition endsWith (s p : jsstring) : bool :=
  startsWith (rev s) (rev p).

(** [s === p] on strings. *)
Fixpoint eqs (s p : jsstring) : bool :=
  match s, p with
  | [], [] => true
  | a :: s', b :: p' => (a =? b)%N && eqs s' p'
  | _, _ => false
  end.

(** [s.substring(0, n)] and [s.substring(n)]. *)
Definition substring_to (n : nat) (s : jsstring) : jsstring := take n s.
Definition substring_from (n : nat) (s : jsstring) : jsstring := drop n s.

(** White space and line terminators: the class [\s] of regular
    expressions, which is also what [trim] removes. *)
Definition is_space (c : N) : bool :=
  ((9 <=? c) && (c <=? 13) || (c =? 32) || (c =? 160) || (c =? 5760)
   || (8192 <=? c) && (c <=? 8202)
   || (c =? 8232) || (c =? 8233) || (c =? 8239) || (c =? 8287)
   || (c =? 12288) || (c =? 65279))%N.

(** Line terminators, after which [^] matches under the [m] flag. *)
Definition is_line_terminator (c : N) : bool :=
  ((c =? 10) || (c =? 13) || (c =? 8232) || (c =? 8233))%N.

(** The class [\w]: ASCII letters, digits and the underscore. *)
Definition is_word (c : N) : bool :=
  ((48 <=? c) && (c <=? 57) || (65 <=? c) && (c <=? 90)
   || (c =? 95) || (97 <=? c) && (c <=? 122))%N.

(** Case folding of the [i] flag (without the [u] flag): a code unit is
    compared through its upper case, and a code unit outside ASCII never
    folds to an ASCII one, so on the ASCII patterns of the source only the
    ASCII letters fold. *)
Definition canonicalize (c : N) : N :=
  if ((97 <=? c) && (c <=? 122))%N then (c - 32)%N else c.

Fixpoint dropWhile (f : N -> bool) (s : jsstring) : jsstring :=
  match s with
  | [] => []
  | c :: t => if f c then dropWhile f t else s
  end.

(** [s.trim()]. *)
Definition trim (s : jsstring) : jsstring :=
  rev (dropWhile is_space (rev (dropWhile is_space s))).

(** [l.join(sep)], and the lines of a template literal, which line feeds
    join. *)
Definition join (sep : jsstring) (l : list jsstring) : jsstring :=
  match l with
  | [] => []
  | x :: l' => x ++ flat_map (fun y => sep ++ y) l'
  end.
Definition lines (l : list jsstring) : jsstring := join NL l.

(** [s.replace(pat, rep)] for a string [pat]: the first occurrence of [pat]
    is replaced; in [rep] the patterns [$$], [$&], [$`] and [$'] stand for a
    dollar sign, the text matched, the text before it and the text after
    it. *)
Fixpoint split_first (pat s : jsstring) : option (jsstring * jsstring) :=
  match strip pat s with
  | Some post => Some ([], post)
  | None =>
      match s with
      | [] => None
      | c :: t =>
          match split_first pat t with
          | Some (pre, post) => Some (c :: pre, post)
          | None => None
          end
      end
  end.

Fixpoint substitution (rep pat pre post : jsstring) : jsstring :=
  match rep with
  | [] => []
  | d :: tl =>
      if (d =? 36)%N then
        match tl with
        | c :: rest =>
            if (c =? 36)%N then 36%N :: substitution rest pat pre post
            else if (c =? 38)%N then pat ++ substitution rest pat pre post
            else if (c =? 96)%N then pre ++ substitution rest pat pre post
            else if (c =? 39)%N then post ++ substitution rest pat pre post
            else d :: substitution tl pat pre post
        | [] => [d]
        end
      else d :: substitution tl pat pre post
  end.

Definition replace (s pat rep : jsstring) : jsstring :=
  match split_first pat s with
  | Some (pre, post) => pre ++ substitution rep pat pre post ++ post
  | None => s
  end.

(** A number printed in decimal, as in a template literal. *)
Definition of_nat (n : nat) : jsstring := lit (pretty n).

End JS.
Import JS.

(** ** Regular expressions

    The regular expressions of the source are sequences of literals,
    character classes under [*], [*?] or [+], at most one capture group,
    [\b] and [^]. They are run by a backtracking matcher with the priorities
    of JavaScript: a greedy quantifier tries the longest repetition first, a
    lazy one the shortest, and the search takes the leftmost position at
    which the whole sequence matches. *)

Module Regex.

Inductive atom : Type :=
| Lit (p : jsstring)        (* literal text *)
| LitI (p : jsstring)       (* literal text under the [i] flag *)
| Star (cls : N -> bool)    (* [cls*] *)
| Lazy (cls : N -> bool)    (* [cls*?] *)
| Plus (cls : N -> bool)    (* [cls+] *)
| GroupOpen                 (* [(] of capture group 1 *)
| GroupClose                (* [)] of capture group 1 *)
| WordB                     (* [\b] *)
| Bol.                      (* [^] under the [m] flag *)

Abbreviation regex := (list atom).

(** Character classes. *)
Definition any (c : N) : bool := true.                 (* [\s\S] *)
Definition non (x : N) (c : N) : bool := negb (c =? x)%N.   (* [^x] *)
Definition GT : N := 62.       (* > *)
Definition DQ : N := 34.       (* the double quote *)

(** What the matcher returns: the input left after the match and the text
    of group 1, when the group took part in the match. *)
Abbreviation outcome := (option (jsstring * option jsstring)).

(** A literal is consumed code unit by code unit; [prev] follows the last
    code unit consumed, which [\b] and [^] look at. *)
Fixpoint literal (fold : N -> N) (p : jsstring) (prev : option N) (s : jsstring)
  : option (option N * jsstring) :=
  match p with
  | [] => Some (prev, s)
  | a :: p' =>
      match s with
      | [] => None
      | b :: s' =>
          if (fold a =? fold b)%N then literal fold p' (Some b) s' else None
      end
  end.

Fixpoint greedy (cls : N -> bool) (k : option N -> jsstring -> outcome)
  (prev : option N) (s : jsstring) : outcome :=
  match s with
  | c :: t =>
      if cls c then
        match greedy cls k (Some c) t with
        | Some r => Some r
        | None => k prev s
        end
      else k prev s
  | [] => k prev s
  end.

Fixpoint reluctant (cls : N -> bool) (k : option N -> jsstring -> outcome)
  (prev : option N) (s : jsstring) : outcome :=
  match k prev s with
  | Some r => Some r
  | None =>
      match s with
      | c :: t => if cls c then reluctant cls k (Some c) t else None
      | [] => None
      end
  end.

Definition word_before (prev : option N) : bool :=
  match prev with Some c => is_word c | None => false end.
Definition word_after (s : jsstring) : bool :=
  match s with c :: _ => is_word c | [] => false end.
Definition line_start (prev : option N) : bool :=
  match prev with Some c => is_line_terminator c | None => true end.

(** [run r (g0, g) prev s]: match the atoms of [r] against a prefix of [s];
    [g0] is the input at the opening parenthesis of the group, [g] the
    text the group has captured. *)
Fixpoint run (r : regex) (g0 : jsstring) (g : option jsstring)
  (prev : option N) (s : jsstring) : outcome :=
  match r with
  | [] => Some (s, g)
  | a :: r' =>
      match a with
      | Lit p =>
          match literal id p prev s with
          | Some (prev', s') => run r' g0 g prev' s'
          | None => None
          end
      | LitI p =>
          match literal canonicalize p prev s with
          | Some (prev', s') => run r' g0 g prev' s'
          | None => None
          end
      | Star cls => greedy cls (run r' g0 g) prev s
      | Lazy cls => reluctant cls (run r' g0 g) prev s
      | Plus cls =>
          match s with
          | c :: t => if cls c then greedy cls (run r' g0 g) (Some c) t else None
          | [] => None
          end
      | GroupOpen => run r' s None prev s
      | GroupClose => run r' g0 (Some (take (length g0 - length s) g0)) prev s
      | WordB =>
          if xorb (word_before prev) (word_after s) then run r' g0 g prev s else None
      | Bol => if line_start prev then run r' g0 g prev s else None
      end
  end.

(** One match: where it starts, the text matched and group 1. *)
Record rmatch : Type := {
  index : nat;
  matched : jsstring;        (* [match[0]] *)
  group1 : option jsstring;  (* [match[1]], [None] for undefined *)
}.

(** The match of [r] that starts exactly here. *)
Definition anchored (r : regex) (prev : option N) (s : jsstring) (i : nat)
  : option rmatch :=
  match run r [] None prev s with
  | Some (rest, g) =>
      Some {| index := i; matched := take (length s - length rest) s; group1 := g |}
  | None => None
  end.

(** The leftmost match at or after the current position: [regex.exec(s)]
    and [s.match(regex)] without the [g] flag. *)
Fixpoint search (r : regex) (prev : option N) (s : jsstring) (i : nat)
  : option rmatch :=
  match anchored r prev s i with
  | Some m => Some m
  | None =>
      match s with
      | [] => None
      | c :: t => search r (Some c) t (S i)
      end
  end.

Definition exec (r : regex) (s : jsstring) : option rmatch := search r None s 0.

(** [regex.test(s)]. *)
Definition test (r : regex) (s : jsstring) : bool :=
  match exec r s with Some _ => true | None => false end.

(** All the matches under the [g] flag, left to right, each search starting
    where the last match ended: the loop
    [while ((match = regex.exec(s)) !== null)] and [s.match(regex)].
    [skip] counts the code units of the last match still to pass. After an
    empty match the search moves on by one code unit, as [s.match] does;
    no regular expression of the source matches the empty string. *)
Fixpoint scan (r : regex) (prev : option N) (s : jsstring) (i skip : nat)
  : list rmatch :=
  match skip with
  | S k =>
      match s with
      | [] => []
      | c :: t => scan r (Some c) t (S i) k
      end
  | O =>
      match anchored r prev s i with
      | Some m =>
          m :: match s with
               | [] => []
               | c :: t => scan r (Some c) t (S i) (length (matched m) - 1)
               end
      | None =>
          match s with
          | [] => []
          | c :: t => scan r (Some c) t (S i) 0
          end
      end
  end.

Definition matchAll (r : regex) (s : jsstring) : list rmatch := scan r None s 0 0.

(** [s.replace(regex, rep)] under the [g] flag, [rep] without [$]. *)
Fixpoint replacing (r : regex) (rep : jsstring) (prev : option N)
  (s : jsstring) (skip : nat) : jsstring :=
  match skip with
  | S k =>
      match s with
      | [] => []
      | c :: t => replacing r rep (Some c) t k
      end
  | O =>
      match anchored r prev s 0 with
      | Some m =>
          rep ++ match s with
                 | [] => []
                 | c :: t =>
                     match length (matched m) with
                     | O => c :: replacing r rep (Some c) t 0
                     | S n => replacing r rep (Some c) t n
                     end
                 end
      | None =>
          match s with
          | [] => []
          | c :: t => c :: replacing r rep (Some c) t 0
          end
      end
  end.

Definition replaceAll (r : regex) (rep : jsstring) (s : jsstring) : jsstring :=
  replacing r rep None s 0.

End Regex.
Import Regex.

(** ** The tag helpers of the chat stream handler *)

Module ChatStream.

(** [/<dyad-write[^>]*>/g] *)
Definition openRegex : regex :=
  [Lit (lit "<dyad-write"); Star (non GT); Lit (lit ">")].

(** [/<\/dyad-write>/] *)
Definition closeRegex : regex := [Lit (lit "</dyad-write>")].

(** The loop that keeps the index of the last opening tag, [-1] when there
    is none. *)
Definition lastOpenIndex (text : jsstring) : Z :=
  fold_left (fun _ m => Z.of_nat (index m)) (matchAll openRegex text) (-1)%Z.

Definition hasUnclosedDyadWrite (text : jsstring) : bool :=
  let lastOpenIndex := lastOpenIndex text in
  if (lastOpenIndex =? -1)%Z then false
  else
    let textAfterLastOpen := substring_from (Z.to_nat lastOpenIndex) text in
    let hasClosingTag := test closeRegex textAfterLastOpen in
    negb hasClosingTag.

(** The argument of [escapeDyadTags] has type [unknown]. The cases the
    function tells apart are kept; [JSON.stringify] and [String] are
    library functions, so a value that is not a string carries what they
    return for it: [json] is the result of [JSON.stringify(text, null, 2)],
    [None] when it throws, and [str] is [String(text)]. Both are taken to
    return strings, as they do on the parts of a stream and on what tools
    hand over: text, numbers, booleans and the objects and arrays parsed
    from JSON. *)
Inductive value : Type :=
| VString (s : jsstring)
| VNull
| VUndefined
| VObject (json : option jsstring) (str : jsstring)
| VOther (str : jsstring).

(** U+FF1C, the fullwidth less-than sign. *)
Definition FULLWIDTH_LT : N := 65308.

Definition escapeDyadTags (text : value) : jsstring :=
  let safeText :=
    match text with
    | VString s => s
    | VNull | VUndefined => []
    | VObject (Some json) _ => json
    | VObject None str => str
    | VOther str => str
    end in
  replaceAll [Lit (lit "</dyad")] (FULLWIDTH_LT :: lit "/dyad")
    (replaceAll [Lit (lit "<dyad")] (FULLWIDTH_LT :: lit "dyad") safeText).

End ChatStream.

Import ChatStream.

(** ** The workflow manager *)

Module WorkflowManager.

Inductive WorkflowStep : Type := planning | docs | frontend | backend | testing.

(** The string a step is in the source and in the database. *)
Definition step_name (step : WorkflowStep) : string :=
  match step with
  | planning => "planning"
  | docs => "docs"
  | frontend => "frontend"
  | backend => "backend"
  | testing => "testing"
  end.

Definition WORKFLOW_STEPS : list string :=
  ["planning"; "docs"; "frontend"; "backend"; "testing"].

(** Modelled from the spec: the schema of the table [chats] is imported.
    The workflow state of a conversation is a status, idle or active, and
    a current step that can be null. These are the two workflow columns of
    a row, which [set] writes and [getChatState] reads; each holds text or
    [null]. *)
Record chat : Type := {
  workflowStatus : option string;
  workflowStep : option string;
}.

(** The table [chats], by chat id. *)
Abbreviation db := (gmap Z chat).

(** [db.update(chats).set(...).where(eq(chats.id, chatId))]: the row of
    [chatId] is changed when there is one. *)
Definition update (set : chat -> chat) (chatId : Z) (d : db) : db :=
  alter set chatId d.

Definition getChatState (chatId : Z) (d : db) : option chat := d !! chatId.

Definition startWorkflow (chatId : Z) (d : db) : string * db :=
  ("planning",
   update (fun _ => {| workflowStatus := Some "active";
                       workflowStep := Some "planning" |}) chatId d).

Definition stopWorkflow (chatId : Z) (d : db) : db :=
  update (fun _ => {| workflowStatus := Some "idle"; workflowStep := None |}) chatId d.

Definition forceStep (chatId : Z) (step : WorkflowStep) (d : db) : string * db :=
  (step_name step,
   update (fun _ => {| workflowStatus := Some "active";
                       workflowStep := Some (step_name step) |}) chatId d).

(** [WORKFLOW_STEPS.indexOf(step)], [-1] when [step] is [null] or is not a
    step. *)
Fixpoint indexOf (l : list string) (x : string) : Z :=
  match l with
  | [] => -1
  | y :: l' =>
      if String.eqb y x then 0
      else let i := indexOf l' x in if (i =? -1)%Z then -1 else (i + 1)%Z
  end.

Definition status_is_active (c : chat) : bool :=
  match workflowStatus c with
  | Some s => String.eqb s "active"
  | None => false
  end.

Definition advanceStep (chatId : Z) (d : db) : option string * db :=
  match getChatState chatId d with
  | None => (None, d)
  | Some chat =>
      if negb (status_is_active chat) then (None, d)
      else
        let currentStepIndex :=
          match workflowStep chat with
          | Some step => indexOf WORKFLOW_STEPS step
          | None => (-1)%Z
          end in
        if (currentStepIndex =? -1)%Z then
          (* Invalid state: start at planning *)
          let (_, d') := forceStep chatId planning d in (Some "planning", d')
        else if (currentStepIndex =? Z.of_nat (length WORKFLOW_STEPS) - 1)%Z then
          (* Finished *)
          (None,
           update (fun _ => {| workflowStatus := Some "idle"; workflowStep := None |})
             chatId d)
        else
          let nextStep := WORKFLOW_STEPS !! Z.to_nat (currentStepIndex + 1) in
          (nextStep,
           update (fun c => {| workflowStatus := workflowStatus c;
                               workflowStep := nextStep |}) chatId d)
  end.

Inductive TaskType : Type := task_frontend | task_backend | task_debugging | task_general.

Definition getTaskTypeForStep (step : WorkflowStep) : TaskType :=
  match step with
  | frontend => task_frontend
  | backend => task_backend
  | testing => task_debugging
  | planning | docs => task_general
  end.

End WorkflowManager.

(** ** The response validator *)

Module ResponseValidator.

Import WorkflowManager(WorkflowStep, planning, docs, frontend, backend, testing).

Inductive ViolationType : Type :=
| code_block
| codex_tool
| mode_violation
| malformed_tag
| prohibited_content.

Inductive Severity : Type := critical | warning.

Record ValidationViolation : Type := {
  type : ViolationType;
  message : jsstring;
  context : jsstring;
  severity : Severity;
}.

Record ValidationResult : Type := {
  isValid : bool;
  violations : list ValidationViolation;
  warnings : list ValidationViolation;
}.

(** Modelled from the spec: [ChatMode] is imported from the schemas; the
    modes are build, ask and agent. *)
Inductive ChatMode : Type := build | ask | agent.

Record ValidationContext : Type := {
  mode : ChatMode;
  workflowStep : option WorkflowStep;
}.

(** The first 100 code units of [x], followed by three dots when [x] is
    longer. *)
Definition snippet (x : jsstring) : jsstring :=
  substring_to 100 x ++ (if 100 <? length x then lit "..." else []).

(** [/```[\s\S]*?```/g] *)
Definition codeBlockRegex : regex := [Lit (lit "```"); Lazy any; Lit (lit "```")].

Definition detectMarkdownCodeBlocks (response : jsstring) : list ValidationViolation :=
  map (fun m =>
         {| type := code_block;
            severity := critical;
            message := lit "Markdown code blocks are prohibited for file content. Use <dyad-write> tags instead.";
            context := snippet (matched m) |})
      (matchAll codeBlockRegex response).

Definition prohibitedTools : list jsstring :=
  [lit "apply_patch"; lit "turbo_edit"; lit "patch_file"; lit "edit_file"; lit "write_file"].

(** [\btool\b] under the flags [gi]. *)
Definition toolRegex (tool : jsstring) : regex := [WordB; LitI tool; WordB].

Definition detectCodexCliTools (response : jsstring) : list ValidationViolation :=
  flat_map (fun tool =>
              if test (toolRegex tool) response then
                [{| type := codex_tool;
                    severity := critical;
                    message := lit "Detected Codex CLI tool " ++ Q ++ tool ++ Q
                               ++ lit ". These tools do not exist in Dyad. Use <dyad-write> tags instead.";
                    context := lit "Found reference to: " ++ tool |}]
              else [])
           prohibitedTools.

(** [/<dyad-write[^>]*>/g] and [/<\/dyad-write>/g] *)
Definition writeOpenRegex : regex :=
  [Lit (lit "<dyad-write"); Star (non GT); Lit (lit ">")].
Definition writeCloseRegex : regex := [Lit (lit "</dyad-write>")].

Definition validateDyadTagStructure (response : jsstring) : list ValidationViolation :=
  let openMatches := matchAll writeOpenRegex response in
  let closeMatches := matchAll writeCloseRegex response in
  if negb (length openMatches =? length closeMatches) then
    [{| type := malformed_tag;
        severity := critical;
        message := lit "Mismatched dyad-write tags: " ++ of_nat (length openMatches)
                   ++ lit " opening tags, " ++ of_nat (length closeMatches)
                   ++ lit " closing tags";
        context := lit "Found " ++ of_nat (length openMatches) ++ lit " <dyad-write>, "
                   ++ of_nat (length closeMatches) ++ lit " </dyad-write>" |}]
  else [].

(** [/<dyad-write[^>]*>([\s\S]*?)<\/dyad-write>/g] *)
Definition writeTagRegex : regex :=
  [Lit (lit "<dyad-write"); Star (non GT); Lit (lit ">");
   GroupOpen; Lazy any; GroupClose; Lit (lit "</dyad-write>")].

(** The patterns of instructions, all under the flags [im]. *)
Definition prohibitedPatterns : list regex :=
  [ [Bol; LitI (lit "Summary:")];
    [Bol; LitI (lit "Here's what I changed")];
    [Bol; LitI (lit "I've updated")];
    [Bol; LitI (lit "Click")];
    [Bol; LitI (lit "Please")];
    [Bol; LitI (lit "Now hit refresh")];
    [Bol; LitI (lit "-"); Star is_space; LitI (lit "Fixed")];
    [Bol; LitI (lit "-"); Star is_space; LitI (lit "Added")] ].

Definition detectProhibitedInstructions (response : jsstring) : list ValidationViolation :=
  flat_map (fun m =>
              let content := default [] (group1 m) in
              (* the first pattern that matches reports, once per tag *)
              if existsb (fun pattern => test pattern content) prohibitedPatterns then
                [{| type := prohibited_content;
                    severity := critical;
                    message := lit "Instructions or summaries found inside <dyad-write> tag. Only file content is allowed.";
                    context := snippet content |}]
              else [])
           (matchAll writeTagRegex response).

(** [/<dyad-delete[^>]*>/] and the like *)
Definition tagRegex (name : string) : regex :=
  [Lit (lit "<dyad-" ++ lit name); Star (non GT); Lit (lit ">")].

(** [/<dyad-write\s+path=Q([^Q]+)Q/g], where Q stands for the double
    quote. *)
Definition pathRegex : regex :=
  [Lit (lit "<dyad-write"); Plus is_space; Lit (lit "path=" ++ Q);
   GroupOpen; Plus (non DQ); GroupClose; Lit Q].

Definition validateModeCompliance (response : jsstring) (context : ValidationContext)
  : list ValidationViolation :=
  let hasDyadWrite := test (tagRegex "write") response in
  let hasDyadDelete := test (tagRegex "delete") response in
  let hasDyadRename := test (tagRegex "rename") response in
  let hasDyadAddDep := test (tagRegex "add-dependency") response in
  let hasAnyDyadTag := hasDyadWrite || hasDyadDelete || hasDyadRename || hasDyadAddDep in
  (* Planning mode: no file operations allowed *)
  (match workflowStep context with
   | Some planning =>
       if hasAnyDyadTag then
         [{| type := mode_violation;
             severity := critical;
             message := lit "Planning mode prohibits file creation/modification. Only markdown plans are allowed.";
             context := lit "Found dyad tags in planning mode" |}]
       else []
   | _ => []
   end)
  ++
  (* Docs mode: only markdown files allowed *)
  (match workflowStep context with
   | Some docs =>
       if hasDyadWrite then
         flat_map (fun pathMatch =>
                     let filePath := default [] (group1 pathMatch) in
                     let isMarkdown := endsWith filePath (lit ".md") in
                     let isDocsFolder :=
                       startsWith filePath (lit "docs/") || eqs filePath (lit "README.md") in
                     if negb isMarkdown || negb isDocsFolder then
                       [{| type := mode_violation;
                           severity := critical;
                           message := lit "Docs mode only allows markdown files in docs/ or README.md. Found: "
                                      ++ filePath;
                           context := filePath |}]
                     else [])
                  (matchAll pathRegex response)
       else []
   | _ => []
   end)
  ++
  (* Agent mode: no dyad tags allowed, only MCP tools *)
  (match mode context with
   | agent =>
       if hasAnyDyadTag then
         [{| type := mode_violation;
             severity := critical;
             message := lit "Agent mode prohibits dyad tags. Use MCP tools (execute_command, web-search) instead.";
             context := lit "Found dyad tags in agent mode" |}]
       else []
   | _ => []
   end)
  ++
  (* Ask mode: no dyad tags allowed at all *)
  (match mode context with
   | ask =>
       if hasAnyDyadTag then
         [{| type := mode_violation;
             severity := critical;
             message := lit "Ask mode prohibits file operations. This mode is for questions and explanations only.";
             context := lit "Found dyad tags in ask mode" |}]
       else []
   | _ => []
   end).

Definition is_critical (v : ValidationViolation) : bool :=
  match severity v with critical => true | warning => false end.
Definition is_warning (v : ValidationViolation) : bool :=
  match severity v with warning => true | critical => false end.

Definition validateResponse (response : jsstring) (context : ValidationContext)
  : ValidationResult :=
  let allViolations :=
    detectMarkdownCodeBlocks response
    ++ detectCodexCliTools response
    ++ validateDyadTagStructure response
    ++ detectProhibitedInstructions response
    ++ validateModeCompliance response context in
  let criticalViolations := List.filter is_critical allViolations in
  let warnings := List.filter is_warning allViolations in
  {| isValid := length criticalViolations =? 0;
     violations := criticalViolations;
     warnings := warnings |}.

End ResponseValidator.

(** ** The fast monitor *)

Module FastMonitor.

Record ViolationResult : Type := {
  hasViolation : bool;
  violationType : option string;
  correction : option jsstring;
  shouldAbort : option bool;
}.

(** The fields of an instance: [mode] and [workflowStep] are fixed by the
    constructor, [detectedViolations] is the set the instance mutates. *)
Record t : Type := {
  mode : string;
  workflowStep : option string;
  detectedViolations : gset string;
}.

(** The pre-cached corrections, by violation type. *)
Definition CACHED_CORRECTIONS (key : string) : option jsstring :=
  if String.eqb key "markdown_code_block" then
    Some (lines
      [lit "STOP! You're using markdown code blocks (```) which are PROHIBITED.";
       [];
       lit "Use ONLY <dyad-write> tags:";
       lit "<dyad-write path=" ++ Q ++ lit "src/Component.tsx" ++ Q
         ++ lit " description=" ++ Q ++ lit "Create component" ++ Q ++ lit ">";
       lit "YOUR CODE HERE";
       lit "</dyad-write>";
       [];
       lit "Continue with <dyad-write> tags."])
  else if String.eqb key "codex_cli_tool" then
    Some (lines
      [lit "STOP! Codex CLI tools (apply_patch, turbo_edit, etc.) DO NOT EXIST in Dyad.";
       [];
       lit "Use ONLY Dyad tags:";
       lit "<dyad-write path=" ++ Q ++ lit "..." ++ Q ++ lit ">content</dyad-write>";
       [];
       lit "Continue using Dyad tags."])
  else if String.eqb key "planning_file_creation" then
    Some (lines
      [lit "STOP! You're in PLANNING MODE - file creation is PROHIBITED.";
       [];
       lit "Write a Markdown plan only. Use write_to_file tool to create 'implementation_plan.md'.";
       [];
       lit "Continue with planning documentation only."])
  else if String.eqb key "docs_non_markdown" then
    Some (lines
      [lit "STOP! DOCS MODE only allows .md files in docs/ directory.";
       [];
       lit "Only create documentation files.";
       [];
       lit "Continue with .md files only."])
  else if String.eqb key "agent_dyad_tags" then
    Some (lines
      [lit "STOP! AGENT MODE does not support <dyad-write> or other Dyad tags.";
       [];
       lit "Use ONLY MCP tools:";
       lit "- execute_command for shell commands";
       lit "- web-search for information";
       [];
       lit "Continue with MCP tools only."])
  else None.

(** The constructor: [params.workflowStep || null] turns an absent or an
    empty step into [null]. *)
Definition new (mode : string) (workflowStep : option string) : t :=
  {| mode := mode;
     workflowStep :=
       match workflowStep with
       | Some s => if String.eqb s "" then None else Some s
       | None => None
       end;
     detectedViolations := ∅ |}.

(** [/```[\w]*\s*\n/] *)
Definition markdownRegex : regex :=
  [Lit (lit "```"); Star is_word; Star is_space; Lit NL].

Definition detectMarkdownCodeBlock (text : jsstring) : bool :=
  test markdownRegex text.

Definition codexTools : list jsstring :=
  [lit "apply_patch"; lit "turbo_edit"; lit "patch_file"; lit "edit_file"; lit "write_file"].

Definition detectCodexCliTool (text : jsstring) : bool :=
  existsb (fun tool => includes text tool) codexTools.

(** [/<dyad-write[^>]*path=Q[^Q]*\.mdQ/], where Q stands for the double
    quote. *)
Definition mdPathRegex : regex :=
  [Lit (lit "<dyad-write"); Star (non GT); Lit (lit "path=" ++ Q);
   Star (non DQ); Lit (lit ".md" ++ Q)].

Definition step_is (this : t) (name : string) : bool :=
  match workflowStep this with
  | Some s => String.eqb s name
  | None => false
  end.

Definition has (this : t) (kind : string) : bool :=
  bool_decide (kind ∈ detectedViolations this).

Definition add (this : t) (kind : string) : t :=
  {| mode := mode this;
     workflowStep := workflowStep this;
     detectedViolations := {[kind]} ∪ detectedViolations this |}.

(** The result that reports [kind] and aborts. *)
Definition abort_with (kind : string) : ViolationResult :=
  {| hasViolation := true;
     violationType := Some kind;
     correction := CACHED_CORRECTIONS kind;
     shouldAbort := Some true |}.

Definition no_violation : ViolationResult :=
  {| hasViolation := false; violationType := None; correction := None;
     shouldAbort := None |}.

Definition checkModeViolations (this : t) (text : jsstring) : ViolationResult * t :=
  (* Planning mode: no file creation *)
  if (step_is this "planning" || String.eqb (mode this) "planning")
     && includes text (lit "<dyad-write")
     && negb (has this "planning_file_creation")
  then (abort_with "planning_file_creation", add this "planning_file_creation")
  (* Docs mode: only .md files *)
  else if (step_is this "docs" || String.eqb (mode this) "docs")
     && (includes text (lit "<dyad-write") && negb (test mdPathRegex text))
     && negb (has this "docs_non_markdown")
  then (abort_with "docs_non_markdown", add this "docs_non_markdown")
  (* Agent mode: no dyad tags *)
  else if String.eqb (mode this) "agent"
     && (includes text (lit "<dyad-write") || includes text (lit "<dyad-delete")
         || includes text (lit "<dyad-rename"))
     && negb (has this "agent_dyad_tags")
  then (abort_with "agent_dyad_tags", add this "agent_dyad_tags")
  else (no_violation, this).

Definition checkChunk (this : t) (chunk : jsstring) : ViolationResult * t :=
  (* Check for markdown code blocks (most common violation) *)
  if detectMarkdownCodeBlock chunk && negb (has this "markdown_code_block")
  then (abort_with "markdown_code_block", add this "markdown_code_block")
  (* Check for Codex CLI tools *)
  else if detectCodexCliTool chunk && negb (has this "codex_cli_tool")
  then (abort_with "codex_cli_tool", add this "codex_cli_tool")
  else
    (* Mode-specific violations *)
    let (modeViolation, this') := checkModeViolations this chunk in
    if hasViolation modeViolation then (modeViolation, this')
    else (no_violation, this').

Definition reset (this : t) : t :=
  {| mode := mode this;
     workflowStep := workflowStep this;
     detectedViolations := ∅ |}.

End FastMonitor.

(** ** The streaming monitor *)

Module StreamingMonitor.

Record ViolationDetection : Type := {
  type : string;
  context : jsstring;
}.

Record MonitorAnalysis : Type := {
  hasViolation : bool;
  violationType : option string;
  correction : option jsstring;
}.

(** The fields of an instance. The router model is reached through
    [getModelClient] and [streamText]; [router prompt] is the text it
    streams for [prompt], [None] when the call throws. [onCorrection] tells
    whether a callback was given, and [corrections] lists what it was
    called with, latest first. *)
Record t : Type := {
  router : jsstring -> option jsstring;
  accumulatedResponse : jsstring;
  violationsDetected : gset string;
  onCorrection : bool;
  corrections : list jsstring;
  mode : string;
  workflowStep : option string;
}.

Definition new (router : jsstring -> option jsstring) (mode : string)
  (workflowStep : option string) (onCorrection : bool) : t :=
  {| router := router;
     accumulatedResponse := [];
     violationsDetected := ∅;
     onCorrection := onCorrection;
     corrections := [];
     mode := mode;
     workflowStep :=
       match workflowStep with
       | Some s => if String.eqb s "" then None else Some s
       | None => None
       end |}.

(** [/```[\w]*\n/] *)
Definition codeBlockRegex : regex := [Lit (lit "```"); Star is_word; Lit NL].

Definition codexTools : list jsstring :=
  [lit "apply_patch"; lit "turbo_edit"; lit "patch_file"; lit "edit_file"].

Definition step_is (this : t) (name : string) : bool :=
  match workflowStep this with
  | Some s => String.eqb s name
  | None => false
  end.

Definition detectQuickViolations (this : t) (text : jsstring) : list ViolationDetection :=
  (* Check for markdown code blocks *)
  (match exec codeBlockRegex text with
   | Some codeBlockMatch =>
       [{| type := "markdown_code_block"; context := matched codeBlockMatch |}]
   | None => []
   end)
  ++
  (* Check for Codex CLI tools *)
  flat_map (fun tool =>
              if includes text tool
              then [{| type := "codex_cli_tool"; context := tool |}]
              else [])
           codexTools
  ++
  (* Check for mode-specific violations *)
  (if (step_is this "planning" || String.eqb (mode this) "planning")
      && includes text (lit "<dyad-write")
   then [{| type := "planning_mode_violation";
            context := lit "<dyad-write in planning mode" |}]
   else [])
  ++
  (if (step_is this "docs" || String.eqb (mode this) "docs")
      && (includes text (lit "<dyad-write")
          && negb (test FastMonitor.mdPathRegex text))
   then [{| type := "docs_mode_violation";
            context := lit "Non-markdown file in docs mode" |}]
   else [])
  ++
  (if String.eqb (mode this) "agent"
      && (includes text (lit "<dyad-write") || includes text (lit "<dyad-delete")
          || includes text (lit "<dyad-rename"))
   then [{| type := "agent_mode_violation";
            context := lit "Dyad tags in agent mode" |}]
   else []).

Definition buildCorrectionPrompt (violation : ViolationDetection) : jsstring :=
  let key := type violation in
  if String.eqb key "markdown_code_block" then
    lines
      [lit "STOP! You're using markdown code blocks (```) which are PROHIBITED.";
       [];
       lit "Use ONLY <dyad-write> tags for file content:";
       lit "<dyad-write path=" ++ Q ++ lit "src/file.ts" ++ Q
         ++ lit " description=" ++ Q ++ lit "Description" ++ Q ++ lit ">";
       lit "FILE CONTENT HERE";
       lit "</dyad-write>";
       [];
       lit "Continue your response using the correct format."]
  else if String.eqb key "codex_cli_tool" then
    lines
      [lit "STOP! You're trying to use Codex CLI tool " ++ Q ++ context violation ++ Q
         ++ lit " which DOES NOT EXIST in Dyad.";
       [];
       lit "Use ONLY these Dyad tags:";
       lit "- <dyad-write path=" ++ Q ++ lit "..." ++ Q ++ lit ">content</dyad-write>";
       lit "- <dyad-delete path=" ++ Q ++ lit "..." ++ Q ++ lit " />";
       lit "- <dyad-rename from=" ++ Q ++ lit "..." ++ Q ++ lit " to=" ++ Q
         ++ lit "..." ++ Q ++ lit " />";
       [];
       lit "Continue your response using only Dyad tags."]
  else if String.eqb key "planning_mode_violation" then
    lines
      [lit "STOP! You're in PLANNING MODE which PROHIBITS creating files.";
       [];
       lit "You CANNOT use <dyad-write> or any file operation tags in planning mode.";
       [];
       lit "Write your plan in Markdown format only. Use the write_to_file tool to create implementation_plan.md."]
  else if String.eqb key "docs_mode_violation" then
    lines
      [lit "STOP! You're in DOCS MODE which only allows Markdown files.";
       [];
       lit "You can ONLY create .md files in the docs/ directory or README.md.";
       [];
       lit "Continue with documentation files only."]
  else if String.eqb key "agent_mode_violation" then
    lines
      [lit "STOP! You're in AGENT MODE which does NOT support Dyad tags.";
       [];
       lit "Use ONLY MCP tools:";
       lit "- execute_command for running shell commands";
       lit "- web-search for finding information";
       [];
       lit "Do NOT use <dyad-write> or any Dyad tags. Your job is information gathering, not code generation."]
  else lit "Fix the violation and continue correctly.".

(** The router streams its text, which is trimmed; a call that throws is
    logged and gives [undefined]. *)
Definition generateCorrection (this : t) (violation : ViolationDetection)
  : option jsstring :=
  match router this (buildCorrectionPrompt violation) with
  | Some correction => Some (trim correction)
  | None => None
  end.

Definition with_text (this : t) (text : jsstring) : t :=
  {| router := router this; accumulatedResponse := text;
     violationsDetected := violationsDetected this;
     onCorrection := onCorrection this; corrections := corrections this;
     mode := mode this; workflowStep := workflowStep this |}.

(** The first violation whose type was not reported yet is marked, its
    correction generated and handed to the callback, and it is returned. *)
Definition report (this : t) (violation : ViolationDetection) : MonitorAnalysis * t :=
  let correction := generateCorrection this violation in
  ({| hasViolation := true;
      violationType := Some (type violation);
      correction := correction |},
   {| router := router this; accumulatedResponse := accumulatedResponse this;
      violationsDetected := {[type violation]} ∪ violationsDetected this;
      onCorrection := onCorrection this;
      corrections :=
        match correction with
        | Some (c :: text) =>
            if onCorrection this then (c :: text) :: corrections this
            else corrections this
        | _ => corrections this
        end;
      mode := mode this; workflowStep := workflowStep this |}).

Fixpoint first_new (this : t) (violations : list ViolationDetection)
  : MonitorAnalysis * t :=
  match violations with
  | [] => ({| hasViolation := false; violationType := None; correction := None |}, this)
  | violation :: rest =>
      if bool_decide (type violation ∈ violationsDetected this)
      then first_new this rest
      else report this violation
  end.

Definition analyzeChunk (this : t) (chunk : jsstring) : MonitorAnalysis * t :=
  let this := with_text this (accumulatedResponse this ++ chunk) in
  let violations := detectQuickViolations this (accumulatedResponse this) in
  first_new this violations.

Definition reset (this : t) : t :=
  {| router := router this; accumulatedResponse := [];
     violationsDetected := ∅;
     onCorrection := onCorrection this; corrections := corrections this;
     mode := mode this; workflowStep := workflowStep this |}.

End StreamingMonitor.

(** ** The corrective agent *)

Module CorrectiveAgent.

Import ResponseValidator.

Record CorrectionAttemptParams : Type := {
  userPrompt : jsstring;
  modelResponse : jsstring;
  violations : list ValidationViolation;
}.

Record CorrectionResult : Type := {
  shouldRetry : bool;
  prompt : option jsstring;
  reason : option jsstring;
}.

(** What the router model does with a prompt: it streams chunks of text,
    or [getModelClient], [streamText] or the stream throws an error with a
    message. *)
Inductive RouterOutcome : Type :=
| Streamed (chunks : list jsstring)
| Thrown (message : jsstring).

Definition type_name (ty : ViolationType) : jsstring :=
  match ty with
  | code_block => lit "code_block"
  | codex_tool => lit "codex_tool"
  | mode_violation => lit "mode_violation"
  | malformed_tag => lit "malformed_tag"
  | prohibited_content => lit "prohibited_content"
  end.

(** [/<corrective-instruction>([\s\S]*?)<\/corrective-instruction>/] *)
Definition instructionRegex : regex :=
  [Lit (lit "<corrective-instruction>"); GroupOpen; Lazy any; GroupClose;
   Lit (lit "</corrective-instruction>")].

Definition violationsText (violations : list ValidationViolation) : jsstring :=
  join NL
    (map (fun v =>
            lit "- " ++ type_name (type v) ++ lit ": " ++ message v ++ NL
            ++ lit "  Context: " ++ substring_to 200 (context v) ++ lit "...")
         violations).

Definition truncatedResponse (modelResponse : jsstring) : jsstring :=
  if 1000 <? length modelResponse
  then substring_to 1000 modelResponse ++ NL ++ lit "...[truncated]"
  else modelResponse.

(** [CORRECTIVE_AGENT_PROMPT] is imported from the prompts; it is an
    argument here, as is the router. *)
Definition correctivePrompt (CORRECTIVE_AGENT_PROMPT : jsstring)
  (params : CorrectionAttemptParams) : jsstring :=
  replace
    (replace
       (replace CORRECTIVE_AGENT_PROMPT (lit "{{VIOLATIONS}}")
          (violationsText (violations params)))
       (lit "{{USER_PROMPT}}") (userPrompt params))
    (lit "{{MODEL_RESPONSE}}") (truncatedResponse (modelResponse params)).

(** What is done with the text the router streamed. *)
Definition extractInstruction (correctiveInstruction : jsstring) : CorrectionResult :=
  match exec instructionRegex correctiveInstruction with
  | Some m =>
      match group1 m with
      | Some (c :: text) =>
          let instruction := trim (c :: text) in
          {| shouldRetry := true; prompt := Some instruction; reason := None |}
      | _ =>
          {| shouldRetry := false; prompt := None;
             reason := Some (lit "Could not generate corrective instruction (no tags found)") |}
      end
  | None =>
      {| shouldRetry := false; prompt := None;
         reason := Some (lit "Could not generate corrective instruction (no tags found)") |}
  end.

Definition attemptCorrection (CORRECTIVE_AGENT_PROMPT : jsstring)
  (router : jsstring -> RouterOutcome) (params : CorrectionAttemptParams)
  : CorrectionResult :=
  let prompt := correctivePrompt CORRECTIVE_AGENT_PROMPT params in
  match router prompt with
  | Streamed chunks =>
      let correctiveInstruction := fold_left (fun acc chunk => acc ++ chunk) chunks [] in
      extractInstruction correctiveInstruction
  | Thrown message =>
      {| shouldRetry := false; prompt := None;
         reason := Some (lit "Correction failed: " ++ message) |}
  end.

End CorrectiveAgent.

(** ** The stream orchestrator: processing a stream and the
       stop-correct-resume loop *)

Module Orchestrator.

Import ChatStream.

Record AbortController : Type := {
  aborted : bool;                          (* [signal.aborted] *)
  _correctionNeeded : option jsstring;
  _violationType : option string;
}.

(** [new AbortController()] *)
Definition newAbortController : AbortController :=
  {| aborted := false; _correctionNeeded := None; _violationType := None |}.

(** Modelled from the spec: [UserSettings] is imported from the schemas.
    These are the settings the loop reads; the correction attempts are
    bounded by a configured maximum, a count when it is set. *)
Record UserSettings : Type := {
  enableFastCorrection : bool;
  enableRealtimeMonitoring : bool;
  routerModel : bool;                       (* whether one is configured *)
  maxCorrectionAttempts : option nat;
  selectedChatMode : option string;
}.

Inductive Monitor : Type :=
| Fast (m : FastMonitor.t)
| Streaming (m : StreamingMonitor.t)
| null.

(** The parts of a stream. A tool call, a tool result and a finish part
    carry the chunk their handler builds for them; [other] is a part of any
    other type. *)
Inductive part : Type :=
| text_delta (text : jsstring)
| reasoning_delta (text : value)
| reasoning_start
| reasoning_end
| tool_call (chunk : jsstring)
| tool_result (chunk : jsstring)
| finish (chunk : jsstring)
| other.

Record message : Type := {
  role : string;
  content : jsstring;
}.

(** A string is truthy when it is not empty. *)
Definition truthy (x : option jsstring) : bool :=
  match x with
  | Some (_ :: _) => true
  | _ => false
  end.

Definition is_reasoning (p : part) : bool :=
  match p with
  | reasoning_delta _ | reasoning_start | reasoning_end => true
  | _ => false
  end.

Section Loop.

(** What the loop takes from its surroundings: [cleanFullResponse] is
    imported; [supabaseClientCode] is the client code of the Supabase
    project of the app, when the app has one; [model chatMessages] is the
    stream [simpleStreamText] returns for [chatMessages], a finite list of
    parts; [router] is the router model of the streaming monitor;
    [workflowStep] is the step of the chat. A stream that throws leaves the
    loop through the exception, which [catch] throws again; the streams
    here do not throw. *)
Variable cleanFullResponse : jsstring -> jsstring.
Variable supabaseClientCode : option jsstring.
Variable model : list message -> list part.
Variable router : jsstring -> option jsstring.
Variable settings : UserSettings.
Variable workflowStep : option string.

(** [processResponseChunkUpdate] puts the client code in the place of its
    placeholder and returns the response; it also keeps the response as the
    partial response of the chat, saves it at intervals and sends it to the
    renderer, which does not come back to the loop. *)
Definition processResponseChunkUpdate (fullResponse : jsstring) : jsstring :=
  match supabaseClientCode with
  | Some code =>
      if includes fullResponse (lit "$$SUPABASE_CLIENT_CODE$$")
      then replace fullResponse (lit "$$SUPABASE_CLIENT_CODE$$") code
      else fullResponse
  | None => fullResponse
  end.

(** The fast monitor checks the whole text so far and, on a violation with
    a correction, marks the controller and aborts it. The streaming monitor
    is handed the chunk; its promise is not awaited and its result is
    dropped. The chunk is returned as it is. *)
Definition handleTextDelta (text : jsstring) (monitor : Monitor)
  (fullResponse : jsstring) (abortController : AbortController)
  : jsstring * Monitor * AbortController :=
  let chunk := text in
  match monitor with
  | Fast m =>
      if enableFastCorrection settings then
        let (result, m') := FastMonitor.checkChunk m (fullResponse ++ chunk) in
        if FastMonitor.hasViolation result && truthy (FastMonitor.correction result)
        then (chunk, Fast m',
              {| aborted := true;
                 _correctionNeeded := FastMonitor.correction result;
                 _violationType := FastMonitor.violationType result |})
        else (chunk, Fast m', abortController)
      else (chunk, monitor, abortController)
  | Streaming m =>
      if enableRealtimeMonitoring settings
      then (chunk, Streaming (snd (StreamingMonitor.analyzeChunk m chunk)), abortController)
      else (chunk, monitor, abortController)
  | null => (chunk, monitor, abortController)
  end.

(** The variables of [processStreamChunks]. *)
Record chunks_state : Type := {
  fullResponse : jsstring;
  incrementalResponse : jsstring;
  inThinkingBlock : bool;
  abortController : AbortController;
  monitor : Monitor;
}.

(** One turn of the loop over the parts; the boolean tells that the loop
    breaks. *)
Definition processPart (p : part) (st : chunks_state) : chunks_state * bool :=
  let closing := inThinkingBlock st && negb (is_reasoning p) in
  let chunk0 := if closing then lit "</think>" else [] in
  let inThinking := if closing then false else inThinkingBlock st in
  let '(chunk, inThinking, monitor, controller) :=
    match p with
    | text_delta text =>
        let '(chunk, monitor, controller) :=
          handleTextDelta text (monitor st) (fullResponse st) (abortController st) in
        (chunk0 ++ chunk, inThinking, monitor, controller)
    | reasoning_delta text =>
        ((if inThinking then chunk0 else lit "<think>") ++ escapeDyadTags text,
         true, monitor st, abortController st)
    | tool_call chunk | tool_result chunk | finish chunk =>
        (chunk, inThinking, monitor st, abortController st)
    | reasoning_start | reasoning_end | other =>
        (chunk0, inThinking, monitor st, abortController st)
    end in
  match chunk with
  | [] =>
      ({| fullResponse := fullResponse st;
          incrementalResponse := incrementalResponse st;
          inThinkingBlock := inThinking;
          abortController := controller;
          monitor := monitor |}, false)
  | _ :: _ =>
      ({| fullResponse :=
            processResponseChunkUpdate (cleanFullResponse (fullResponse st ++ chunk));
          incrementalResponse := incrementalResponse st ++ chunk;
          inThinkingBlock := inThinking;
          abortController := controller;
          monitor := monitor |},
       (* If the stream was aborted, exit early *)
       aborted controller)
  end.

Fixpoint processParts (fullStream : list part) (st : chunks_state) : chunks_state :=
  match fullStream with
  | [] => st
  | p :: rest =>
      let (st', stop) := processPart p st in
      if stop then st' else processParts rest st'
  end.

Definition processStreamChunks (fullStream : list part) (fullResponse : jsstring)
  (abortController : AbortController) (monitor : Monitor) : chunks_state :=
  processParts fullStream
    {| fullResponse := fullResponse;
       incrementalResponse := [];
       inThinkingBlock := false;
       abortController := abortController;
       monitor := monitor |}.

(** [settings.maxCorrectionAttempts || 2] *)
Definition MAX_CORRECTION_ATTEMPTS : nat :=
  match maxCorrectionAttempts settings with
  | Some (S n) => S n
  | _ => 2
  end.

(** [settings.selectedChatMode || 'build'] *)
Definition chatMode : string :=
  match selectedChatMode settings with
  | Some s => if String.eqb s "" then "build" else s
  | None => "build"
  end.

(** The monitor made at the start of every turn of the loop. *)
Definition newMonitor : Monitor :=
  if enableFastCorrection settings then
    Fast (FastMonitor.new chatMode workflowStep)
  else if enableRealtimeMonitoring settings && routerModel settings then
    Streaming (StreamingMonitor.new router chatMode workflowStep false)
  else null.

(** The variables of the stop-correct-resume loop. *)
Record loop_state : Type := {
  fullStream : list part;
  response : jsstring;                     (* [fullResponse] *)
  chatMessages : list message;
  correctionAttempts : nat;
  controller : AbortController;            (* [abortController] *)
}.

Inductive flow : Type :=
| Continue (st : loop_state)
| Break (st : loop_state).

(** One turn of [while (true)]. *)
Definition iteration (st : loop_state) : flow :=
  let monitor := newMonitor in
  let result :=
    processStreamChunks (fullStream st) (response st) (controller st) monitor in
  let fullResponse := fullResponse result in
  let abortController := abortController result in
  (* Check if stream was aborted for correction *)
  if aborted abortController && truthy (_correctionNeeded abortController) then
    if MAX_CORRECTION_ATTEMPTS <=? correctionAttempts st then
      Break {| fullStream := fullStream st; response := fullResponse;
               chatMessages := chatMessages st;
               correctionAttempts := correctionAttempts st;
               controller := abortController |}
    else
      let correctionMessage := default [] (_correctionNeeded abortController) in
      let chatMessages :=
        chatMessages st
        ++ [{| role := "assistant"; content := fullResponse |};
            {| role := "system"; content := correctionMessage |}] in
      Continue {| fullStream := model chatMessages;
                  response := fullResponse;
                  chatMessages := chatMessages;
                  correctionAttempts := S (correctionAttempts st);
                  controller := newAbortController |}
  else
    (* If normal finish or aborted without correction, break loop *)
    Break {| fullStream := fullStream st; response := fullResponse;
             chatMessages := chatMessages st;
             correctionAttempts := correctionAttempts st;
             controller := abortController |}.

(** [while (true)], with fuel for the turns. *)
Fixpoint loop (fuel : nat) (st : loop_state) : option loop_state :=
  match fuel with
  | O => None
  | S fuel' =>
      match iteration st with
      | Break st' => Some st'
      | Continue st' => loop fuel' st'
      end
  end.

(** The loop as it is entered: [correctionAttempts] starts at 0. *)
Definition correctionLoop (fuel : nat) (fullStream : list part)
  (fullResponse : jsstring) (chatMessages : list message)
  (abortController : AbortController) : option loop_state :=
  loop fuel {| fullStream := fullStream; response := fullResponse;
               chatMessages := chatMessages; correctionAttempts := 0;
               controller := abortController |}.

End Loop.

End Orchestrator.

(** ** Notions the properties are stated with *)

(** A regular expression without [\b] and [^] does not look behind. *)
Definition blind (r : regex) : Prop :=
  forall g0 g prev prev' s, run r g0 g prev s = run r g0 g prev' s.

Fixpoint no_lookbehind (r : regex) : bool :=
  match r with
  | [] => true
  | WordB :: _ | Bol :: _ => false
  | _ :: r' => no_lookbehind r'
  end.

(** [r] matches a prefix of [s]. *)
Definition matches_here (r : regex) (s : jsstring) : bool :=
  match run r [] None None s with Some _ => true | None => false end.

(** Each match starts at or after [lo], and after the end of the match
    before it. *)
Fixpoint chain (lo : nat) (l : list rmatch) : Prop :=
  match l with
  | [] => True
  | m :: l' => lo <= index m /\ chain (index m + Nat.max 1 (length (matched m))) l'
  end.

(** The opening and the closing tag of a write directive. *)
Definition OPEN_WRITE : jsstring := Eval vm_compute in lit "<dyad-write".
Definition CLOSE_WRITE : jsstring := Eval vm_compute in lit "</dyad-write>".

(** The text of the first example: an opening tag that is never closed,
    then a write directive that is. *)
Definition open_then_closed : jsstring :=
  lit "<dyad-write path=" ++ Q ++ lit "a.ts" ++ Q ++ lit ">one"
  ++ lit "<dyad-write path=" ++ Q ++ lit "b.ts" ++ Q ++ lit ">two</dyad-write>".

(** More opening tags than closing tags: whatever pairs the tags, some
    opening tag is left without a closing tag. *)
Definition has_unmatched_open (text : jsstring) : Prop :=
  length (matchAll closeRegex text) < length (matchAll openRegex text).

(** [replaceAll] with a literal pattern, from the current position. *)
Definition replaceLit (p rep s : jsstring) : jsstring :=
  replacing [Lit p] rep None s 0.

(** The invariant of a row of the table: the step is set exactly when the
    status is active, and a step that is set is one of the workflow
    steps. *)
Definition row_ok (c : WorkflowManager.chat) : Prop :=
  (WorkflowManager.workflowStep c <> None <->
   WorkflowManager.workflowStatus c = Some "active") /\
  (forall s, WorkflowManager.workflowStep c = Some s ->
             s ∈ WorkflowManager.WORKFLOW_STEPS).

Definition db_ok (d : gmap Z WorkflowManager.chat) : Prop :=
  forall chatId c, d !! chatId = Some c -> row_ok c.

(** The rows a workflow is in when it is idle, and when it is at a step. *)
Definition idle_row : WorkflowManager.chat :=
  {| WorkflowManager.workflowStatus := Some "idle";
     WorkflowManager.workflowStep := None |}.
Definition active_row (step : string) : WorkflowManager.chat :=
  {| WorkflowManager.workflowStatus := Some "active";
     WorkflowManager.workflowStep := Some step |}.

(** The text of the end-to-end scenario: a sentence, then a fenced block. *)
Definition fix_text : jsstring :=
  lit "Here is the fix:" ++ NL ++ lit "```ts" ++ NL ++ lit "const x = 1;" ++ NL ++ lit "```".

(** The violation the validator reports for the fenced block of
    [fix_text]. *)
Definition fix_violation : ResponseValidator.ValidationViolation :=
  {| ResponseValidator.type := ResponseValidator.code_block;
     ResponseValidator.severity := ResponseValidator.critical;
     ResponseValidator.message :=
       lit "Markdown code blocks are prohibited for file content. Use <dyad-write> tags instead.";
     ResponseValidator.context :=
       lit "```ts" ++ NL ++ lit "const x = 1;" ++ NL ++ lit "```" |}.

(** The kinds of violation as the specification names them: the types of
    the validator, and the types of the fast monitor, whose three mode
    types are one kind. *)
Definition kind_of_type (ty : ResponseValidator.ViolationType) : string :=
  match ty with
  | ResponseValidator.code_block => "prohibited-markup-block"
  | ResponseValidator.codex_tool => "prohibited-tool-reference"
  | ResponseValidator.malformed_tag => "malformed-tag-structure"
  | ResponseValidator.mode_violation => "mode-incompatible-directive"
  | ResponseValidator.prohibited_content => "non-content-inside-write"
  end.

Definition kind_of_monitor_type (ty : string) : option string :=
  if String.eqb ty "markdown_code_block" then Some "prohibited-markup-block"
  else if String.eqb ty "codex_cli_tool" then Some "prohibited-tool-reference"
  else if String.eqb ty "planning_file_creation" || String.eqb ty "docs_non_markdown"
          || String.eqb ty "agent_dyad_tags"
  then Some "mode-incompatible-directive"
  else None.

(** The delimiters of a corrective instruction. *)
Definition OPEN_INSTRUCTION : jsstring := lit "<corrective-instruction>".
Definition CLOSE_INSTRUCTION : jsstring := lit "</corrective-instruction>".

(** [s] is [pre], the first occurrence of [p], and [post]. *)
Definition first_split (p s pre post : jsstring) : Prop :=
  s = pre ++ p ++ post /\
  forall pre' post', s = pre' ++ p ++ post' -> length pre <= length pre'.

(** [g] is the text of [reply] between the first opening delimiter and the
    first closing delimiter after it. *)
Definition instruction_of (reply g : jsstring) : Prop :=
  exists pre u post,
    first_split OPEN_INSTRUCTION reply pre u /\
    first_split CLOSE_INSTRUCTION u g post.

(** [reply] contains the pair of delimiters. *)
Definition has_delimiters (reply : jsstring) : Prop :=
  exists pre g post,
    reply = pre ++ OPEN_INSTRUCTION ++ g ++ CLOSE_INSTRUCTION ++ post.

(** The two results of the corrective agent. *)
Definition retry_with (instruction : jsstring) : CorrectiveAgent.CorrectionResult :=
  {| CorrectiveAgent.shouldRetry := true;
     CorrectiveAgent.prompt := Some instruction;
     CorrectiveAgent.reason := None |}.
Definition no_retry (reason : jsstring) : CorrectiveAgent.CorrectionResult :=
  {| CorrectiveAgent.shouldRetry := false;
     CorrectiveAgent.prompt := None;
     CorrectiveAgent.reason := Some reason |}.

(** A reply with the pair of delimiters and nothing between them. *)
Definition empty_instruction : jsstring :=
  lit "Here you go: <corrective-instruction></corrective-instruction>".

(** *** The policy of the monitors: each kind once

    A call is handed the kinds found in the text, in the order in which the
    monitor checks them, and reports the first one that is not in the set
    of the kinds seen, which it joins. *)

Module Once.

Definition pick (seen : gset string) (found : list string) : option string :=
  List.find (fun k => negb (bool_decide (k ∈ seen))) found.

Definition next (seen : gset string) (found : list string) : gset string :=
  match pick seen found with
  | Some k => {[k]} ∪ seen
  | None => seen
  end.

Fixpoint run (seen : gset string) (calls : list (list string)) : list (option string) :=
  match calls with
  | [] => []
  | found :: calls' => pick seen found :: run (next seen found) calls'
  end.

(** The set of the kinds seen after the calls. *)
Fixpoint after (seen : gset string) (calls : list (list string)) : gset string :=
  match calls with
  | [] => seen
  | found :: calls' => after (next seen found) calls'
  end.

(** How many of the calls report [kind]. *)
Definition reports (kind : string) (results : list (option string)) : nat :=
  length (List.filter (fun r => bool_decide (r = Some kind)) results).

End Once.

(** The violation types of the fast monitor, in the order of its checks,
    and what it takes for a text to contain each. *)
Definition FAST_KINDS : list string :=
  ["markdown_code_block"; "codex_cli_tool"; "planning_file_creation";
   "docs_non_markdown"; "agent_dyad_tags"].

Definition fast_detects (m : FastMonitor.t) (kind : string) (text : jsstring) : bool :=
  if String.eqb kind "markdown_code_block" then FastMonitor.detectMarkdownCodeBlock text
  else if String.eqb kind "codex_cli_tool" then FastMonitor.detectCodexCliTool text
  else if String.eqb kind "planning_file_creation" then
    (FastMonitor.step_is m "planning" || String.eqb (FastMonitor.mode m) "planning")
    && includes text (lit "<dyad-write")
  else if String.eqb kind "docs_non_markdown" then
    (FastMonitor.step_is m "docs" || String.eqb (FastMonitor.mode m) "docs")
    && (includes text (lit "<dyad-write") && negb (test FastMonitor.mdPathRegex text))
  else if String.eqb kind "agent_dyad_tags" then
    String.eqb (FastMonitor.mode m) "agent"
    && (includes text (lit "<dyad-write") || includes text (lit "<dyad-delete")
        || includes text (lit "<dyad-rename"))
  else false.

Definition fast_found (m : FastMonitor.t) (text : jsstring) : list string :=
  List.filter (fun kind => fast_detects m kind text) FAST_KINDS.

(** One instance of the fast monitor is handed the texts in turn. *)
Fixpoint fast_run (m : FastMonitor.t) (texts : list jsstring)
  : list FastMonitor.ViolationResult :=
  match texts with
  | [] => []
  | text :: texts' =>
      let (result, m') := FastMonitor.checkChunk m text in
      result :: fast_run m' texts'
  end.

Fixpoint fast_after (m : FastMonitor.t) (texts : list jsstring) : FastMonitor.t :=
  match texts with
  | [] => m
  | text :: texts' => fast_after (snd (FastMonitor.checkChunk m text)) texts'
  end.


(** The types found in the text accumulated once [chunk] is added. *)
Definition streaming_found (m : StreamingMonitor.t) (chunk : jsstring) : list string :=
  map StreamingMonitor.type
    (StreamingMonitor.detectQuickViolations m (StreamingMonitor.accumulatedResponse m ++ chunk)).

(** One instance of the streaming monitor is handed the chunks in turn. *)
Fixpoint streaming_run (m : StreamingMonitor.t) (chunks : list jsstring)
  : list StreamingMonitor.MonitorAnalysis :=
  match chunks with
  | [] => []
  | chunk :: chunks' =>
      let (result, m') := StreamingMonitor.analyzeChunk m chunk in
      result :: streaming_run m' chunks'
  end.

(** What the calls find, each in the text accumulated so far. *)
Fixpoint streaming_calls (m : StreamingMonitor.t) (chunks : list jsstring)
  : list (list string) :=
  match chunks with
  | [] => []
  | chunk :: chunks' =>
      streaming_found m chunk
      :: streaming_calls (snd (StreamingMonitor.analyzeChunk m chunk)) chunks'
  end.

Fixpoint streaming_after (m : StreamingMonitor.t) (chunks : list jsstring)
  : StreamingMonitor.t :=
  match chunks with
  | [] => m
  | chunk :: chunks' =>
      streaming_after (snd (StreamingMonitor.analyzeChunk m chunk)) chunks'
  end.


(** *** The stop-correct-resume loop and its surroundings *)

Section LoopNotions.

Variable cleanFullResponse : jsstring -> jsstring.
Variable supabaseClientCode : option jsstring.
Variable model : list Orchestrator.message -> list Orchestrator.part.
Variable router : jsstring -> option jsstring.
Variable settings : Orchestrator.UserSettings.
Variable workflowStep : option string.

(** The state in which a stream leaves the loop of [processStreamChunks]
    when it is processed as a turn of the correction loop does: from the
    response so far, with a new controller and a new monitor. *)
Definition processed (fullStream : list Orchestrator.part) (fullResponse : jsstring)
  : Orchestrator.chunks_state :=
  Orchestrator.processStreamChunks cleanFullResponse supabaseClientCode settings
    fullStream fullResponse Orchestrator.newAbortController
    (Orchestrator.newMonitor router settings workflowStep).


End LoopNotions.

(** Settings with the fast correction on and no bound of their own, and a
    model that opens a fenced block whatever it is told. *)
Definition fast_settings : Orchestrator.UserSettings :=
  {| Orchestrator.enableFastCorrection := true;
     Orchestrator.enableRealtimeMonitoring := false;
     Orchestrator.routerModel := false;
     Orchestrator.maxCorrectionAttempts := None;
     Orchestrator.selectedChatMode := Some "build" |}.

Definition stubborn_model (chatMessages : list Orchestrator.message)
  : list Orchestrator.part :=
  [Orchestrator.text_delta (lit "```ts" ++ NL)].

(** *** Write directives in the documentation step *)

(** The start of a write directive with [path] as its first attribute, as
    the grammar of the directives has it. *)
Definition write_open (path : jsstring) : jsstring :=
  OPEN_WRITE ++ lit " path=" ++ Q ++ path ++ Q.

(** A response as a text followed by write directives: each directive is
    its path and what follows the path, up to the next directive (the
    other attributes, the content, the closing tag and any text). *)
Definition render (directives : list (jsstring * jsstring)) : jsstring :=
  flat_map (fun d => write_open (fst d) ++ snd d) directives.

(** No opening tag of a write directive starts inside [rest], when [more]
    follows it. *)
Definition no_open_in (rest more : jsstring) : Prop :=
  forall j, j < length rest -> startsWith (drop j (rest ++ more)) OPEN_WRITE = false.

(** The paths are not empty and hold no double quote, and the directives
    listed are all the write directives of the text. *)
Fixpoint well_formed (directives : list (jsstring * jsstring)) : Prop :=
  match directives with
  | [] => True
  | (path, rest) :: directives' =>
      path <> [] /\ forallb (non DQ) path = true /\
      no_open_in rest (render directives') /\ well_formed directives'
  end.


Definition docs_violation (path : jsstring) : ResponseValidator.ValidationViolation :=
  {| ResponseValidator.type := ResponseValidator.mode_violation;
     ResponseValidator.severity := ResponseValidator.critical;
     ResponseValidator.message :=
       lit "Docs mode only allows markdown files in docs/ or README.md. Found: " ++ path;
     ResponseValidator.context := path |}.

(** The violation of agent mode and of ask mode. *)
Definition mode_violations (mode : ResponseValidator.ChatMode)
  : list ResponseValidator.ValidationViolation :=
  match mode with
  | ResponseValidator.build => []
  | ResponseValidator.agent =>
      [{| ResponseValidator.type := ResponseValidator.mode_violation;
          ResponseValidator.severity := ResponseValidator.critical;
          ResponseValidator.message :=
            lit "Agent mode prohibits dyad tags. Use MCP tools (execute_command, web-search) instead.";
          ResponseValidator.context := lit "Found dyad tags in agent mode" |}]
  | ResponseValidator.ask =>
      [{| ResponseValidator.type := ResponseValidator.mode_violation;
          ResponseValidator.severity := ResponseValidator.critical;
          ResponseValidator.message :=
            lit "Ask mode prohibits file operations. This mode is for questions and explanations only.";
          ResponseValidator.context := lit "Found dyad tags in ask mode" |}]
  end.

(** What follows the path in the directives of the examples. *)
Definition rest_of_directive : jsstring :=
  lit " description=" ++ Q ++ lit "d" ++ Q ++ lit ">content</dyad-write>".



(** ** Notions for the further properties *)

(** [advanceStep] called [n] times in a row, the results dropped. *)
Fixpoint advance_times (n : nat) (chatId : Z) (d : gmap Z WorkflowManager.chat)
  : gmap Z WorkflowManager.chat :=
  match n with
  | O => d
  | S n' => advance_times n' chatId (snd (WorkflowManager.advanceStep chatId d))
  end.

(** A text without a backtick, a [<] and an underscore. *)
Definition plain (response : jsstring) : bool :=
  forallb (fun c => negb ((c =? 96) || (c =? 60) || (c =? 95))%N) response.

(** The violation of the planning step. *)
Definition planning_violation : ResponseValidator.ValidationViolation :=
  {| ResponseValidator.type := ResponseValidator.mode_violation;
     ResponseValidator.severity := ResponseValidator.critical;
     ResponseValidator.message :=
       lit "Planning mode prohibits file creation/modification. Only markdown plans are allowed.";
     ResponseValidator.context := lit "Found dyad tags in planning mode" |}.

(** The names of the directives the mode check looks for. *)
Definition CHECKED_TAGS : list string := ["write"; "delete"; "rename"; "add-dependency"].

(** The name the fast monitor gives to a violation type of the streaming
    monitor: the two agree on the fenced block and on the Codex tool, and
    name the three mode violations differently. *)
Definition fast_name (ty : string) : string :=
  if String.eqb ty "planning_mode_violation" then "planning_file_creation"
  else if String.eqb ty "docs_mode_violation" then "docs_non_markdown"
  else if String.eqb ty "agent_mode_violation" then "agent_dyad_tags"
  else ty.

(** A monitor that is not the fast monitor: the streaming monitor or
    none. *)
Definition not_fast (monitor : Orchestrator.Monitor) : bool :=
  match monitor with
  | Orchestrator.Fast _ => false
  | _ => true
  end.

(** ** More helpers of the chat stream handler *)

Module ChatHelpers.

(** Four replacements in a row, each over the result of the one before:
    [&], [<], [>] and the double quote. *)
Definition escapeXml (unsafe : jsstring) : jsstring :=
  replaceAll [Lit Q] (lit "&quot;")
    (replaceAll [Lit (lit ">")] (lit "&gt;")
       (replaceAll [Lit (lit "<")] (lit "&lt;")
          (replaceAll [Lit (lit "&")] (lit "&amp;") unsafe))).

(** [s.lastIndexOf(p)]: the greatest index at which [p] starts in [s],
    [-1] when there is none. *)
Fixpoint lastIndexOf (s p : jsstring) : Z :=
  match s with
  | [] => if startsWith [] p then 0 else -1
  | _ :: t =>
      let later := lastIndexOf t p in
      if (later =? -1)%Z then (if startsWith s p then 0 else -1) else (later + 1)%Z
  end.

Record McpToolKey : Type := {
  serverName : jsstring;
  toolName : jsstring;
}.

(** The key is split on the last occurrence of the separator. A key that
    is empty or is not a string gives two empty names. *)
Definition parseMcpToolKey (toolKey : value) : McpToolKey :=
  match toolKey with
  | VString (c :: key) =>
      let toolKey := c :: key in
      let separator := lit "__" in
      let lastIndex := lastIndexOf toolKey separator in
      if (lastIndex =? -1)%Z then {| serverName := []; toolName := toolKey |}
      else
        {| serverName := take (Z.to_nat lastIndex) toolKey;
           toolName := drop (Z.to_nat lastIndex + length separator) toolKey |}
  | _ => {| serverName := []; toolName := [] |}
  end.

(** A change of a Codex patch, as [codexPatchToDyadWrites] reads it: each
    field is its text when it is a string, [None] when it is absent or of
    another type. *)
Record Change : Type := {
  path : option jsstring;
  content : option jsstring;
  new_content : option jsstring;
}.

(** [changes] is the array [result.changes], [None] when the result is no
    object or has no such array. A change gives a write directive when its
    path is a string that is not empty and it has a content. *)
Definition codexPatchToDyadWrites (changes : option (list Change)) : list jsstring :=
  flat_map (fun change =>
              let content :=
                match content change with
                | Some text => Some text
                | None => new_content change
                end in
              match path change, content with
              | Some (c :: path), Some content =>
                  [lit "<dyad-write path=" ++ Q ++ escapeXml (c :: path) ++ Q
                   ++ lit " description=" ++ Q ++ lit "Update from Codex patch" ++ Q
                   ++ lit ">" ++ escapeDyadTags (VString content) ++ lit "</dyad-write>"]
              | _, _ => []
              end)
           (default [] changes).

(** What [parseCodexCommandInput] returns. *)
Record ExecInput : Type := {
  command : option jsstring;
  cwd : option jsstring;
}.

Record Handled : Type := {
  chunk : jsstring;
  shouldContinue : bool;
}.

(** [toolName] is [part.toolName]; [parsedInput] is what
    [parseCodexCommandInput] makes of [part.input], and [json] what
    [JSON.stringify] makes of it, [None] for undefined; [toolCallId] is the
    id when it is a string. The call of [exec] under the Codex CLI is kept
    in the map and gives no chunk; any other call is written as a tool
    call with its input escaped. *)
Definition handleToolCall (toolName : value) (parsedInput : ExecInput)
  (json : option jsstring) (isCodexCli : bool) (toolCallId : option jsstring)
  (codexExecInputs : gmap (list N) ExecInput) : Handled * gmap (list N) ExecInput :=
  let is_exec :=
    match toolName with
    | VString name => eqs name (lit "exec")
    | _ => false
    end in
  (* [isCodexCli && part.toolName === exec && toolCallId]: the id under
     which the input is kept, when the three hold *)
  let kept :=
    if isCodexCli && is_exec then
      match toolCallId with
      | Some (c :: id) => Some (c :: id)
      | _ => None
      end
    else None in
  match kept with
  | Some toolCallId =>
      ({| chunk := []; shouldContinue := true |},
       <[toolCallId := parsedInput]> codexExecInputs)
  | None =>
      let key := parseMcpToolKey toolName in
      let content :=
        escapeDyadTags (match json with Some text => VString text | None => VUndefined end) in
      ({| chunk := lit "<dyad-mcp-tool-call server=" ++ Q ++ serverName key ++ Q
                   ++ lit " tool=" ++ Q ++ ChatHelpers.toolName key ++ Q ++ lit ">" ++ NL
                   ++ content ++ NL ++ lit "</dyad-mcp-tool-call>" ++ NL;
          shouldContinue := false |},
       codexExecInputs)
  end.

End ChatHelpers.

(** What [escapeXml] puts in the place of a code unit. *)
Definition entity (c : N) : jsstring :=
  if (c =? 38)%N then lit "&amp;"
  else if (c =? 60)%N then lit "&lt;"
  else if (c =? 62)%N then lit "&gt;"
  else if (c =? 34)%N then lit "&quot;"
  else [c].

(** The write directive [codexPatchToDyadWrites] makes of a path and a
    content. *)
Definition codex_write (path content : jsstring) : jsstring :=
  lit "<dyad-write path=" ++ Q ++ ChatHelpers.escapeXml path ++ Q
  ++ lit " description=" ++ Q ++ lit "Update from Codex patch" ++ Q
  ++ lit ">" ++ escapeDyadTags (VString content) ++ lit "</dyad-write>".

(** The path and the content a change gives, when it gives a write
    directive. *)
Definition change_write (change : ChatHelpers.Change) : option (jsstring * jsstring) :=
  match ChatHelpers.path change with
  | Some (c :: path) =>
      match ChatHelpers.content change, ChatHelpers.new_content change with
      | Some content, _ => Some (c :: path, content)
      | None, Some content => Some (c :: path, content)
      | None, None => None
      end
  | _ => None
  end.

(** ** The commands that run without being confirmed *)

Module RunCommand.

Definition safePrefixes : list jsstring :=
  [lit "ls"; lit "pwd"; lit "cat"; lit "find"; lit "grep"; lit "echo"; lit "dir";
   lit "whoami"; lit "date";
   lit "git status"; lit "git log"; lit "git diff"; lit "git show"; lit "git branch";
   lit "node -v"; lit "npm -v"; lit "npm list"; lit "flutter --version";
   lit "dart --version";
   lit "tree"; lit "head"; lit "tail"; lit "wc"; lit "du"; lit "df"; lit "ps";
   lit "who"; lit "id"; lit "uname"; lit "uptime";
   lit "printenv"; lit "env";
   lit "curl"; lit "wget";
   lit "npm test"; lit "npm run test"; lit "npm audit"; lit "npm outdated";
   lit "flutter doctor"; lit "flutter analyze"; lit "flutter test";
   lit "flutter pub outdated"].

Definition isEphemeralCommand (command : jsstring) : bool :=
  let cmd := trim command in
  existsb (fun prefix => startsWith cmd prefix) safePrefixes.

Definition isSafeFlutterCommand (command : jsstring) : bool :=
  startsWith command (lit "flutter create")
  || startsWith command (lit "flutter pub get")
  || startsWith command (lit "flutter run")
  || startsWith command (lit "npm install")
  || startsWith command (lit "npm i")
  || startsWith command (lit "npm run build")
  || startsWith command (lit "yarn install")
  || startsWith command (lit "yarn add")
  || startsWith command (lit "pnpm install")
  || startsWith command (lit "pnpm add")
  || startsWith command (lit "bun install")
  || startsWith command (lit "bun add")
  || isEphemeralCommand command.

End RunCommand.

(** ** Taking tags out of a text *)

Module ChatTags.

(** [/<think>([\s\S]*?)<\/think>/g] *)
Definition thinkRegex : regex :=
  [Lit (lit "<think>"); GroupOpen; Lazy any; GroupClose; Lit (lit "</think>")].

Definition removeThinkingTags (text : jsstring) : jsstring :=
  trim (replaceAll thinkRegex [] text).

(** [/<dyad-problem-report[^>]*>[\s\S]*?<\/dyad-problem-report>/g] *)
Definition problemReportRegex : regex :=
  [Lit (lit "<dyad-problem-report"); Star (non GT); Lit (lit ">"); Lazy any;
   Lit (lit "</dyad-problem-report>")].

Definition removeProblemReportTags (text : jsstring) : jsstring :=
  trim (replaceAll problemReportRegex [] text).

(** [/<dyad-[^>]*>[\s\S]*?<\/dyad-[^>]*>/g] *)
Definition dyadRegex : regex :=
  [Lit (lit "<dyad-"); Star (non GT); Lit (lit ">"); Lazy any;
   Lit (lit "</dyad-"); Star (non GT); Lit (lit ">")].

Definition removeDyadTags (text : jsstring) : jsstring :=
  trim (replaceAll dyadRegex [] text).

Definition removeNonEssentialTags (text : jsstring) : jsstring :=
  removeProblemReportTags (removeThinkingTags text).

End ChatTags.

(** ** The prompt of the corrective agent *)

Module CorrectivePrompt.

(** The template literal, line by line; Q stands for the double quote. A
    backslash before a backtick in the source gives the backtick, and two
    backslashes give one. *)
Definition CORRECTIVE_AGENT_PROMPT : jsstring :=
  lines
    [lit "You are a corrective agent helping another AI model fix its response.";
     [];
     lit "The model attempted to respond but violated the following rules:";
     lit "{{VIOLATIONS}}";
     [];
     lit "Original user request: {{USER_PROMPT}}";
     lit "Model's problematic response: {{MODEL_RESPONSE}}";
     [];
     lit "Your job:";
     lit "1. Identify exactly what the model did wrong";
     lit "2. Provide SPECIFIC corrective instructions";
     lit "3. Format your response as a corrective prompt that will guide the model to fix its response";
     [];
     lit "## Output Format";
     [];
     lit "Provide a corrective prompt in this format:";
     [];
     lit "<corrective-instruction>";
     lit "[Clear, specific instruction on what to change]";
     lit "</corrective-instruction>";
     [];
     lit "## Examples";
     [];
     lit "Example 1 - Used markdown code blocks:";
     lit "<corrective-instruction>";
     lit "You used markdown code blocks (\`\`\`) which are PROHIBITED. Please rewrite your response using ONLY <dyad-write> tags for all code. ";
     [];
     lit "Format: <dyad-write path=" ++ Q ++ lit "src/Component.tsx" ++ Q
       ++ lit " description=" ++ Q ++ lit "Create component" ++ Q ++ lit ">";
     lit "YOUR CODE HERE";
     lit "</dyad-write>";
     [];
     lit "Do NOT use \`\`\` anywhere in your response.";
     lit "</corrective-instruction>";
     [];
     lit "Example 2 - Created files in planning mode:";
     lit "<corrective-instruction>";
     lit "You are in PLANNING MODE which prohibits creating files. You used <dyad-write> tags which are forbidden in this mode.";
     [];
     lit "Please provide ONLY a written plan in Markdown format. Describe WHAT should be built and HOW, but do not create any actual files. Use the write_to_file tool to create "
       ++ Q ++ lit "implementation_plan.md" ++ Q ++ lit " with your plan.";
     lit "</corrective-instruction>";
     [];
     lit "Example 3 - Used Codex CLI tools:";
     lit "<corrective-instruction>";
     lit "You attempted to use Codex CLI tools (apply_patch, turbo_edit) which DO NOT EXIST in Dyad. ";
     [];
     lit "Use ONLY <dyad-write> tags for all file operations:";
     lit "- To create/modify files: <dyad-write path=" ++ Q ++ lit "..." ++ Q
       ++ lit " description=" ++ Q ++ lit "..." ++ Q
       ++ lit ">FULL FILE CONTENT</dyad-write>";
     lit "- To delete files: <dyad-delete path=" ++ Q ++ lit "..." ++ Q ++ lit " />";
     lit "- To rename files: <dyad-rename from=" ++ Q ++ lit "..." ++ Q ++ lit " to="
       ++ Q ++ lit "..." ++ Q ++ lit " />";
     [];
     lit "Rewrite your response using only these Dyad-specific tags.";
     lit "</corrective-instruction>";
     [];
     lit "Be direct, specific, and actionable in your instructions."].

End CorrectivePrompt.

(** The template around its three placeholders. *)
Definition PROMPT_HEAD : jsstring :=
  lit "You are a corrective agent helping another AI model fix its response."
  ++ NL ++ NL
  ++ lit "The model attempted to respond but violated the following rules:" ++ NL.
Definition PROMPT_BEFORE_USER : jsstring := NL ++ NL ++ lit "Original user request: ".
Definition PROMPT_BEFORE_RESPONSE : jsstring := NL ++ lit "Model's problematic response: ".
Definition PROMPT_TAIL : jsstring :=
  match split_first (lit "{{MODEL_RESPONSE}}") CorrectivePrompt.CORRECTIVE_AGENT_PROMPT with
  | Some (_, tail) => tail
  | None => []
  end.

(** ** The task detector *)

Module TaskDetector.

Inductive TaskType : Type := frontend | backend | debugging | general.

(** [s.split(sep)] for a separator of one code unit: the pieces between
    the separators, one piece when there is none. *)
Fixpoint split (sep : N) (s : jsstring) : list jsstring :=
  match s with
  | [] => [[]]
  | c :: t =>
      if (c =? sep)%N then [] :: split sep t
      else
        match split sep t with
        | piece :: pieces => (c :: piece) :: pieces
        | [] => [[c]]
        end
  end.

Definition debuggingKeywords : list jsstring :=
  [lit "error"; lit "bug"; lit "fix"; lit "crash"; lit "issue"; lit "problem";
   lit "broken"; lit "not working"; lit "debug"; lit "exception"; lit "failed";
   lit "failing"; lit "throws"; lit "undefined"; lit "null"; lit "warning";
   lit "typescript error"; lit "runtime error"; lit "syntax error"].

Definition frontendKeywords : list jsstring :=
  [lit "component"; lit "ui"; lit "button"; lit "form"; lit "input"; lit "style";
   lit "css"; lit "tailwind"; lit "react"; lit "jsx"; lit "tsx"; lit "page";
   lit "layout"; lit "modal"; lit "dialog"; lit "tooltip"; lit "animation";
   lit "hover"; lit "click"; lit "responsive"; lit "mobile"; lit "desktop";
   lit "navigation"; lit "menu"; lit "sidebar"; lit "header"; lit "footer";
   lit "card"; lit "icon"; lit "image"; lit "video"; lit "accessibility"; lit "a11y"].

Definition backendKeywords : list jsstring :=
  [lit "api"; lit "endpoint"; lit "route"; lit "server"; lit "database"; lit "query";
   lit "sql"; lit "model"; lit "schema"; lit "migration"; lit "authentication";
   lit "authorization"; lit "middleware"; lit "validation"; lit "service";
   lit "controller"; lit "repository"; lit "orm"; lit "rest"; lit "graphql";
   lit "websocket"; lit "cron"; lit "job"; lit "queue"; lit "cache"; lit "redis";
   lit "postgres"; lit "mongo"; lit "supabase"].

Definition isFrontendExtension (ext : jsstring) : bool :=
  existsb (eqs ext)
    [lit "tsx"; lit "jsx"; lit "css"; lit "scss"; lit "sass"; lit "less"; lit "vue";
     lit "svelte"; lit "html"].

Definition isBackendExtension (ext : jsstring) : bool :=
  existsb (eqs ext) [lit "ts"; lit "js"]
  && negb (existsb (eqs ext) [lit "tsx"; lit "jsx"]).

Section Detect.

(** [String.prototype.toLowerCase] is a function of the library, over the
    whole of Unicode; the detector is taken over it. *)
Variable toLowerCase : jsstring -> jsstring.

Definition getFileExtension (filePath : jsstring) : jsstring :=
  let parts := split 46 filePath in
  if 1 <? length parts then toLowerCase (List.last parts []) else [].

(** How many of the keywords the prompt holds. *)
Definition score (keywords : list jsstring) (promptLower : jsstring) : nat :=
  length (List.filter (fun keyword => includes promptLower keyword) keywords).

(** [selectedComponent] is the relative path of the component, when one is
    selected; [codebaseFiles] the paths of the files, when they are
    given. *)
Definition detectTaskType (userPrompt : jsstring) (selectedComponent : option jsstring)
  (codebaseFiles : option (list jsstring)) : TaskType :=
  let promptLower := toLowerCase userPrompt in
  (* Check for debugging indicators first (highest priority) *)
  let debuggingScore := score debuggingKeywords promptLower in
  if 1 <=? debuggingScore then debugging
  else
    (* Check frontend vs backend keywords *)
    let frontendScore := score frontendKeywords promptLower in
    let backendScore := score backendKeywords promptLower in
    (* Analyze file extensions from selected component *)
    let '(frontendScore, backendScore) :=
      match selectedComponent with
      | Some relativePath =>
          let ext := getFileExtension relativePath in
          if isFrontendExtension ext then (frontendScore + 2, backendScore)
          else if isBackendExtension ext then (frontendScore, backendScore + 2)
          else (frontendScore, backendScore)
      | None => (frontendScore, backendScore)
      end in
    (* Analyze codebase files if available *)
    let '(frontendScore, backendScore) :=
      match codebaseFiles with
      | Some (file :: files) =>
          let codebaseFiles := file :: files in
          let frontendFiles :=
            length (List.filter (fun f => isFrontendExtension (getFileExtension f))
                      codebaseFiles) in
          let backendFiles :=
            length (List.filter (fun f => isBackendExtension (getFileExtension f))
                      codebaseFiles) in
          if backendFiles <? frontendFiles then (frontendScore + 1, backendScore)
          else if frontendFiles <? backendFiles then (frontendScore, backendScore + 1)
          else (frontendScore, backendScore)
      | _ => (frontendScore, backendScore)
      end in
    (* Determine task type based on scores *)
    if (backendScore <? frontendScore) && (0 <? frontendScore) then frontend
    else if (frontendScore <? backendScore) && (0 <? backendScore) then backend
    else general.

End Detect.

End TaskDetector.

(** The prompt holds none of the keywords of the detector. *)
Definition no_keyword (promptLower : jsstring) : Prop :=
  forall keyword,
    In keyword (TaskDetector.debuggingKeywords ++ TaskDetector.frontendKeywords
                ++ TaskDetector.backendKeywords) ->
    includes promptLower keyword = false.

(** Lower case for the ASCII letters, the other code units left as they
    are: what [toLowerCase] does to a text in ASCII. *)
Definition ascii_lower (s : jsstring) : jsstring :=
  map (fun c => if ((65 <=? c) && (c <=? 90))%N then (c + 32)%N else c) s.


(** * Properties *)

(** ** Strings *)

Lemma strip_app (p r : jsstring) : strip p (p ++ r) = Some r.
Proof.
  induction p as [|a p IH]; simpl; [reflexivity|].
  rewrite N.eqb_refl. exact IH.
Qed.

Lemma strip_Some (p s r : jsstring) : strip p s = Some r -> s = p ++ r.
Proof.
  revert s. induction p as [|a p IH]; simpl; intros s H.
  - congruence.
  - destruct s as [|b s]; [discriminate|].
    destruct (N.eqb_spec a b) as [->|]; [|discriminate].
    f_equal. apply IH, H.
Qed.

Lemma strip_None (p s : jsstring) :
  strip p s = None <-> forall r, s <> p ++ r.
Proof.
  split.
  - intros H r ->. rewrite strip_app in H. discriminate.
  - intros H. destruct (strip p s) as [r|] eqn:E; [|reflexivity].
    apply strip_Some in E. destruct (H r E).
Qed.

Lemma startsWith_true (s p : jsstring) :
  startsWith s p = true <-> exists r, s = p ++ r.
Proof.
  unfold startsWith. split.
  - destruct (strip p s) as [r|] eqn:E; [|discriminate].
    intros _. exists r. apply strip_Some, E.
  - intros [r ->]. rewrite strip_app. reflexivity.
Qed.

Lemma includes_true (s p : jsstring) :
  includes s p = true <-> exists pre post, s = pre ++ p ++ post.
Proof.
  induction s as [|c s IH]; simpl.
  - rewrite orb_false_r, startsWith_true. split.
    + intros [r H]. exists [], r. exact H.
    + intros (pre & post & H). destruct pre; [|discriminate]. exists post. exact H.
  - rewrite orb_true_iff, startsWith_true, IH. split.
    + intros [[r H]|(pre & post & H)].
      * exists [], r. exact H.
      * exists (c :: pre), post. rewrite H. reflexivity.
    + intros (pre & post & H). destruct pre as [|c' pre].
      * left. exists post. exact H.
      * right. injection H as _ H. exists pre, post. exact H.
Qed.

Lemma includes_false (s p : jsstring) :
  includes s p = false <-> forall pre post, s <> pre ++ p ++ post.
Proof.
  rewrite <- not_true_iff_false, includes_true. split.
  - intros H pre post E. apply H. eauto.
  - intros H (pre & post & E). exact (H pre post E).
Qed.

(** ** The matcher *)

Lemma literal_id_strip (p : jsstring) (prev : option N) (s : jsstring) :
  snd <$> literal id p prev s = strip p s.
Proof.
  revert prev s. induction p as [|a p IH]; intros prev s; simpl; [reflexivity|].
  destruct s as [|b s]; [reflexivity|]. unfold id.
  destruct (a =? b)%N; [apply IH | reflexivity].
Qed.

Lemma run_lit_last (p g0 : jsstring) (g : option jsstring) (prev : option N)
  (s : jsstring) :
  run [Lit p] g0 g prev s = (fun r => (r, g)) <$> strip p s.
Proof.
  simpl. rewrite <- (literal_id_strip p prev s).
  destruct (literal id p prev s) as [[pv r]|]; reflexivity.
Qed.

Lemma run_lit_cons (p : jsstring) (r : regex) (g0 : jsstring)
  (g : option jsstring) (prev : option N) (s : jsstring) :
  run (Lit p :: r) g0 g prev s =
  match literal id p prev s with
  | Some (prev', s') => run r g0 g prev' s'
  | None => None
  end.
Proof. reflexivity. Qed.


Lemma greedy_blind (cls : N -> bool) (k : option N -> jsstring -> outcome) :
  (forall p p' s, k p s = k p' s) ->
  forall p p' s, greedy cls k p s = greedy cls k p' s.
Proof.
  intros Hk p p' s. revert p p'.
  induction s as [|c s IH]; intros p p'; simpl; [apply Hk|].
  rewrite (Hk p p'). reflexivity.
Qed.

Lemma reluctant_blind (cls : N -> bool) (k : option N -> jsstring -> outcome) :
  (forall p p' s, k p s = k p' s) ->
  forall p p' s, reluctant cls k p s = reluctant cls k p' s.
Proof.
  intros Hk p p' s. revert p p'.
  induction s as [|c s IH]; intros p p'; simpl; rewrite (Hk p p'); reflexivity.
Qed.

Lemma literal_blind (fold : N -> N) (p : jsstring) (prev prev' : option N)
  (s : jsstring) :
  snd <$> literal fold p prev s = snd <$> literal fold p prev' s.
Proof.
  destruct p as [|a p]; simpl; [reflexivity|].
  destruct s as [|b s]; [reflexivity|].
  destruct (fold a =? fold b)%N; reflexivity.
Qed.

Lemma no_lookbehind_blind (r : regex) : no_lookbehind r = true -> blind r.
Proof.
  induction r as [|a r IH]; intros H g0 g prev prev' s; [reflexivity|].
  destruct a; simpl in H; try discriminate; specialize (IH H); simpl.
  - pose proof (literal_blind id p prev prev' s) as E.
    destruct (literal id p prev s) as [[pv u]|], (literal id p prev' s) as [[pv' u']|];
      simpl in E; try congruence.
    injection E as ->. apply IH.
  - pose proof (literal_blind canonicalize p prev prev' s) as E.
    destruct (literal canonicalize p prev s) as [[pv u]|],
             (literal canonicalize p prev' s) as [[pv' u']|];
      simpl in E; try congruence.
    injection E as ->. apply IH.
  - apply greedy_blind. intros; apply IH.
  - apply reluctant_blind. intros; apply IH.
  - reflexivity.
  - apply IH.
  - apply IH.
Qed.

Lemma anchored_blind (r : regex) (prev : option N) (s : jsstring) (i : nat) :
  blind r -> anchored r prev s i = anchored r None s i.
Proof. intros H. unfold anchored. rewrite (H [] None prev None s). reflexivity. Qed.

Lemma anchored_matches_here (r : regex) (s : jsstring) (i : nat) :
  is_Some (anchored r None s i) <-> matches_here r s = true.
Proof.
  unfold anchored, matches_here.
  destruct (run r [] None None s) as [[rest g]|]; split; intros H;
    try reflexivity; try discriminate; eauto.
  destruct H as [? H]. discriminate.
Qed.

Lemma anchored_index (r : regex) (prev : option N) (s : jsstring) (i : nat)
  (m : rmatch) :
  anchored r prev s i = Some m -> index m = i.
Proof.
  unfold anchored. destruct (run r [] None prev s) as [[rest g]|]; [|discriminate].
  intros [= <-]. reflexivity.
Qed.

Lemma anchored_shift (r : regex) (prev : option N) (s : jsstring) (i j : nat) :
  is_Some (anchored r prev s i) -> is_Some (anchored r prev s j).
Proof.
  unfold anchored. destruct (run r [] None prev s) as [[rest g]|]; eauto.
Qed.

(** *** The leftmost match *)

Section Search.

Variable r : regex.
Hypothesis Hr : blind r.

Lemma search_Some (prev : option N) (s : jsstring) (i : nat) (m : rmatch) :
  search r prev s i = Some m <->
  exists n, n <= length s /\ anchored r None (drop n s) (i + n) = Some m /\
            forall j, j < n -> matches_here r (drop j s) = false.
Proof.
  revert prev i. induction s as [|c s IH]; intros prev i; simpl.
  - rewrite (anchored_blind r prev [] i Hr). split.
    + destruct (anchored r None [] i) eqn:E; [|discriminate].
      intros [= <-]. exists 0. rewrite Nat.add_0_r. repeat split; [lia | exact E | lia].
    + intros (n & Hn & E & _). assert (n = 0) as -> by (simpl in Hn; lia).
      rewrite Nat.add_0_r in E. simpl in E. rewrite E. reflexivity.
  - rewrite (anchored_blind r prev (c :: s) i Hr).
    destruct (anchored r None (c :: s) i) as [m0|] eqn:E.
    + split.
      * intros [= <-]. exists 0. rewrite Nat.add_0_r. repeat split; [lia | exact E | lia].
      * intros (n & Hn & En & Hmin). destruct n as [|n].
        -- rewrite Nat.add_0_r in En. simpl in En. congruence.
        -- specialize (Hmin 0 ltac:(lia)). simpl in Hmin.
           assert (is_Some (anchored r None (c :: s) i)) as Hs by eauto.
           apply anchored_matches_here in Hs. congruence.
    + rewrite IH. split.
      * intros (n & Hn & En & Hmin). exists (S n). repeat split.
        -- lia.
        -- simpl. rewrite <- En. f_equal. lia.
        -- intros [|j] Hj; simpl.
           ++ destruct (matches_here r (c :: s)) eqn:Em; [|reflexivity].
              apply (anchored_matches_here r (c :: s) i) in Em.
              rewrite E in Em. destruct Em; discriminate.
           ++ apply Hmin. lia.
      * intros (n & Hn & En & Hmin). destruct n as [|n].
        -- rewrite Nat.add_0_r in En. simpl in En. congruence.
        -- exists n. repeat split.
           ++ lia.
           ++ simpl in En. rewrite <- En. f_equal. lia.
           ++ intros j Hj. apply (Hmin (S j)). lia.
Qed.

Lemma test_true (s : jsstring) :
  test r s = true <-> exists pre post, s = pre ++ post /\ matches_here r post = true.
Proof.
  unfold test, exec. split.
  - destruct (search r None s 0) as [m|] eqn:E; [|discriminate].
    intros _. apply search_Some in E as (n & Hn & En & _).
    exists (take n s), (drop n s). split; [symmetry; apply take_drop|].
    apply (anchored_matches_here r _ (0 + n)). eauto.
  - intros (pre & post & -> & Hm).
    destruct (search r None (pre ++ post) 0) as [m|] eqn:E; [reflexivity|].
    exfalso. revert E. generalize 0 at 1. generalize (@None N).
    induction pre as [|c pre IH]; intros prev i E.
    + destruct post; simpl in E; rewrite (anchored_blind r prev _ i Hr) in E;
        apply (anchored_matches_here r _ i) in Hm as [m Hm]; rewrite Hm in E; discriminate.
    + simpl in E. destruct (anchored r prev (c :: pre ++ post) i); [discriminate|].
      eapply IH, E.
Qed.

Lemma test_false (s : jsstring) :
  test r s = false <-> forall pre post, s = pre ++ post -> matches_here r post = false.
Proof.
  rewrite <- not_true_iff_false, test_true. split.
  - intros H pre post E. destruct (matches_here r post) eqn:Em; [|reflexivity].
    destruct H. eauto.
  - intros H (pre & post & E & Hm). rewrite (H pre post E) in Hm. discriminate.
Qed.

End Search.

(** *** The matches under the [g] flag *)

Section Scan.

Variable r : regex.
Hypothesis Hr : blind r.

(** Every match of the scan is a match of [r] at its index. *)
Lemma scan_sound (prev : option N) (s : jsstring) (i k : nat) (m : rmatch) :
  m ∈ scan r prev s i k ->
  i + k <= index m /\ index m <= i + length s /\
  anchored r None (drop (index m - i) s) (index m) = Some m.
Proof.
  revert prev i k. induction s as [|c s IH]; intros prev i k Hm.
  - destruct k; simpl in Hm; [|inversion Hm].
    rewrite (anchored_blind r prev [] i Hr) in Hm.
    destruct (anchored r None [] i) as [m0|] eqn:E; [|inversion Hm].
    apply list_elem_of_singleton in Hm as ->.
    pose proof (anchored_index _ _ _ _ _ E) as Hi. rewrite Hi.
    rewrite Nat.sub_diag. simpl. repeat split; [lia | lia | exact E].
  - assert (forall k', m ∈ scan r (Some c) s (S i) k' ->
              i + S k' <= index m /\ index m <= i + length (c :: s) /\
              anchored r None (drop (index m - i) (c :: s)) (index m) = Some m) as Htail.
    { intros k' H. apply IH in H as (H1 & H2 & H3). simpl. repeat split; [lia | lia |].
      replace (index m - i) with (S (index m - S i)) by lia. exact H3. }
    destruct k as [|k]; simpl in Hm.
    + rewrite (anchored_blind r prev (c :: s) i Hr) in Hm.
      destruct (anchored r None (c :: s) i) as [m0|] eqn:E.
      * apply elem_of_cons in Hm as [->|Hm].
        -- pose proof (anchored_index _ _ _ _ _ E) as Hi. rewrite Hi.
           rewrite Nat.sub_diag. simpl. repeat split; [lia | lia | exact E].
        -- apply Htail in Hm as (H1 & H2 & H3). repeat split; [lia | exact H2 | exact H3].
      * apply Htail in Hm as (H1 & H2 & H3). repeat split; [lia | exact H2 | exact H3].
    + apply Htail in Hm as (H1 & H2 & H3). repeat split; [lia | exact H2 | exact H3].
Qed.

(** The matches come in order and do not overlap. *)
Lemma scan_chain (prev : option N) (s : jsstring) (i k : nat) :
  chain (i + k) (scan r prev s i k).
Proof.
  revert prev i k. induction s as [|c s IH]; intros prev i k.
  - destruct k; simpl; [|exact I].
    destruct (anchored r prev [] i) as [m0|] eqn:E; simpl; [|exact I].
    apply anchored_index in E. split; [lia | exact I].
  - destruct k as [|k]; simpl.
    + destruct (anchored r prev (c :: s) i) as [m0|] eqn:E; simpl.
      * apply anchored_index in E. split; [lia|].
        replace (index m0 + Nat.max 1 (length (matched m0)))
          with (S i + (length (matched m0) - 1)) by lia.
        apply IH.
      * specialize (IH (Some c) (S i) 0). replace (i + 0) with i by lia.
        destruct (scan r (Some c) s (S i) 0) as [|m l]; [exact I|].
        simpl in *. split; [lia | apply IH].
    + replace (i + S k) with (S i + k) by lia. apply IH.
Qed.

(** Every position at which [r] matches starts a match of the scan or lies
    inside one. *)
Lemma scan_complete (prev : option N) (s : jsstring) (i k d : nat) :
  k <= d -> d <= length s -> matches_here r (drop d s) = true ->
  exists m, m ∈ scan r prev s i k /\
            index m <= i + d /\ i + d < index m + Nat.max 1 (length (matched m)).
Proof.
  revert prev i k d. induction s as [|c s IH]; intros prev i k d Hk Hd Hm.
  - simpl in Hd. assert (d = 0) as -> by lia. assert (k = 0) as -> by lia.
    simpl in *. rewrite (anchored_blind r prev [] i Hr).
    apply (anchored_matches_here r [] i) in Hm as [m Hm]. rewrite Hm.
    exists m. apply anchored_index in Hm. split; [apply list_elem_of_singleton; reflexivity | lia].
  - destruct k as [|k]; simpl.
    + rewrite (anchored_blind r prev (c :: s) i Hr).
      destruct (anchored r None (c :: s) i) as [m0|] eqn:E.
      * destruct (Nat.lt_ge_cases d (Nat.max 1 (length (matched m0)))) as [Hlt|Hge].
        -- exists m0. apply anchored_index in E. split; [apply elem_of_cons; left; reflexivity | lia].
        -- destruct d as [|d]; [lia|]. simpl in Hm, Hd.
           destruct (IH (Some c) (S i) (length (matched m0) - 1) d) as (m & H1 & H2 & H3);
             [lia | lia | exact Hm |].
           exists m. split; [apply elem_of_cons; right; exact H1 | lia].
      * destruct d as [|d].
        -- simpl in Hm. apply (anchored_matches_here r _ i) in Hm as [m Hm]. congruence.
        -- simpl in Hm, Hd.
           destruct (IH (Some c) (S i) 0 d) as (m & H1 & H2 & H3); [lia | lia | exact Hm |].
           exists m. split; [exact H1 | lia].
    + destruct d as [|d]; [lia|]. simpl in Hm, Hd.
      destruct (IH (Some c) (S i) k d) as (m & H1 & H2 & H3); [lia | lia | exact Hm |].
      exists m. split; [exact H1 | lia].
Qed.

End Scan.

Lemma chain_lower (lo : nat) (l : list rmatch) (m : rmatch) :
  chain lo l -> m ∈ l -> lo <= index m.
Proof.
  revert lo. induction l as [|m0 l IH]; intros lo Hc Hm; [inversion Hm|].
  destruct Hc as [H0 Hc]. apply elem_of_cons in Hm as [->|Hm]; [exact H0|].
  specialize (IH _ Hc Hm). lia.
Qed.

(** The last match of a chain starts after the end of every other one. *)
Lemma chain_last (lo : nat) (l : list rmatch) (m m' : rmatch) :
  chain lo l -> last l = Some m -> m' ∈ l ->
  m' = m \/ index m' + Nat.max 1 (length (matched m')) <= index m.
Proof.
  revert lo. induction l as [|m0 l IH]; intros lo Hc Hl Hm; [inversion Hm|].
  destruct Hc as [H0 Hc]. destruct l as [|m1 l].
  - simpl in Hl. injection Hl as <-. apply list_elem_of_singleton in Hm. left. exact Hm.
  - change (last (m0 :: m1 :: l)) with (last (m1 :: l)) in Hl.
    apply elem_of_cons in Hm as [->|Hm].
    + right. apply (chain_lower _ (m1 :: l)); [exact Hc|].
      apply last_Some_elem_of, Hl.
    + eapply IH; eauto.
Qed.

(** *** Greedy classes *)

Lemma dropWhile_split (f : N -> bool) (s : jsstring) :
  exists a, s = a ++ dropWhile f s /\ forallb f a = true.
Proof.
  induction s as [|c s (a & E & Ha)]; simpl.
  - exists []. split; reflexivity.
  - destruct (f c) eqn:Ec.
    + exists (c :: a). simpl. rewrite Ec, Ha. split; [f_equal; exact E | reflexivity].
    + exists []. split; reflexivity.
Qed.

Lemma dropWhile_app (f : N -> bool) (a : jsstring) (x : N) (b : jsstring) :
  forallb f a = true -> f x = false -> dropWhile f (a ++ x :: b) = x :: b.
Proof.
  intros Ha Hx. induction a as [|c a IH]; simpl in *.
  - rewrite Hx. reflexivity.
  - apply andb_true_iff in Ha as [-> Ha]. apply IH, Ha.
Qed.

(** The first occurrence of [x] splits a string that has one. *)
Lemma first_occurrence (x : N) (s a b : jsstring) :
  s = a ++ x :: b ->
  exists a' b', s = a' ++ x :: b' /\ forallb (non x) a' = true.
Proof.
  intros ->. induction a as [|c a (a' & b' & E & Ha)]; simpl.
  - exists [], b. split; reflexivity.
  - destruct (N.eqb_spec c x) as [->|Hc].
    + exists [], (a ++ x :: b). split; reflexivity.
    + exists (c :: a'), b'. simpl. rewrite E. split; [reflexivity|].
      rewrite Ha. unfold non. apply N.eqb_neq in Hc. rewrite Hc. reflexivity.
Qed.

(** [[^x]*] before a literal [x] takes everything up to the first [x]. *)
Lemma greedy_until (x : N) (k : option N -> jsstring -> outcome)
  (prev : option N) (s : jsstring) :
  (forall p p' u, k p u = k p' u) ->
  (forall p c u, c <> x -> k p (c :: u) = None) ->
  greedy (non x) k prev s = k None (dropWhile (non x) s).
Proof.
  intros Hb Hk. revert prev. induction s as [|c s IH]; intros prev; simpl.
  - apply Hb.
  - unfold non at 1 3. destruct (N.eqb_spec c x) as [->|Hc]; simpl.
    + apply Hb.
    + rewrite IH. destruct (k None (dropWhile (non x) s)); [reflexivity|].
      apply Hk, Hc.
Qed.

Lemma strip_single (x : N) (s : jsstring) :
  strip [x] s = match s with c :: u => if (x =? c)%N then Some u else None | [] => None end.
Proof. destruct s; reflexivity. Qed.

(** *** The opening tag of a write directive *)

Lemma openRegex_blind : blind openRegex.
Proof. apply no_lookbehind_blind. reflexivity. Qed.

Lemma closeRegex_blind : blind closeRegex.
Proof. apply no_lookbehind_blind. reflexivity. Qed.

Lemma run_tag (name : jsstring) (prev : option N) (s : jsstring) :
  run [Lit name; Star (non GT); Lit (lit ">")] [] None prev s =
  match strip name s with
  | Some u =>
      match dropWhile (non GT) u with
      | c :: rest => if (GT =? c)%N then Some (rest, None) else None
      | [] => None
      end
  | None => None
  end.
Proof.
  rewrite run_lit_cons. rewrite <- (literal_id_strip name prev s).
  destruct (literal id name prev s) as [[pv u]|]; simpl fmap; [|reflexivity].
  change (run (Star (non GT) :: [Lit (lit ">")]) [] None pv u)
    with (greedy (non GT) (run [Lit (lit ">")] [] None) pv u).
  rewrite greedy_until.
  - rewrite run_lit_last. change (lit ">") with [GT]. rewrite strip_single.
    destruct (dropWhile (non GT) u) as [|c rest]; [reflexivity|].
    destruct (GT =? c)%N; reflexivity.
  - intros. rewrite !run_lit_last. reflexivity.
  - intros p c v Hc. rewrite run_lit_last. change (lit ">") with [GT].
    rewrite strip_single. apply N.eqb_neq in Hc. rewrite N.eqb_sym, Hc. reflexivity.
Qed.

(** A tag matches where its name is followed, somewhere, by [>]; the match
    ends at the first one. *)
Lemma tag_here (name s : jsstring) :
  matches_here [Lit name; Star (non GT); Lit (lit ">")] s = true <->
  exists attrs post, s = name ++ attrs ++ GT :: post.
Proof.
  unfold matches_here. rewrite run_tag. split.
  - destruct (strip name s) as [u|] eqn:E; [|discriminate].
    apply strip_Some in E as ->.
    destruct (dropWhile_split (non GT) u) as (a & Eu & _).
    destruct (dropWhile (non GT) u) as [|c rest]; [discriminate|].
    destruct (N.eqb_spec GT c) as [<-|]; [|discriminate].
    intros _. exists a, rest. rewrite Eu at 1. reflexivity.
  - intros (attrs & post & ->). rewrite strip_app.
    destruct (first_occurrence GT (attrs ++ GT :: post) attrs post eq_refl)
      as (a' & b' & -> & Ha).
    rewrite dropWhile_app; [| exact Ha | reflexivity].
    rewrite N.eqb_refl. reflexivity.
Qed.

Lemma tag_anchored (name s : jsstring) (i : nat) (m : rmatch) :
  anchored [Lit name; Star (non GT); Lit (lit ">")] None s i = Some m ->
  exists a b, s = name ++ a ++ GT :: b /\ forallb (non GT) a = true /\
              matched m = name ++ a ++ [GT] /\ index m = i.
Proof.
  unfold anchored. rewrite run_tag.
  destruct (strip name s) as [u|] eqn:E; [|discriminate].
  apply strip_Some in E as ->.
  destruct (dropWhile_split (non GT) u) as (a & Eu & Ha).
  destruct (dropWhile (non GT) u) as [|c rest]; [discriminate|].
  destruct (N.eqb_spec GT c) as [<-|]; [|discriminate].
  intros [= <-]. exists a, rest. simpl index. simpl matched.
  repeat split; [rewrite Eu at 1; reflexivity | exact Ha |].
  rewrite Eu at 1 2. rewrite !length_app. simpl length.
  replace (length name + (length a + S (length rest)) - length rest)
    with (length (name ++ a ++ [GT])) by (rewrite !length_app; simpl; lia).
  replace (name ++ a ++ GT :: rest) with ((name ++ a ++ [GT]) ++ rest)
    by (rewrite <- !app_assoc; reflexivity).
  apply take_app_length.
Qed.

Lemma lit_here (p s : jsstring) :
  matches_here [Lit p] s = startsWith s p.
Proof.
  unfold matches_here, startsWith. rewrite run_lit_last.
  destruct (strip p s); reflexivity.
Qed.

(** A regular expression made of one literal tests inclusion. *)
Lemma test_lit (p s : jsstring) : test [Lit p] s = includes s p.
Proof.
  assert (blind [Lit p]) as Hb by (apply no_lookbehind_blind; reflexivity).
  apply eq_true_iff_eq. rewrite (test_true _ Hb), includes_true. split.
  - intros (pre & post & -> & H). rewrite lit_here in H.
    apply startsWith_true in H as [r ->]. eauto.
  - intros (pre & post & ->). exists pre, (p ++ post). split; [reflexivity|].
    rewrite lit_here. apply startsWith_true. eauto.
Qed.

(** ** C1: [hasUnclosedDyadWrite] *)

Lemma fold_last_index (l : list rmatch) (acc : Z) :
  fold_left (fun _ m => Z.of_nat (index m)) l acc =
  match last l with Some m => Z.of_nat (index m) | None => acc end.
Proof.
  revert acc. induction l as [|m l IH]; intros acc; [reflexivity|].
  simpl fold_left. rewrite IH. destruct l as [|m1 l]; [reflexivity|].
  change (last (m :: m1 :: l)) with (last (m1 :: l)).
  destruct (last (m1 :: l)) eqn:E; [reflexivity|].
  apply last_None in E. discriminate E.
Qed.

Lemma hasUnclosedDyadWrite_last (text : jsstring) :
  hasUnclosedDyadWrite text =
  match last (matchAll openRegex text) with
  | Some m => negb (includes (drop (index m) text) CLOSE_WRITE)
  | None => false
  end.
Proof.
  unfold hasUnclosedDyadWrite, lastOpenIndex. rewrite fold_last_index.
  destruct (last (matchAll openRegex text)) as [m|]; [|reflexivity].
  destruct (Z.eqb_spec (Z.of_nat (index m)) (-1)) as [E|_]; [lia|].
  cbv zeta. rewrite Nat2Z.id. unfold closeRegex, substring_from.
  rewrite test_lit. reflexivity.
Qed.

Lemma includes_drop_false (s p : jsstring) (n : nat) :
  includes s p = false -> includes (drop n s) p = false.
Proof.
  rewrite !includes_false. intros H pre post E.
  apply (H (take n s ++ pre) post).
  rewrite <- (take_drop n s) at 1. rewrite E, <- app_assoc. reflexivity.
Qed.

Lemma forallb_lookup (f : N -> bool) (l : jsstring) (j : nat) (x : N) :
  forallb f l = true -> l !! j = Some x -> f x = true.
Proof.
  intros H Hj. rewrite forallb_forall in H. apply H.
  apply list_elem_of_In. eapply list_elem_of_lookup_2, Hj.
Qed.

(** A closing tag cannot start inside an opening tag and end beyond the
    start of a later opening tag that the first one swallows. *)
Lemma no_close_across (X a b w tail u v : jsstring) :
  X = OPEN_WRITE ++ a ++ GT :: b -> forallb (non GT) a = true ->
  X = w ++ tail -> tail !! 0 = Some 60%N -> length w < length a + 12 ->
  X = u ++ CLOSE_WRITE ++ v -> length w <= length u.
Proof.
  intros EX Ha Ew Ht He Eu.
  destruct (Nat.le_gt_cases (length w) (length u)) as [|Hlt]; [assumption|exfalso].
  assert (X !! length w = Some 60%N) as L1.
  { rewrite Ew, lookup_app_r, Nat.sub_diag by lia. exact Ht. }
  assert (forall j, j < 13 -> X !! (length u + j) = CLOSE_WRITE !! j) as L2.
  { intros j Hj. rewrite Eu, lookup_app_r by lia.
    replace (length u + j - length u) with j by lia.
    apply lookup_app_l. simpl. exact Hj. }
  assert (forall j, j < 11 + length a -> X !! j <> Some GT) as L3.
  { intros j Hj Hx. rewrite EX, app_assoc, lookup_app_l in Hx
      by (rewrite length_app; simpl; lia).
    assert (forallb (non GT) (OPEN_WRITE ++ a) = true) as Hall
      by (rewrite forallb_app, Ha; reflexivity).
    pose proof (forallb_lookup _ _ _ _ Hall Hx) as Hn. discriminate Hn. }
  assert (X !! (11 + length a) = Some GT) as L4.
  { rewrite EX, app_assoc, lookup_app_r by (rewrite length_app; simpl; lia).
    rewrite length_app. simpl length.
    replace (11 + length a - (11 + length a)) with 0 by lia. reflexivity. }
  assert (11 + length a <= length u + 12) as H1.
  { destruct (Nat.le_gt_cases (11 + length a) (length u + 12)) as [|H]; [assumption|].
    destruct (L3 _ H). rewrite L2 by lia. reflexivity. }
  assert (length w <> 11 + length a) as H2.
  { intros E. rewrite E in L1. rewrite L1 in L4. discriminate L4. }
  remember (length w - length u) as j eqn:Ej.
  assert (X !! length w = CLOSE_WRITE !! j) as L5.
  { rewrite <- L2 by lia. f_equal. lia. }
  rewrite L1 in L5.
  assert (1 <= j <= 11) as Hj by lia.
  do 12 (destruct j as [|j]; [first [lia | discriminate L5]|]). lia.
Qed.

(** C1, amended: [hasUnclosedDyadWrite] returns [true] exactly for the
    texts that contain an opening tag of a write directive that no closing
    tag follows: no closing tag starts at or after the start of that opening
    tag. Which opening tag is examined is the last one the scan finds, so an
    earlier opening tag left without a partner does not count once a later
    one is closed. *)
Theorem hasUnclosedDyadWrite_iff (text : jsstring) :
  hasUnclosedDyadWrite text = true <->
  exists pre attrs post,
    text = pre ++ OPEN_WRITE ++ attrs ++ GT :: post /\
    includes (OPEN_WRITE ++ attrs ++ GT :: post) CLOSE_WRITE = false.
Proof.
  rewrite hasUnclosedDyadWrite_last. unfold matchAll. split.
  - destruct (last (scan openRegex None text 0 0)) as [m|] eqn:El; [|discriminate].
    intros Hc. apply negb_true_iff in Hc.
    apply last_Some_elem_of in El.
    apply (scan_sound _ openRegex_blind) in El as (_ & _ & Ha).
    rewrite Nat.sub_0_r in Ha.
    apply tag_anchored in Ha as (a & b & E & _ & _ & _).
    exists (take (index m) text), a, b. change (lit "<dyad-write") with OPEN_WRITE in E. rewrite <- E.
    split; [symmetry; apply take_drop | exact Hc].
  - intros (pre & attrs & post & -> & Hno).
    set (tail := OPEN_WRITE ++ attrs ++ GT :: post) in *.
    set (text := pre ++ tail).
    assert (matches_here openRegex (drop (length pre) text) = true) as Hm.
    { unfold text. rewrite drop_app_length. apply tag_here. exists attrs, post. reflexivity. }
    destruct (scan_complete _ openRegex_blind None text 0 0 (length pre))
      as (m0 & Hin & Hlo & Hhi); [lia | unfold text; rewrite length_app; lia | exact Hm |].
    destruct (last (scan openRegex None text 0 0)) as [mL|] eqn:El.
    2:{ apply last_None in El. rewrite El in Hin. inversion Hin. }
    apply negb_true_iff.
    destruct (chain_last 0 _ mL m0 (scan_chain openRegex None text 0 0) El Hin)
      as [->|Hafter].
    + apply (scan_sound _ openRegex_blind) in Hin as (_ & _ & Ha).
      rewrite Nat.sub_0_r in Ha.
      apply tag_anchored in Ha as (a & b & EX & Hna & Hmatched & _).
      change (lit "<dyad-write") with OPEN_WRITE in EX, Hmatched.
      assert (length (matched mL) = length a + 12) as Hlen
        by (rewrite Hmatched, !length_app; simpl; lia).
      apply includes_false. intros u v Eu.
      assert (drop (index mL) text = drop (index mL) pre ++ tail) as Ew
        by (unfold text; apply drop_app_le; lia).
      assert (length (drop (index mL) pre) <= length u) as Hle.
      { eapply (no_close_across _ a b _ tail u v); eauto.
        rewrite length_drop. lia. }
      apply (proj1 (includes_false tail CLOSE_WRITE) Hno
               (drop (length (drop (index mL) pre)) u) v).
      rewrite Eu in Ew.
      apply (f_equal (drop (length (drop (index mL) pre)))) in Ew.
      rewrite drop_app_le in Ew by exact Hle. rewrite drop_app_length in Ew.
      symmetry. exact Ew.
    + unfold text. rewrite drop_app_ge by lia. apply includes_drop_false, Hno.
Qed.

(** C1 as stated fails: in [open_then_closed] the first opening tag has no
    closing tag of its own, the second one is closed, and
    [hasUnclosedDyadWrite] returns [false]. *)
Lemma hasUnclosedDyadWrite_misses_earlier_open :
  has_unmatched_open open_then_closed /\
  length (matchAll openRegex open_then_closed) = 2 /\
  length (matchAll closeRegex open_then_closed) = 1 /\
  hasUnclosedDyadWrite open_then_closed = false.
Proof.
  unfold has_unmatched_open.
  assert (length (matchAll openRegex open_then_closed) = 2) as -> by (vm_compute; reflexivity).
  assert (length (matchAll closeRegex open_then_closed) = 1) as -> by (vm_compute; reflexivity).
  split; [lia|]. split; [reflexivity|]. split; [reflexivity|].
  vm_compute. reflexivity.
Qed.

(** *** Replacing a literal *)

Lemma replacing_blind (r : regex) (rep : jsstring) (prev prev' : option N)
  (s : jsstring) :
  blind r -> replacing r rep prev s 0 = replacing r rep prev' s 0.
Proof.
  intros Hr. destruct s as [|c s]; simpl;
    rewrite (anchored_blind r prev _ 0 Hr), (anchored_blind r prev' _ 0 Hr); reflexivity.
Qed.

Lemma replacing_skip (r : regex) (rep : jsstring) (prev : option N)
  (s : jsstring) (k : nat) :
  blind r -> k <= length s ->
  replacing r rep prev s k = replacing r rep None (drop k s) 0.
Proof.
  intros Hr. revert prev s. induction k as [|k IH]; intros prev s Hk.
  - rewrite drop_0. apply replacing_blind, Hr.
  - destruct s as [|c s]; simpl in *; [lia|]. apply IH. lia.
Qed.

Section ReplaceLit.

(** The pattern is [x :: q], and [x] occurs neither in [q] nor in the
    replacement [z :: rep]. *)
Variables (x z : N) (q rep : jsstring).
Hypothesis Hq : forallb (non x) q = true.
Hypothesis Hz : (z =? x)%N = false.
Hypothesis Hrep : forallb (non x) rep = true.

Let p := x :: q.
Let R := replaceLit p (z :: rep).

Lemma lit_blind : blind [Lit p].
Proof. apply no_lookbehind_blind. reflexivity. Qed.

Lemma replaceLit_nil : R [] = [].
Proof. reflexivity. Qed.

Lemma replaceLit_match (s rest : jsstring) :
  strip p s = Some rest -> R s = z :: rep ++ R rest.
Proof.
  intros E. pose proof (strip_Some _ _ _ E) as ->.
  unfold R, replaceLit.
  transitivity ((z :: rep) ++ replacing [Lit p] (z :: rep) (Some x) (q ++ rest) (length q)).
  - change (p ++ rest) with (x :: q ++ rest). cbn [replacing].
    unfold anchored. rewrite run_lit_last.
    change (x :: q ++ rest) with (p ++ rest). rewrite strip_app. simpl fmap. cbn [matched].
    replace (length (p ++ rest) - length rest) with (length p)
      by (rewrite length_app; lia).
    rewrite take_app_length. reflexivity.
  - rewrite (replacing_skip [Lit p] (z :: rep) (Some x) (q ++ rest) (length q) lit_blind)
      by (rewrite length_app; lia).
    rewrite drop_app_length. reflexivity.
Qed.

Lemma replaceLit_nomatch (c : N) (t : jsstring) :
  strip p (c :: t) = None -> R (c :: t) = c :: R t.
Proof.
  intros E. unfold R, replaceLit. cbn [replacing].
  unfold anchored. rewrite run_lit_last, E. simpl fmap. cbv iota.
  f_equal. apply replacing_blind, lit_blind.
Qed.

(** A string in which [x] does not occur comes first: the pattern can only
    be found after it. *)
Lemma includes_after (a Y t : jsstring) :
  forallb (non x) a = true -> includes (a ++ Y) (x :: t) = includes Y (x :: t).
Proof.
  intros Ha. induction a as [|c a IH]; [reflexivity|].
  simpl in Ha. apply andb_true_iff in Ha as [Hc Ha].
  simpl app. cbn [includes]. rewrite (IH Ha).
  unfold startsWith. simpl strip. unfold non in Hc.
  rewrite N.eqb_sym. destruct (c =? x)%N; [discriminate Hc | reflexivity].
Qed.

(** What the result starts with, the text started with, as long as neither
    [x] nor [z] is part of it. *)
Lemma replaceLit_prefix (t s : jsstring) :
  forallb (non x) t = true -> forallb (non z) t = true ->
  startsWith (R s) t = true -> startsWith s t = true.
Proof.
  revert s. induction t as [|y t IH]; intros s Hx Hz' H; [reflexivity|].
  simpl in Hx, Hz'. apply andb_true_iff in Hx as [Hyx Hx].
  apply andb_true_iff in Hz' as [Hyz Hz'].
  destruct s as [|c s]; [rewrite replaceLit_nil in H; discriminate H|].
  destruct (strip p (c :: s)) as [rest|] eqn:E.
  - rewrite (replaceLit_match _ _ E) in H. unfold startsWith in H. simpl in H.
    unfold non in Hyz. destruct (y =? z)%N; discriminate.
  - rewrite (replaceLit_nomatch _ _ E) in H. unfold startsWith in *. simpl in *.
    destruct (y =? c)%N; [|discriminate H].
    apply (IH s Hx Hz'). exact H.
Qed.

(** A pattern [x :: t] that the text does not contain is not in the result
    either. *)
Lemma replaceLit_keeps_absent (t s : jsstring) :
  forallb (non x) t = true -> forallb (non z) t = true ->
  includes s (x :: t) = false -> includes (R s) (x :: t) = false.
Proof.
  intros Hx Hz'. remember (length s) as n eqn:En. revert s En.
  induction n as [n IH] using lt_wf_ind. intros s -> Hs.
  destruct s as [|c s]; [exact Hs|].
  destruct (strip p (c :: s)) as [rest|] eqn:E.
  - rewrite (replaceLit_match _ _ E).
    change (z :: rep ++ R rest) with ((z :: rep) ++ R rest).
    rewrite includes_after by (simpl; unfold non at 1; rewrite Hz, Hrep; reflexivity).
    pose proof (strip_Some _ _ _ E) as Es.
    apply (IH (length rest)); [| reflexivity |].
    + rewrite Es, length_app. unfold p. simpl. lia.
    + rewrite Es in Hs.
      rewrite <- (drop_app_length p rest). apply includes_drop_false, Hs.
  - rewrite (replaceLit_nomatch _ _ E). cbn [includes] in *.
    apply orb_false_iff in Hs as [Hs1 Hs2]. apply orb_false_iff. split.
    + unfold startsWith in *. simpl strip in *.
      destruct (x =? c)%N; [|reflexivity].
      destruct (strip t (R s)) eqn:Et; [|reflexivity].
      assert (startsWith s t = true) as Hst.
      { apply replaceLit_prefix; [exact Hx | exact Hz' |].
        unfold startsWith. rewrite Et. reflexivity. }
      unfold startsWith in Hst. destruct (strip t s); discriminate.
    + apply (IH (length s)); [simpl; lia | reflexivity | exact Hs2].
Qed.

(** No occurrence of the pattern is left. *)
Lemma replaceLit_removes (s : jsstring) :
  forallb (non z) q = true -> includes (R s) p = false.
Proof.
  intros Hzq. remember (length s) as n eqn:En. revert s En.
  induction n as [n IH] using lt_wf_ind. intros s ->.
  destruct s as [|c s]; [reflexivity|].
  destruct (strip p (c :: s)) as [rest|] eqn:E.
  - rewrite (replaceLit_match _ _ E).
    change (z :: rep ++ R rest) with ((z :: rep) ++ R rest). unfold p.
    rewrite includes_after by (simpl; unfold non at 1; rewrite Hz, Hrep; reflexivity).
    apply (IH (length rest)); [| reflexivity].
    apply strip_Some in E. rewrite E, length_app. unfold p. simpl. lia.
  - rewrite (replaceLit_nomatch _ _ E). cbn [includes].
    apply orb_false_iff. split.
    + unfold p, startsWith in *. simpl strip in *.
      destruct (x =? c)%N; [|reflexivity].
      destruct (strip q (R s)) eqn:Et; [|reflexivity].
      assert (startsWith s q = true) as Hst.
      { apply replaceLit_prefix; [exact Hq | exact Hzq |].
        unfold startsWith. rewrite Et. reflexivity. }
      unfold startsWith in Hst. rewrite E in Hst. discriminate.
    + apply (IH (length s)); [simpl; lia | reflexivity].
Qed.

(** A text without the pattern is left as it is. *)
Lemma replaceLit_id (s : jsstring) : includes s p = false -> R s = s.
Proof.
  induction s as [|c s IH]; intros H; [reflexivity|].
  cbn [includes] in H. apply orb_false_iff in H as [H1 H2].
  rewrite replaceLit_nomatch.
  - f_equal. apply IH, H2.
  - unfold startsWith in H1. destruct (strip p (c :: s)); [discriminate | reflexivity].
Qed.

End ReplaceLit.

(** ** C10: [escapeDyadTags] *)

Lemma escapeDyadTags_unfold (text : value) :
  exists safeText,
    escapeDyadTags text =
    replaceLit (lit "</dyad") (FULLWIDTH_LT :: lit "/dyad")
      (replaceLit (lit "<dyad") (FULLWIDTH_LT :: lit "dyad") safeText).
Proof.
  unfold escapeDyadTags, replaceAll, replaceLit.
  destruct text as [s| | |[json|] str|str]; eauto.
Qed.

Lemma escapeDyadTags_no_open (text : value) :
  includes (escapeDyadTags text) (lit "<dyad") = false.
Proof.
  destruct (escapeDyadTags_unfold text) as [s ->].
  apply (replaceLit_keeps_absent 60%N FULLWIDTH_LT (lit "/dyad") (lit "/dyad")
           eq_refl eq_refl (lit "dyad")); [reflexivity | reflexivity |].
  apply (replaceLit_removes 60%N FULLWIDTH_LT (lit "dyad") (lit "dyad")
           eq_refl eq_refl eq_refl). reflexivity.
Qed.

Lemma escapeDyadTags_no_close (text : value) :
  includes (escapeDyadTags text) (lit "</dyad") = false.
Proof.
  destruct (escapeDyadTags_unfold text) as [s ->].
  apply (replaceLit_removes 60%N FULLWIDTH_LT (lit "/dyad") (lit "/dyad")
           eq_refl eq_refl eq_refl). reflexivity.
Qed.


(** No tag of a directive is found in a text without [<dyad]. *)
Lemma no_tag_without_prefix (name : string) (s : jsstring) :
  includes s (lit "<dyad") = false -> test (ResponseValidator.tagRegex name) s = false.
Proof.
  intros H. apply test_false; [apply no_lookbehind_blind; reflexivity|].
  intros pre post -> .
  destruct (matches_here (ResponseValidator.tagRegex name) post) eqn:E; [|reflexivity].
  apply tag_here in E as (attrs & rest & ->).
  destruct (proj1 (includes_false _ _) H pre ((45%N :: lit name) ++ attrs ++ GT :: rest)).
  rewrite <- !app_assoc. reflexivity.
Qed.


(** ** C8: a write directive in ask mode *)

(** C8: when the response contains the opening tag of a write directive,
    the mode check run in ask mode, whatever the workflow step, returns the
    critical mode violation of ask mode (the kind
    mode-incompatible-directive), as the last violation of its list. *)
Theorem ask_mode_flags_write (response pre attrs post : jsstring)
  (step : option WorkflowManager.WorkflowStep) :
  response = pre ++ OPEN_WRITE ++ attrs ++ GT :: post ->
  exists before v,
    ResponseValidator.validateModeCompliance response
      {| ResponseValidator.mode := ResponseValidator.ask;
         ResponseValidator.workflowStep := step |} = before ++ [v] /\
    ResponseValidator.type v = ResponseValidator.mode_violation /\
    kind_of_type (ResponseValidator.type v) = "mode-incompatible-directive" /\
    ResponseValidator.severity v = ResponseValidator.critical /\
    ResponseValidator.context v = lit "Found dyad tags in ask mode".
Proof.
  intros ->. unfold ResponseValidator.validateModeCompliance.
  assert (test (ResponseValidator.tagRegex "write")
            (pre ++ OPEN_WRITE ++ attrs ++ GT :: post) = true) as ->.
  { apply test_true; [apply no_lookbehind_blind; reflexivity|].
    exists pre, (OPEN_WRITE ++ attrs ++ GT :: post). split; [reflexivity|].
    apply tag_here. exists attrs, post. reflexivity. }
  cbn [orb ResponseValidator.mode ResponseValidator.workflowStep].
  rewrite !app_assoc. eexists _, _. split; [reflexivity|].
  repeat split.
Qed.

Lemma ask_mode_flags_write_witness :
  exists before v,
    ResponseValidator.validateModeCompliance
      (lit "Sure: " ++ OPEN_WRITE ++ (lit " path=" ++ Q ++ lit "a.ts" ++ Q)
         ++ GT :: lit "x</dyad-write>")
      {| ResponseValidator.mode := ResponseValidator.ask;
         ResponseValidator.workflowStep := None |} = before ++ [v] /\
    ResponseValidator.type v = ResponseValidator.mode_violation /\
    kind_of_type (ResponseValidator.type v) = "mode-incompatible-directive" /\
    ResponseValidator.severity v = ResponseValidator.critical /\
    ResponseValidator.context v = lit "Found dyad tags in ask mode".
Proof.
  apply (ask_mode_flags_write _ (lit "Sure: ") (lit " path=" ++ Q ++ lit "a.ts" ++ Q)
           (lit "x</dyad-write>") None).
  reflexivity.
Defined.

(** ** C3 and C4: the workflow manager *)

Section Workflow.

Import WorkflowManager.

Lemma update_lookup (f : chat -> chat) (chatId : Z) (d : gmap Z chat) (c : chat) :
  d !! chatId = Some c -> update f chatId d !! chatId = Some (f c).
Proof. intros H. unfold update. rewrite lookup_alter_eq, H. reflexivity. Qed.

Lemma startWorkflow_spec (chatId : Z) (d : gmap Z chat) (c : chat) :
  d !! chatId = Some c ->
  fst (startWorkflow chatId d) = "planning" /\
  snd (startWorkflow chatId d) !! chatId = Some (active_row "planning").
Proof.
  intros H. split; [reflexivity|]. apply (update_lookup _ _ _ _ H).
Qed.

(** What [advanceStep] does at each step of an active workflow. *)
Lemma advanceStep_next (chatId : Z) (d : gmap Z chat) (step next : string) :
  d !! chatId = Some (active_row step) ->
  (step, next) ∈ [("planning", "docs"); ("docs", "frontend");
                  ("frontend", "backend"); ("backend", "testing")] ->
  fst (advanceStep chatId d) = Some next /\
  snd (advanceStep chatId d) !! chatId = Some (active_row next).
Proof.
  intros H Hs. unfold advanceStep, getChatState. rewrite H.
  rewrite !elem_of_cons, elem_of_nil in Hs.
  destruct Hs as [E|[E|[E|[E|[]]]]]; injection E as -> ->; simpl;
    (split; [reflexivity | rewrite (update_lookup _ _ _ _ H); reflexivity]).
Qed.

Lemma advanceStep_last (chatId : Z) (d : gmap Z chat) :
  d !! chatId = Some (active_row "testing") ->
  fst (advanceStep chatId d) = None /\
  snd (advanceStep chatId d) !! chatId = Some idle_row.
Proof.
  intros H. unfold advanceStep, getChatState. rewrite H. simpl.
  split; [reflexivity | rewrite (update_lookup _ _ _ _ H); reflexivity].
Qed.

End Workflow.

(** C3: on a chat whose workflow is idle, [startWorkflow] makes the
    workflow active at the step planning, and five calls of [advanceStep]
    return docs, frontend, backend, testing and null, in this order; after
    the fifth the status is idle and the step is null. *)
Theorem workflow_scenario (chatId : Z) (d : gmap Z WorkflowManager.chat) :
  d !! chatId = Some idle_row ->
  let (s0, d0) := WorkflowManager.startWorkflow chatId d in
  let (r1, d1) := WorkflowManager.advanceStep chatId d0 in
  let (r2, d2) := WorkflowManager.advanceStep chatId d1 in
  let (r3, d3) := WorkflowManager.advanceStep chatId d2 in
  let (r4, d4) := WorkflowManager.advanceStep chatId d3 in
  let (r5, d5) := WorkflowManager.advanceStep chatId d4 in
  s0 = "planning" /\ d0 !! chatId = Some (active_row "planning") /\
  [r1; r2; r3; r4; r5] = [Some "docs"; Some "frontend"; Some "backend"; Some "testing"; None] /\
  d5 !! chatId = Some idle_row.
Proof.
  intros H.
  destruct (startWorkflow_spec chatId d _ H) as [E0 H0].
  destruct (WorkflowManager.startWorkflow chatId d) as [s0 d0]. simpl in E0, H0.
  destruct (advanceStep_next chatId d0 _ "docs" H0) as [E1 H1];
    [repeat constructor|].
  destruct (WorkflowManager.advanceStep chatId d0) as [r1 d1]. simpl in E1, H1.
  destruct (advanceStep_next chatId d1 _ "frontend" H1) as [E2 H2];
    [repeat constructor|].
  destruct (WorkflowManager.advanceStep chatId d1) as [r2 d2]. simpl in E2, H2.
  destruct (advanceStep_next chatId d2 _ "backend" H2) as [E3 H3];
    [repeat constructor|].
  destruct (WorkflowManager.advanceStep chatId d2) as [r3 d3]. simpl in E3, H3.
  destruct (advanceStep_next chatId d3 _ "testing" H3) as [E4 H4];
    [repeat constructor|].
  destruct (WorkflowManager.advanceStep chatId d3) as [r4 d4]. simpl in E4, H4.
  destruct (advanceStep_last chatId d4 H4) as [E5 H5].
  destruct (WorkflowManager.advanceStep chatId d4) as [r5 d5]. simpl in E5, H5.
  subst. repeat split; assumption.
Qed.

Lemma workflow_scenario_witness :
  let (s0, d0) := WorkflowManager.startWorkflow 7 {[ 7%Z := idle_row ]} in
  let (r1, d1) := WorkflowManager.advanceStep 7 d0 in
  let (r2, d2) := WorkflowManager.advanceStep 7 d1 in
  let (r3, d3) := WorkflowManager.advanceStep 7 d2 in
  let (r4, d4) := WorkflowManager.advanceStep 7 d3 in
  let (r5, d5) := WorkflowManager.advanceStep 7 d4 in
  s0 = "planning" /\ d0 !! 7%Z = Some (active_row "planning") /\
  [r1; r2; r3; r4; r5] = [Some "docs"; Some "frontend"; Some "backend"; Some "testing"; None] /\
  d5 !! 7%Z = Some idle_row.
Proof.
  apply (workflow_scenario 7 {[ 7%Z := idle_row ]}).
  apply lookup_singleton_eq.
Defined.

Section WorkflowInvariant.

Import WorkflowManager.

Lemma update_ok (f : chat -> chat) (chatId : Z) (d : gmap Z chat) :
  db_ok d ->
  (forall c, d !! chatId = Some c -> row_ok c -> row_ok (f c)) ->
  db_ok (update f chatId d).
Proof.
  intros Hd Hf j y H. unfold update in H.
  apply lookup_alter_Some in H as [(-> & c & Hc & ->)|[_ H]].
  - apply Hf; [exact Hc | apply (Hd _ _ Hc)].
  - apply (Hd _ _ H).
Qed.

Lemma row_ok_idle : row_ok idle_row.
Proof.
  split.
  - split; intros H; [destruct H; reflexivity | discriminate H].
  - intros s H. discriminate H.
Qed.

Lemma row_ok_active (s : string) : s ∈ WORKFLOW_STEPS -> row_ok (active_row s).
Proof.
  intros Hs. split.
  - split; intros H; [reflexivity | discriminate].
  - intros s' [= <-]. exact Hs.
Qed.

Lemma step_name_in (step : WorkflowStep) : step_name step ∈ WORKFLOW_STEPS.
Proof.
  unfold WORKFLOW_STEPS. rewrite !elem_of_cons.
  destruct step; simpl; auto 6.
Qed.

Lemma indexOf_range (l : list string) (x : string) :
  indexOf l x = (-1)%Z \/ (0 <= indexOf l x < Z.of_nat (length l))%Z.
Proof.
  induction l as [|y l IH]; [left; reflexivity|].
  cbn [indexOf length]. destruct (String.eqb y x); [right; lia|].
  destruct (Z.eqb_spec (indexOf l x) (-1)); [left; reflexivity | right; lia].
Qed.

Lemma advanceStep_ok (chatId : Z) (d : gmap Z chat) :
  db_ok d -> db_ok (snd (advanceStep chatId d)).
Proof.
  intros Hd. unfold advanceStep, getChatState.
  destruct (d !! chatId) as [c|] eqn:Hc; [|exact Hd].
  destruct (status_is_active c) eqn:Ha; [|exact Hd]. cbn [negb].
  set (i := match workflowStep c with
            | Some step => indexOf WORKFLOW_STEPS step
            | None => (-1)%Z
            end).
  assert (i = (-1)%Z \/ (0 <= i < 5)%Z) as Hi.
  { unfold i. destruct (workflowStep c); [apply indexOf_range | left; reflexivity]. }
  destruct (Z.eqb_spec i (-1)) as [|Hn1].
  - apply update_ok; [exact Hd|]. intros _ _ _.
    apply (row_ok_active "planning"), (step_name_in planning).
  - destruct (Z.eqb_spec i (Z.of_nat (length WORKFLOW_STEPS) - 1)) as [|Hn4].
    + apply update_ok; [exact Hd|]. intros _ _ _. apply row_ok_idle.
    + cbn [snd]. apply update_ok; [exact Hd|]. intros c' Hc' _.
      assert (c' = c) as -> by congruence.
      simpl length in Hn4.
      destruct (lookup_lt_is_Some_2 WORKFLOW_STEPS (Z.to_nat (i + 1))) as [s Hs];
        [simpl; lia|].
      rewrite Hs.
      replace (workflowStatus c) with (Some "active").
      * apply row_ok_active. eapply list_elem_of_lookup_2, Hs.
      * unfold status_is_active in Ha. destruct (workflowStatus c) as [st|]; [|discriminate].
        apply String.eqb_eq in Ha. rewrite Ha. reflexivity.
Qed.

End WorkflowInvariant.

(** C4: each operation of the workflow manager keeps the invariant of the
    table: in every row the step is set exactly when the status is active,
    and a step that is set is one of planning, docs, frontend, backend and
    testing. *)
Theorem workflow_operations_keep_invariant (chatId : Z)
  (step : WorkflowManager.WorkflowStep) (d : gmap Z WorkflowManager.chat) :
  db_ok d ->
  db_ok (snd (WorkflowManager.startWorkflow chatId d)) /\
  db_ok (snd (WorkflowManager.advanceStep chatId d)) /\
  db_ok (snd (WorkflowManager.forceStep chatId step d)) /\
  db_ok (WorkflowManager.stopWorkflow chatId d).
Proof.
  intros Hd. split; [|split; [|split]].
  - apply update_ok; [exact Hd|]. intros _ _ _.
    apply (row_ok_active "planning"), (step_name_in WorkflowManager.planning).
  - apply advanceStep_ok, Hd.
  - apply update_ok; [exact Hd|]. intros _ _ _. apply row_ok_active, step_name_in.
  - apply update_ok; [exact Hd|]. intros _ _ _. apply row_ok_idle.
Qed.

Lemma db_ok_singleton (chatId : Z) (c : WorkflowManager.chat) :
  row_ok c -> db_ok {[ chatId := c ]}.
Proof.
  intros Hc j y H. apply lookup_singleton_Some in H as [_ <-]. exact Hc.
Qed.

Lemma workflow_operations_keep_invariant_witness :
  db_ok (snd (WorkflowManager.startWorkflow 7 {[ 7%Z := active_row "backend" ]})) /\
  db_ok (snd (WorkflowManager.advanceStep 7 {[ 7%Z := active_row "backend" ]})) /\
  db_ok (snd (WorkflowManager.forceStep 7 WorkflowManager.docs
                {[ 7%Z := active_row "backend" ]})) /\
  db_ok (WorkflowManager.stopWorkflow 7 {[ 7%Z := active_row "backend" ]}).
Proof.
  apply (workflow_operations_keep_invariant 7 WorkflowManager.docs).
  apply db_ok_singleton, row_ok_active.
  unfold WorkflowManager.WORKFLOW_STEPS. rewrite !elem_of_cons. auto 6.
Defined.

(** ** C6: the end-to-end scenario of a fenced block *)

Lemma FastMonitor_new_has (mode : string) (step : option string) (kind : string) :
  FastMonitor.has (FastMonitor.new mode step) kind = false.
Proof.
  unfold FastMonitor.has, FastMonitor.new. cbn [FastMonitor.detectedViolations].
  apply bool_decide_eq_false. apply not_elem_of_empty.
Qed.

Lemma validateModeCompliance_no_tag (response : jsstring)
  (context : ResponseValidator.ValidationContext) :
  includes response (lit "<dyad") = false ->
  ResponseValidator.validateModeCompliance response context = [].
Proof.
  intros H. unfold ResponseValidator.validateModeCompliance.
  rewrite !(no_tag_without_prefix _ _ H).
  destruct context as [[] [[]|]]; reflexivity.
Qed.

(** C6: on [fix_text] the validator returns one violation, critical and of
    the type code_block (the kind prohibited-markup-block), whatever the
    mode and the step; and the first [checkChunk] of a new fast monitor on
    this text returns a violation of the type markdown_code_block (the same
    kind) with its cached correction, and asks to abort. *)
Theorem fenced_block_scenario :
  ResponseValidator.detectMarkdownCodeBlocks fix_text = [fix_violation] /\
  (forall context,
     ResponseValidator.validateResponse fix_text context =
     {| ResponseValidator.isValid := false;
        ResponseValidator.violations := [fix_violation];
        ResponseValidator.warnings := [] |}) /\
  kind_of_type (ResponseValidator.type fix_violation) = "prohibited-markup-block" /\
  (forall mode step,
     fst (FastMonitor.checkChunk (FastMonitor.new mode step) fix_text) =
     {| FastMonitor.hasViolation := true;
        FastMonitor.violationType := Some "markdown_code_block";
        FastMonitor.correction := FastMonitor.CACHED_CORRECTIONS "markdown_code_block";
        FastMonitor.shouldAbort := Some true |}) /\
  kind_of_monitor_type "markdown_code_block" = Some "prohibited-markup-block".
Proof.
  assert (ResponseValidator.detectMarkdownCodeBlocks fix_text = [fix_violation]) as H1
    by (vm_compute; reflexivity).
  split; [exact H1|]. split; [|split; [reflexivity|split; [|reflexivity]]].
  - intros context. unfold ResponseValidator.validateResponse.
    rewrite H1, validateModeCompliance_no_tag by (vm_compute; reflexivity).
    assert (ResponseValidator.detectCodexCliTools fix_text = []) as ->
      by (vm_compute; reflexivity).
    assert (ResponseValidator.validateDyadTagStructure fix_text = []) as ->
      by (vm_compute; reflexivity).
    assert (ResponseValidator.detectProhibitedInstructions fix_text = []) as ->
      by (vm_compute; reflexivity).
    reflexivity.
  - intros mode step. unfold FastMonitor.checkChunk.
    assert (FastMonitor.detectMarkdownCodeBlock fix_text = true) as ->
      by (vm_compute; reflexivity).
    rewrite FastMonitor_new_has. reflexivity.
Qed.

(** ** C9: the corrective agent *)

Lemma split_first_Some (p s pre post : jsstring) :
  split_first p s = Some (pre, post) -> first_split p s pre post.
Proof.
  revert pre. induction s as [|c s IH]; intros pre; simpl.
  - destruct (strip p []) as [r|] eqn:E; [|discriminate].
    intros [= <- <-]. apply strip_Some in E. split; [exact E | intros; simpl; lia].
  - destruct (strip p (c :: s)) as [r|] eqn:E.
    + intros [= <- <-]. apply strip_Some in E. split; [exact E | intros; simpl; lia].
    + destruct (split_first p s) as [[pre0 post0]|]; [|discriminate].
      intros [= <- <-]. destruct (IH pre0 eq_refl) as [E0 Hmin]. split.
      * rewrite E0. reflexivity.
      * intros [|c' pre'] post' E'.
        -- simpl in E'. rewrite E' in E. rewrite strip_app in E. discriminate E.
        -- injection E' as _ E'. specialize (Hmin _ _ E'). simpl. lia.
Qed.

Lemma split_first_None (p s : jsstring) :
  split_first p s = None -> includes s p = false.
Proof.
  induction s as [|c s IH]; simpl; unfold startsWith.
  - destruct (strip p []); [discriminate | reflexivity].
  - destruct (strip p (c :: s)); [discriminate|].
    destruct (split_first p s) as [[pre post]|]; [discriminate|].
    intros _. apply IH. reflexivity.
Qed.

Lemma first_split_unique (p s pre post pre' post' : jsstring) :
  first_split p s pre post -> first_split p s pre' post' ->
  pre = pre' /\ post = post'.
Proof.
  intros [E1 H1] [E2 H2].
  pose proof (H1 _ _ E2). pose proof (H2 _ _ E1).
  assert (length pre = length pre') as Hl by lia.
  rewrite E1 in E2. apply app_inj_1 in E2 as [-> E2]; [|exact Hl].
  apply app_inv_head in E2. auto.
Qed.

Lemma split_first_iff (p s pre post : jsstring) :
  split_first p s = Some (pre, post) <-> first_split p s pre post.
Proof.
  split; [apply split_first_Some|]. intros H.
  destruct (split_first p s) as [[pre' post']|] eqn:E.
  - apply split_first_Some in E.
    destruct (first_split_unique _ _ _ _ _ _ H E) as [-> ->]. reflexivity.
  - apply split_first_None in E. destruct H as [H _].
    pose proof (proj1 (includes_false _ _) E pre post H) as [].
Qed.

Lemma run_group_close (p u : jsstring) (prev : option N) (v : jsstring) :
  run [GroupClose; Lit p] u None prev v =
  (fun r => (r, Some (take (length u - length v) u))) <$> strip p v.
Proof.
  cbn [run]. rewrite <- (literal_id_strip p prev v).
  destruct (literal id p prev v) as [[pv r]|]; reflexivity.
Qed.

(** [[\s\S]*?] before the closing delimiter stops at its first
    occurrence; [a] is what the group holds already. *)
Lemma reluctant_until (p u a v : jsstring) (prev : option N) :
  u = a ++ v ->
  reluctant any (run [GroupClose; Lit p] u None) prev v =
  match split_first p v with
  | Some (g, post) => Some (post, Some (a ++ g))
  | None => None
  end.
Proof.
  pose proof (run_group_close p u) as Hk.
  set (k := run [GroupClose; Lit p] u None) in *.
  revert a prev. induction v as [|c v IH]; intros a prev Eu.
  - assert (take (length u - length (@nil N)) u = a) as Ht
      by (rewrite Eu, length_app, Nat.add_sub; apply take_app_length).
    cbn [reluctant split_first]. rewrite Hk, Ht.
    destruct (strip p []) as [r|]; simpl; [|reflexivity].
    rewrite app_nil_r. reflexivity.
  - assert (take (length u - length (c :: v)) u = a) as Ht
      by (rewrite Eu, length_app, Nat.add_sub; apply take_app_length).
    cbn [reluctant split_first]. rewrite Hk, Ht.
    destruct (strip p (c :: v)) as [r|]; simpl fmap; cbv iota.
    + rewrite app_nil_r. reflexivity.
    + unfold any at 1. cbv iota.
      rewrite (IH (a ++ [c]) (Some c)) by (rewrite <- app_assoc; exact Eu).
      destruct (split_first p v) as [[g post]|]; [|reflexivity].
      rewrite <- app_assoc. reflexivity.
Qed.

Lemma anchored_instruction (prev : option N) (s : jsstring) (i : nat) :
  group1 <$> anchored CorrectiveAgent.instructionRegex prev s i =
  match strip OPEN_INSTRUCTION s with
  | Some u =>
      match split_first CLOSE_INSTRUCTION u with
      | Some (g, _) => Some (Some g)
      | None => None
      end
  | None => None
  end.
Proof.
  unfold anchored, CorrectiveAgent.instructionRegex. rewrite run_lit_cons.
  fold OPEN_INSTRUCTION CLOSE_INSTRUCTION.
  rewrite <- (literal_id_strip OPEN_INSTRUCTION prev s).
  destruct (literal id OPEN_INSTRUCTION prev s) as [[pv u]|];
    cbn [fmap option_fmap option_map snd]; cbv iota beta; [|reflexivity].
  change (run (GroupOpen :: Lazy any :: [GroupClose; Lit CLOSE_INSTRUCTION]) [] None pv u)
    with (reluctant any (run [GroupClose; Lit CLOSE_INSTRUCTION] u None) pv u).
  rewrite (reluctant_until CLOSE_INSTRUCTION u [] u pv eq_refl).
  destruct (split_first CLOSE_INSTRUCTION u) as [[g post]|]; reflexivity.
Qed.

(** The group of the leftmost match is the text between the first opening
    delimiter and the first closing delimiter after it. *)
Lemma search_instruction (prev : option N) (s : jsstring) (i : nat) :
  group1 <$> search CorrectiveAgent.instructionRegex prev s i =
  match split_first OPEN_INSTRUCTION s with
  | Some (_, u) =>
      match split_first CLOSE_INSTRUCTION u with
      | Some (g, _) => Some (Some g)
      | None => None
      end
  | None => None
  end.
Proof.
  revert prev i. induction s as [|c s IH]; intros prev i.
  - cbn [search split_first].
    pose proof (anchored_instruction prev [] i) as Ha.
    destruct (strip OPEN_INSTRUCTION []) as [u|];
      destruct (anchored CorrectiveAgent.instructionRegex prev [] i) as [m|];
      cbn [fmap option_fmap option_map] in *;
      try destruct (split_first CLOSE_INSTRUCTION u) as [[g post]|]; congruence.
  - cbn [search split_first].
    pose proof (anchored_instruction prev (c :: s) i) as Ha.
    destruct (strip OPEN_INSTRUCTION (c :: s)) as [u|] eqn:Es.
    + destruct (split_first CLOSE_INSTRUCTION u) as [[g post]|] eqn:Eu.
      * destruct (anchored CorrectiveAgent.instructionRegex prev (c :: s) i);
          [exact Ha | discriminate Ha].
      * destruct (anchored CorrectiveAgent.instructionRegex prev (c :: s) i);
          [discriminate Ha|].
        rewrite IH. destruct (split_first OPEN_INSTRUCTION s) as [[pre' u']|] eqn:E';
          [|reflexivity].
        destruct (split_first CLOSE_INSTRUCTION u') as [[g' post']|] eqn:Eu'; [|reflexivity].
        exfalso. apply split_first_None in Eu.
        apply split_first_Some in E' as [E' _]. apply split_first_Some in Eu' as [Eu' _].
        apply strip_Some in Es.
        (* [u'] is a suffix of [u], and holds the closing delimiter *)
        assert (exists a, u = a ++ u') as [a Ea].
        { assert (c :: s = (c :: pre') ++ OPEN_INSTRUCTION ++ u') as E2
            by (rewrite E'; reflexivity).
          rewrite Es in E2.
          exists (drop (length OPEN_INSTRUCTION) ((c :: pre') ++ OPEN_INSTRUCTION)).
          apply (f_equal (drop (length OPEN_INSTRUCTION))) in E2.
          rewrite drop_app_length in E2. rewrite E2, app_assoc.
          apply drop_app_le. rewrite length_app. lia. }
        apply (proj1 (includes_false _ _) Eu (a ++ g') post').
        rewrite Ea, Eu', <- app_assoc. reflexivity.
    + destruct (anchored CorrectiveAgent.instructionRegex prev (c :: s) i);
        [discriminate Ha|].
      rewrite IH. destruct (split_first OPEN_INSTRUCTION s) as [[pre' u']|]; reflexivity.
Qed.

Lemma has_delimiters_iff (reply : jsstring) :
  has_delimiters reply <-> exists g, instruction_of reply g.
Proof.
  split.
  - intros (pre & g & post & E).
    destruct (split_first OPEN_INSTRUCTION reply) as [[pre' u]|] eqn:E1.
    + destruct (split_first CLOSE_INSTRUCTION u) as [[g' post']|] eqn:E2.
      * exists g', pre', u, post'. split; apply split_first_iff; assumption.
      * exfalso. apply split_first_None in E2.
        apply split_first_Some in E1 as [E1 Hmin].
        specialize (Hmin _ _ E). rewrite E1 in E.
        (* the closing delimiter lies after the first opening delimiter *)
        apply (f_equal (drop (length (pre' ++ OPEN_INSTRUCTION)))) in E.
        rewrite app_assoc, drop_app_length in E.
        rewrite (app_assoc pre), drop_app_le in E by (rewrite !length_app; lia).
        rewrite app_assoc in E.
        apply (proj1 (includes_false _ _) E2 _ _ E).
    + apply split_first_None in E1.
      destruct (proj1 (includes_false _ _) E1 pre (g ++ CLOSE_INSTRUCTION ++ post) E).
  - intros (g & pre & u & post & [E1 _] & [E2 _]).
    exists pre, g, post. rewrite E1, E2. reflexivity.
Qed.

Lemma extractInstruction_spec (reply : jsstring) :
  CorrectiveAgent.extractInstruction reply =
  match split_first OPEN_INSTRUCTION reply with
  | Some (_, u) =>
      match split_first CLOSE_INSTRUCTION u with
      | Some (c :: g, _) => retry_with (trim (c :: g))
      | _ => no_retry (lit "Could not generate corrective instruction (no tags found)")
      end
  | None => no_retry (lit "Could not generate corrective instruction (no tags found)")
  end.
Proof.
  unfold CorrectiveAgent.extractInstruction, exec.
  pose proof (search_instruction None reply 0) as H.
  destruct (search CorrectiveAgent.instructionRegex None reply 0) as [m|];
    simpl fmap in H.
  - destruct (split_first OPEN_INSTRUCTION reply) as [[pre u]|]; [|discriminate H].
    destruct (split_first CLOSE_INSTRUCTION u) as [[g post]|]; [|discriminate H].
    injection H as ->. destruct g; reflexivity.
  - destruct (split_first OPEN_INSTRUCTION reply) as [[pre u]|]; [|reflexivity].
    destruct (split_first CLOSE_INSTRUCTION u) as [[g post]|]; [discriminate H | reflexivity].
Qed.

Lemma fold_left_concat (chunks : list jsstring) (acc : jsstring) :
  fold_left (fun acc chunk => acc ++ chunk) chunks acc = acc ++ concat chunks.
Proof.
  revert acc. induction chunks as [|c chunks IH]; intros acc; simpl.
  - rewrite app_nil_r. reflexivity.
  - rewrite IH, <- app_assoc. reflexivity.
Qed.

Lemma extractInstruction_retry (reply g : jsstring) :
  instruction_of reply g -> g <> [] ->
  CorrectiveAgent.extractInstruction reply = retry_with (trim g).
Proof.
  intros (pre & u & post & H1 & H2) Hg. rewrite extractInstruction_spec.
  apply split_first_iff in H1, H2. rewrite H1, H2.
  destruct g; [destruct Hg; reflexivity | reflexivity].
Qed.

Lemma extractInstruction_no_retry (reply : jsstring) :
  (forall g, instruction_of reply g -> g = []) ->
  CorrectiveAgent.extractInstruction reply =
  no_retry (lit "Could not generate corrective instruction (no tags found)").
Proof.
  intros H. rewrite extractInstruction_spec.
  destruct (split_first OPEN_INSTRUCTION reply) as [[pre u]|] eqn:E1; [|reflexivity].
  destruct (split_first CLOSE_INSTRUCTION u) as [[g post]|] eqn:E2; [|reflexivity].
  destruct g as [|c g]; [reflexivity|].
  apply split_first_iff in E1, E2.
  assert (c :: g = []) as E by (apply H; exists pre, u, post; auto).
  discriminate E.
Qed.

(** C9 as stated fails: the reply [empty_instruction] contains the pair of
    delimiters, and the agent does not retry. *)
Lemma attemptCorrection_empty_instruction :
  has_delimiters empty_instruction /\
  CorrectiveAgent.attemptCorrection []
    (fun _ => CorrectiveAgent.Streamed [empty_instruction])
    {| CorrectiveAgent.userPrompt := [];
       CorrectiveAgent.modelResponse := [];
       CorrectiveAgent.violations := [] |} =
  no_retry (lit "Could not generate corrective instruction (no tags found)").
Proof.
  split.
  - exists (lit "Here you go: "), [], []. reflexivity.
  - vm_compute. reflexivity.
Qed.

(** C9, amended: [attemptCorrection] returns [shouldRetry: true] exactly
    when the router streamed a reply in which the first opening delimiter
    is followed by a closing delimiter and at least one code unit stands
    between the opening delimiter and the first closing delimiter after it;
    the prompt is then that text, trimmed. In every other case, a reply
    without the pair of delimiters or with nothing between them and a
    router call that throws, it returns [shouldRetry: false] with a reason;
    it returns a result in every case. *)
Theorem attemptCorrection_contract (CORRECTIVE_AGENT_PROMPT : jsstring)
  (router : jsstring -> CorrectiveAgent.RouterOutcome)
  (params : CorrectiveAgent.CorrectionAttemptParams) :
  let outcome :=
    router (CorrectiveAgent.correctivePrompt CORRECTIVE_AGENT_PROMPT params) in
  let result := CorrectiveAgent.attemptCorrection CORRECTIVE_AGENT_PROMPT router params in
  (CorrectiveAgent.shouldRetry result = true <->
   exists chunks g,
     outcome = CorrectiveAgent.Streamed chunks /\
     instruction_of (concat chunks) g /\ g <> []) /\
  (forall chunks g,
     outcome = CorrectiveAgent.Streamed chunks ->
     instruction_of (concat chunks) g -> g <> [] ->
     result = retry_with (trim g)) /\
  (forall chunks,
     outcome = CorrectiveAgent.Streamed chunks ->
     ~ has_delimiters (concat chunks) ->
     result = no_retry (lit "Could not generate corrective instruction (no tags found)")) /\
  (forall message,
     outcome = CorrectiveAgent.Thrown message ->
     result = no_retry (lit "Correction failed: " ++ message)) /\
  (CorrectiveAgent.shouldRetry result = false ->
   exists reason, result = no_retry reason).
Proof.
  intros outcome result. unfold result, CorrectiveAgent.attemptCorrection.
  fold outcome. destruct outcome as [chunks|message].
  - rewrite fold_left_concat. cbn [app].
    set (reply := concat chunks).
    assert (forall g, instruction_of reply g -> g <> [] ->
              CorrectiveAgent.extractInstruction reply = retry_with (trim g)) as Hyes
      by (intros; apply extractInstruction_retry; assumption).
    split; [|split; [|split; [|split]]].
    + split.
      * intros Hr.
        destruct (split_first OPEN_INSTRUCTION reply) as [[pre u]|] eqn:E1.
        2:{ rewrite extractInstruction_spec, E1 in Hr. discriminate Hr. }
        destruct (split_first CLOSE_INSTRUCTION u) as [[g post]|] eqn:E2.
        2:{ rewrite extractInstruction_spec, E1, E2 in Hr. discriminate Hr. }
        destruct g as [|c g].
        { rewrite extractInstruction_spec, E1, E2 in Hr. discriminate Hr. }
        exists chunks, (c :: g). split; [reflexivity|]. split; [|discriminate].
        apply split_first_iff in E1, E2. exists pre, u, post. auto.
      * intros (chunks' & g & [= <-] & Hi & Hg). rewrite (Hyes g Hi Hg). reflexivity.
    + intros chunks' g [= <-]. apply Hyes.
    + intros chunks' [= <-] Hno. apply extractInstruction_no_retry.
      intros g Hi. destruct Hno. apply has_delimiters_iff. eauto.
    + intros message [=].
    + intros Hr. rewrite extractInstruction_spec in *.
      destruct (split_first OPEN_INSTRUCTION reply) as [[pre u]|]; [|eauto].
      destruct (split_first CLOSE_INSTRUCTION u) as [[[|c g] post]|]; eauto.
      discriminate Hr.
  - split; [|split; [|split; [|split]]].
    + split; [discriminate|]. intros (chunks & g & [=] & _).
    + intros chunks g [=].
    + intros chunks [=].
    + intros message' [= <-]. reflexivity.
    + intros _. eauto.
Qed.

(** ** C2: each kind is reported once *)

Section OncePolicy.

Import Once.

Lemma pick_Some (seen : gset string) (found : list string) (k : string) :
  pick seen found = Some k -> k ∈ found /\ k ∉ seen.
Proof.
  unfold pick. intros H. apply find_some in H as [Hin Hk].
  split; [apply list_elem_of_In, Hin|].
  apply negb_true_iff, bool_decide_eq_false in Hk. exact Hk.
Qed.

Lemma pick_is_Some (seen : gset string) (found : list string) (k : string) :
  k ∈ found -> k ∉ seen -> is_Some (pick seen found).
Proof.
  intros Hin Hk. unfold pick.
  destruct (find _ found) as [k'|] eqn:E; [eauto|].
  apply list_elem_of_In in Hin. pose proof (find_none _ _ E _ Hin) as Hn.
  apply negb_false_iff, bool_decide_eq_true in Hn. destruct (Hk Hn).
Qed.

Lemma next_grows (seen : gset string) (found : list string) :
  seen ⊆ next seen found.
Proof. unfold next. destruct (pick seen found); set_solver. Qed.

(** A kind that is in the set is not reported, whatever the calls. *)
Lemma reports_seen (kind : string) (seen : gset string) (calls : list (list string)) :
  kind ∈ seen -> reports kind (run seen calls) = 0.
Proof.
  revert seen. induction calls as [|found calls IH]; intros seen Hk; [reflexivity|].
  unfold reports in *. cbn [run List.filter].
  destruct (bool_decide_reflect (pick seen found = Some kind)) as [E|_].
  - apply pick_Some in E as [_ Hn]. destruct (Hn Hk).
  - apply IH. apply (next_grows seen found), Hk.
Qed.



End OncePolicy.

(** *** The fast monitor follows the policy *)

Lemma fast_detects_add (m : FastMonitor.t) (k kind : string) (text : jsstring) :
  fast_detects (FastMonitor.add m k) kind text = fast_detects m kind text.
Proof. reflexivity. Qed.

Lemma find_filter {A : Type} (p q : A -> bool) (l : list A) :
  find p (List.filter q l) = find (fun x => q x && p x) l.
Proof.
  induction l as [|x l IH]; [reflexivity|]. simpl.
  destruct (q x); simpl; [rewrite IH; reflexivity | exact IH].
Qed.

(** [checkChunk] reports the first kind, in the order of its checks, that
    the text contains and that is not in the set yet. *)
Lemma checkChunk_pick (m : FastMonitor.t) (text : jsstring) :
  FastMonitor.checkChunk m text =
  match Once.pick (FastMonitor.detectedViolations m) (fast_found m text) with
  | Some kind => (FastMonitor.abort_with kind, FastMonitor.add m kind)
  | None => (FastMonitor.no_violation, m)
  end.
Proof.
  unfold FastMonitor.checkChunk, FastMonitor.checkModeViolations, Once.pick.
  unfold fast_found. rewrite find_filter. cbv [FAST_KINDS find].
  change (fast_detects m "markdown_code_block" text)
    with (FastMonitor.detectMarkdownCodeBlock text).
  change (fast_detects m "codex_cli_tool" text)
    with (FastMonitor.detectCodexCliTool text).
  change (fast_detects m "planning_file_creation" text)
    with ((FastMonitor.step_is m "planning" || String.eqb (FastMonitor.mode m) "planning")
          && includes text (lit "<dyad-write")).
  change (fast_detects m "docs_non_markdown" text)
    with ((FastMonitor.step_is m "docs" || String.eqb (FastMonitor.mode m) "docs")
          && (includes text (lit "<dyad-write")
              && negb (test FastMonitor.mdPathRegex text))).
  change (fast_detects m "agent_dyad_tags" text)
    with (String.eqb (FastMonitor.mode m) "agent"
          && (includes text (lit "<dyad-write") || includes text (lit "<dyad-delete")
              || includes text (lit "<dyad-rename"))).
  unfold FastMonitor.has.
  generalize (FastMonitor.detectMarkdownCodeBlock text) as d1.
  generalize (FastMonitor.detectCodexCliTool text) as d2.
  generalize ((FastMonitor.step_is m "planning" || String.eqb (FastMonitor.mode m) "planning")
              && includes text (lit "<dyad-write")) as d3.
  generalize ((FastMonitor.step_is m "docs" || String.eqb (FastMonitor.mode m) "docs")
              && (includes text (lit "<dyad-write")
                  && negb (test FastMonitor.mdPathRegex text))) as d4.
  generalize (String.eqb (FastMonitor.mode m) "agent"
              && (includes text (lit "<dyad-write") || includes text (lit "<dyad-delete")
                  || includes text (lit "<dyad-rename"))) as d5.
  generalize (bool_decide ("markdown_code_block" ∈ FastMonitor.detectedViolations m)) as h1.
  generalize (bool_decide ("codex_cli_tool" ∈ FastMonitor.detectedViolations m)) as h2.
  generalize (bool_decide ("planning_file_creation" ∈ FastMonitor.detectedViolations m)) as h3.
  generalize (bool_decide ("docs_non_markdown" ∈ FastMonitor.detectedViolations m)) as h4.
  generalize (bool_decide ("agent_dyad_tags" ∈ FastMonitor.detectedViolations m)) as h5.
  intros h5 h4 h3 h2 h1 d5 d4 d3 d2 d1.
  destruct d1, h1; try reflexivity;
    destruct d2, h2; try reflexivity;
    destruct d3, h3; try reflexivity;
    destruct d4, h4; try reflexivity;
    destruct d5, h5; reflexivity.
Qed.

Lemma fast_found_kinds (m : FastMonitor.t) (text : jsstring) (k : string) :
  k ∈ fast_found m text <-> k ∈ FAST_KINDS /\ fast_detects m k text = true.
Proof.
  unfold fast_found. rewrite !list_elem_of_In, filter_In. reflexivity.
Qed.

Lemma fast_found_after (m : FastMonitor.t) (text text' : jsstring) :
  fast_found (snd (FastMonitor.checkChunk m text)) text' = fast_found m text'.
Proof.
  rewrite checkChunk_pick.
  destruct (Once.pick (FastMonitor.detectedViolations m) (fast_found m text)); reflexivity.
Qed.



(** *** The streaming monitor follows the policy *)

Lemma first_new_pick (this : StreamingMonitor.t)
  (violations : list StreamingMonitor.ViolationDetection) :
  StreamingMonitor.violationType (fst (StreamingMonitor.first_new this violations)) =
    Once.pick (StreamingMonitor.violationsDetected this)
      (map StreamingMonitor.type violations) /\
  StreamingMonitor.violationsDetected (snd (StreamingMonitor.first_new this violations)) =
    Once.next (StreamingMonitor.violationsDetected this)
      (map StreamingMonitor.type violations) /\
  StreamingMonitor.accumulatedResponse (snd (StreamingMonitor.first_new this violations)) =
    StreamingMonitor.accumulatedResponse this /\
  StreamingMonitor.mode (snd (StreamingMonitor.first_new this violations)) =
    StreamingMonitor.mode this /\
  StreamingMonitor.workflowStep (snd (StreamingMonitor.first_new this violations)) =
    StreamingMonitor.workflowStep this.
Proof.
  unfold Once.next, Once.pick.
  induction violations as [|v violations IH]; [repeat split|].
  cbn [StreamingMonitor.first_new map find].
  destruct (bool_decide (StreamingMonitor.type v ∈ StreamingMonitor.violationsDetected this));
    cbn [negb]; [exact IH | repeat split].
Qed.

Lemma analyzeChunk_pick (m : StreamingMonitor.t) (chunk : jsstring) :
  StreamingMonitor.violationType (fst (StreamingMonitor.analyzeChunk m chunk)) =
    Once.pick (StreamingMonitor.violationsDetected m) (streaming_found m chunk) /\
  StreamingMonitor.violationsDetected (snd (StreamingMonitor.analyzeChunk m chunk)) =
    Once.next (StreamingMonitor.violationsDetected m) (streaming_found m chunk) /\
  StreamingMonitor.accumulatedResponse (snd (StreamingMonitor.analyzeChunk m chunk)) =
    StreamingMonitor.accumulatedResponse m ++ chunk.
Proof.
  unfold StreamingMonitor.analyzeChunk, streaming_found.
  set (this := StreamingMonitor.with_text m (StreamingMonitor.accumulatedResponse m ++ chunk)).
  destruct (first_new_pick this
              (StreamingMonitor.detectQuickViolations this
                 (StreamingMonitor.accumulatedResponse this)))
    as (H1 & H2 & H3 & _).
  repeat split; assumption.
Qed.

Lemma streaming_run_policy (m : StreamingMonitor.t) (chunks : list jsstring) :
  map StreamingMonitor.violationType (streaming_run m chunks) =
  Once.run (StreamingMonitor.violationsDetected m) (streaming_calls m chunks).
Proof.
  revert m. induction chunks as [|chunk chunks IH]; intros m; [reflexivity|].
  cbn [streaming_run streaming_calls Once.run].
  destruct (analyzeChunk_pick m chunk) as (H1 & H2 & _).
  destruct (StreamingMonitor.analyzeChunk m chunk) as [result m'].
  cbn [map fst snd] in *. rewrite IH, H1, H2. reflexivity.
Qed.






Lemma streaming_calls_length (m : StreamingMonitor.t) (chunks : list jsstring) :
  length (streaming_calls m chunks) = length chunks.
Proof.
  revert m. induction chunks as [|c chunks IH]; intros m; [reflexivity|].
  simpl. rewrite IH. reflexivity.
Qed.




(** One kind in growing texts: the first call reports it and the later
    ones report nothing, until [reset]. *)
Example fast_monitor_single_kind :
  let texts := [fix_text; fix_text ++ NL; fix_text ++ NL ++ lit "Done."] in
  let m := FastMonitor.new "build" None in
  map FastMonitor.violationType (fast_run m texts) =
    [Some "markdown_code_block"; None; None] /\
  map FastMonitor.violationType (fast_run (FastMonitor.reset (fast_after m texts)) texts) =
    [Some "markdown_code_block"; None; None].
Proof. split; vm_compute; reflexivity. Qed.

Example streaming_monitor_single_kind :
  let chunks := [lit "Here is the fix:" ++ NL ++ lit "```ts" ++ NL; lit "const x"; lit " = 1;"] in
  let m := StreamingMonitor.new (fun _ => Some (lit "  Use the tags. ")) "build" None true in
  map StreamingMonitor.violationType (streaming_run m chunks) =
    [Some "markdown_code_block"; None; None] /\
  map StreamingMonitor.correction (streaming_run m chunks) =
    [Some (lit "Use the tags."); None; None] /\
  StreamingMonitor.corrections (streaming_after m chunks) = [lit "Use the tags."].
Proof. repeat split; vm_compute; reflexivity. Qed.

(** ** C5: the bound of the correction loop *)

Section CorrectionLoop.

Import Orchestrator.

Variable cleanFullResponse : jsstring -> jsstring.
Variable supabaseClientCode : option jsstring.
Variable model : list message -> list part.
Variable router : jsstring -> option jsstring.
Variable settings : UserSettings.
Variable workflowStep : option string.





End CorrectionLoop.





(** ** C7: write directives in the documentation step *)

Lemma literal_id_app (p : jsstring) (prev : option N) (r : jsstring) :
  exists pv, literal id p prev (p ++ r) = Some (pv, r).
Proof.
  pose proof (literal_id_strip p prev (p ++ r)) as H. rewrite strip_app in H.
  destruct (literal id p prev (p ++ r)) as [[pv r']|]; [|discriminate H].
  injection H as ->. eauto.
Qed.

Lemma literal_id_None (p : jsstring) (prev : option N) (s : jsstring) :
  startsWith s p = false -> literal id p prev s = None.
Proof.
  intros H. pose proof (literal_id_strip p prev s) as E. unfold startsWith in H.
  destruct (strip p s); [discriminate H|].
  destruct (literal id p prev s); [discriminate E | reflexivity].
Qed.

Lemma pathRegex_blind : blind ResponseValidator.pathRegex.
Proof. apply no_lookbehind_blind. reflexivity. Qed.

(** At the start of a directive the regular expression of the paths
    matches the opening tag with its path, which the group holds. *)
Lemma run_pathRegex (path X : jsstring) (prev : option N) :
  path <> [] -> forallb (non DQ) path = true ->
  run ResponseValidator.pathRegex [] None prev (write_open path ++ X) =
  Some (X, Some path).
Proof.
  intros Hne Hq. unfold ResponseValidator.pathRegex, write_open.
  rewrite run_lit_cons.
  change (lit "<dyad-write") with OPEN_WRITE. rewrite <- !app_assoc.
  destruct (literal_id_app OPEN_WRITE prev (lit " path=" ++ Q ++ path ++ Q ++ X))
    as [pv ->].
  change (lit " path=" ++ Q ++ path ++ Q ++ X)
    with (32%N :: (lit "path=" ++ Q) ++ path ++ Q ++ X).
  cbn [run]. change (is_space 32) with true. cbv iota.
  change ((lit "path=" ++ Q) ++ path ++ Q ++ X)
    with (112%N :: (lit "ath=" ++ Q) ++ path ++ Q ++ X) at 1.
  cbn [greedy]. change (is_space 112) with false. cbv iota.
  change (112%N :: (lit "ath=" ++ Q) ++ path ++ Q ++ X)
    with ((lit "path=" ++ Q) ++ path ++ Q ++ X).
  destruct (literal_id_app (lit "path=" ++ Q) (Some 32%N) (path ++ Q ++ X)) as [pv' ->].
  destruct path as [|c path]; [destruct Hne; reflexivity|].
  simpl in Hq. apply andb_true_iff in Hq as [Hc Hq].
  cbn [app]. rewrite Hc.
  set (s := c :: path ++ Q ++ X).
  rewrite (greedy_until DQ (fun prev0 s0 =>
             match literal id Q prev0 s0 with
             | Some (prev', s') => Some (s', Some (take (length s - length s0) s))
             | None => None
             end)).
  - change (path ++ Q ++ X) with (path ++ DQ :: X).
    rewrite dropWhile_app by (exact Hq || reflexivity).
    cbn [literal Q]. unfold id. rewrite N.eqb_refl.
    f_equal. f_equal. f_equal. unfold s.
    replace (length (c :: path ++ Q ++ X) - length (DQ :: X)) with (length (c :: path))
      by (simpl; rewrite !length_app; simpl; lia).
    change (c :: path ++ Q ++ X) with ((c :: path) ++ Q ++ X).
    apply take_app_length.
  - intros p p' u. destruct u as [|b u]; [reflexivity|]. cbn [literal Q].
    destruct (id 34 =? id b)%N; reflexivity.
  - intros p b u Hb. cbn [literal Q]. unfold id.
    apply N.eqb_neq in Hb. rewrite N.eqb_sym. unfold DQ in Hb. rewrite Hb. reflexivity.
Qed.

Lemma anchored_pathRegex (path X : jsstring) (prev : option N) (i : nat) :
  path <> [] -> forallb (non DQ) path = true ->
  anchored ResponseValidator.pathRegex prev (write_open path ++ X) i =
  Some {| index := i; matched := write_open path; group1 := Some path |}.
Proof.
  intros Hne Hq. unfold anchored. rewrite (run_pathRegex path X prev Hne Hq).
  rewrite length_app, Nat.add_sub, take_app_length. reflexivity.
Qed.

Lemma pathRegex_needs_open (s : jsstring) :
  startsWith s OPEN_WRITE = false -> matches_here ResponseValidator.pathRegex s = false.
Proof.
  intros H. unfold matches_here, ResponseValidator.pathRegex. rewrite run_lit_cons.
  change (lit "<dyad-write") with OPEN_WRITE.
  rewrite (literal_id_None _ _ _ H). reflexivity.
Qed.


Section ScanGroups.

Variable r : regex.
Hypothesis Hr : blind r.

Lemma anchored_shift_index (prev prev' : option N) (s : jsstring) (i j : nat) :
  anchored r prev' s j =
  (fun m => {| index := j; matched := matched m; group1 := group1 m |})
    <$> anchored r prev s i.
Proof.
  unfold anchored. rewrite (Hr [] None prev' prev s).
  destruct (run r [] None prev s) as [[rest g]|]; reflexivity.
Qed.

(** The groups of the matches depend neither on the index the scan
    starts from nor on the code unit before. *)
Lemma scan_groups_shift (prev prev' : option N) (s : jsstring) (i j k : nat) :
  map group1 (scan r prev s i k) = map group1 (scan r prev' s j k).
Proof.
  revert prev prev' i j k. induction s as [|c s IH]; intros prev prev' i j k.
  - destruct k; [|reflexivity]. cbn [scan].
    rewrite (anchored_shift_index prev prev' [] i j).
    destruct (anchored r prev [] i); reflexivity.
  - destruct k as [|k]; cbn [scan]; [|apply IH].
    rewrite (anchored_shift_index prev prev' (c :: s) i j).
    destruct (anchored r prev (c :: s) i) as [m|]; cbn [fmap option_fmap option_map map matched group1].
    + f_equal. apply IH.
    + apply IH.
Qed.

Lemma scan_groups_skip (prev : option N) (s : jsstring) (i k : nat) :
  k <= length s ->
  map group1 (scan r prev s i k) = map group1 (scan r None (drop k s) 0 0).
Proof.
  revert prev s i. induction k as [|k IH]; intros prev s i Hk.
  - rewrite drop_0. apply scan_groups_shift.
  - destruct s as [|c s]; [simpl in Hk; lia|]. cbn [scan drop]. apply IH.
    simpl in Hk. lia.
Qed.

(** A text in which [r] matches nowhere adds no match. *)
Lemma scan_groups_nomatch (prev : option N) (a b : jsstring) (i : nat) :
  (forall j, j < length a -> matches_here r (drop j (a ++ b)) = false) ->
  map group1 (scan r prev (a ++ b) i 0) = map group1 (scan r None b 0 0).
Proof.
  revert prev i. induction a as [|c a IH]; intros prev i H.
  - apply scan_groups_shift.
  - cbn [app scan].
    assert (anchored r prev (c :: a ++ b) i = None) as ->.
    { rewrite (anchored_blind r prev _ i Hr).
      destruct (anchored r None (c :: a ++ b) i) eqn:E; [|reflexivity].
      assert (is_Some (anchored r None (c :: a ++ b) i)) as Hs by eauto.
      apply anchored_matches_here in Hs.
      specialize (H 0 ltac:(simpl; lia)). simpl in H. congruence. }
    apply IH. intros j Hj. apply (H (S j)). simpl. lia.
Qed.

End ScanGroups.

(** The paths the documentation step examines are the paths of the
    directives, in their order. *)
Lemma paths_of_directives (prev : option N) (i : nat) (pre : jsstring)
  (directives : list (jsstring * jsstring)) :
  no_open_in pre (render directives) -> well_formed directives ->
  map group1 (scan ResponseValidator.pathRegex prev (pre ++ render directives) i 0) =
  map (fun d => Some (fst d)) directives.
Proof.
  revert prev i pre. induction directives as [|[path rest] ds IH];
    intros prev i pre Hpre Hwf.
  - rewrite (scan_groups_nomatch _ pathRegex_blind).
    + reflexivity.
    + intros j Hj. apply pathRegex_needs_open, Hpre, Hj.
  - destruct Hwf as (Hne & Hq & Hrest & Hwf).
    rewrite (scan_groups_nomatch _ pathRegex_blind)
      by (intros j Hj; apply pathRegex_needs_open, Hpre, Hj).
    change (render ((path, rest) :: ds)) with ((write_open path ++ rest) ++ render ds).
    rewrite <- app_assoc.
    assert (exists c t, write_open path = c :: t) as (c & t & Ew) by (unfold write_open; simpl; eauto).
    pose proof (anchored_pathRegex path (rest ++ render ds) None 0 Hne Hq) as Ha.
    rewrite Ew in Ha at 1. rewrite Ew at 1. cbn [app scan] in *. rewrite Ha.
    cbn [map group1 matched fst]. f_equal.
    rewrite (scan_groups_skip _ pathRegex_blind)
      by (rewrite Ew, length_app; simpl; lia).
    replace (drop (length (write_open path) - 1) (t ++ rest ++ render ds))
      with (rest ++ render ds)
      by (rewrite Ew; simpl; rewrite Nat.sub_0_r, drop_app_length; reflexivity).
    apply (IH None 0 rest Hrest Hwf).
Qed.





(** The two responses of the scenario, each with one directive. *)
Example docs_step_flags_source_file (mode : ResponseValidator.ChatMode) :
  In (docs_violation (lit "src/app.ts"))
    (ResponseValidator.validateModeCompliance
       (write_open (lit "src/app.ts") ++ rest_of_directive)
       {| ResponseValidator.mode := mode;
          ResponseValidator.workflowStep := Some WorkflowManager.docs |}).
Proof. destruct mode; vm_compute; auto. Qed.

Example docs_step_accepts_guide :
  ResponseValidator.validateModeCompliance
    (write_open (lit "docs/guide.md") ++ rest_of_directive)
    {| ResponseValidator.mode := ResponseValidator.build;
       ResponseValidator.workflowStep := Some WorkflowManager.docs |} = [].
Proof. vm_compute. reflexivity. Qed.
(** * Further properties of the code *)

(** ** The workflow manager *)

Section WorkflowFurther.

Import WorkflowManager.

Lemma update_missing (f : chat -> chat) (chatId : Z) (d : gmap Z chat) :
  d !! chatId = None -> update f chatId d = d.
Proof.
  intros H. unfold update. apply map_eq. intros i.
  destruct (decide (i = chatId)) as [->|Hi].
  - rewrite lookup_alter_eq, H. reflexivity.
  - rewrite lookup_alter_ne by congruence. reflexivity.
Qed.

Lemma update_other (f : chat -> chat) (chatId other : Z) (d : gmap Z chat) :
  other <> chatId -> update f chatId d !! other = d !! other.
Proof. intros H. unfold update. rewrite lookup_alter_ne by congruence. reflexivity. Qed.

Lemma update_const (c' : chat) (chatId : Z) (d : gmap Z chat) (c : chat) :
  d !! chatId = Some c -> update (fun _ => c') chatId d = <[chatId := c']> d.
Proof.
  intros H. unfold update. apply map_eq. intros i.
  destruct (decide (i = chatId)) as [->|Hi].
  - rewrite lookup_alter_eq, lookup_insert_eq, H. reflexivity.
  - rewrite lookup_alter_ne, lookup_insert_ne by congruence. reflexivity.
Qed.

Lemma advanceStep_other (chatId other : Z) (d : gmap Z chat) :
  other <> chatId -> snd (advanceStep chatId d) !! other = d !! other.
Proof.
  intros H. unfold advanceStep, getChatState, forceStep.
  destruct (d !! chatId) as [c|]; [|reflexivity].
  destruct (negb (status_is_active c)); [reflexivity|].
  repeat (match goal with |- context [if ?b then _ else _] => destruct b end);
    simpl; try apply update_other; auto.
Qed.

End WorkflowFurther.

(** On a chat id that has no row, no operation of the workflow manager
    changes the table; [startWorkflow] and [forceStep] still return their
    step, and [advanceStep] returns null. *)
Theorem workflow_missing_chat (chatId : Z) (step : WorkflowManager.WorkflowStep)
  (d : gmap Z WorkflowManager.chat) :
  d !! chatId = None ->
  WorkflowManager.startWorkflow chatId d = ("planning", d) /\
  WorkflowManager.forceStep chatId step d = (WorkflowManager.step_name step, d) /\
  WorkflowManager.stopWorkflow chatId d = d /\
  WorkflowManager.advanceStep chatId d = (None, d).
Proof.
  intros H. unfold WorkflowManager.startWorkflow, WorkflowManager.forceStep,
    WorkflowManager.stopWorkflow, WorkflowManager.advanceStep,
    WorkflowManager.getChatState.
  rewrite !(update_missing _ _ _ H), H. repeat split.
Qed.

Lemma workflow_missing_chat_witness :
  WorkflowManager.startWorkflow 7 ∅ = ("planning", ∅) /\
  WorkflowManager.forceStep 7 WorkflowManager.docs ∅ = ("docs", ∅) /\
  WorkflowManager.stopWorkflow 7 ∅ = ∅ /\
  WorkflowManager.advanceStep 7 ∅ = (None, ∅).
Proof. apply (workflow_missing_chat 7 WorkflowManager.docs ∅). apply lookup_empty. Defined.

(** An operation of the workflow manager on one chat leaves the rows of the
    other chats as they are. *)
Theorem workflow_operations_touch_one_row (chatId other : Z)
  (step : WorkflowManager.WorkflowStep) (d : gmap Z WorkflowManager.chat) :
  other <> chatId ->
  snd (WorkflowManager.startWorkflow chatId d) !! other = d !! other /\
  snd (WorkflowManager.forceStep chatId step d) !! other = d !! other /\
  WorkflowManager.stopWorkflow chatId d !! other = d !! other /\
  snd (WorkflowManager.advanceStep chatId d) !! other = d !! other.
Proof.
  intros H. repeat split; try (apply update_other, H). apply advanceStep_other, H.
Qed.

Lemma workflow_operations_touch_one_row_witness :
  let d : gmap Z WorkflowManager.chat :=
    {[ 1%Z := active_row "testing"; 2%Z := active_row "docs" ]} in
  snd (WorkflowManager.startWorkflow 1 d) !! 2%Z = d !! 2%Z /\
  snd (WorkflowManager.forceStep 1 WorkflowManager.frontend d) !! 2%Z = d !! 2%Z /\
  WorkflowManager.stopWorkflow 1 d !! 2%Z = d !! 2%Z /\
  snd (WorkflowManager.advanceStep 1 d) !! 2%Z = d !! 2%Z.
Proof.
  apply (workflow_operations_touch_one_row 1 2 WorkflowManager.frontend). lia.
Defined.

Section WorkflowAdvance.

Import WorkflowManager.

Lemma status_is_active_iff (c : chat) :
  status_is_active c = true <-> workflowStatus c = Some "active".
Proof.
  unfold status_is_active. destruct (workflowStatus c) as [s|]; [|split; discriminate].
  rewrite String.eqb_eq. split; [intros ->; reflexivity | intros [= ->]; reflexivity].
Qed.

Lemma indexOf_absent (l : list string) (x : string) :
  x ∉ l -> indexOf l x = (-1)%Z.
Proof.
  induction l as [|y l IH]; [reflexivity|]. intros H.
  apply not_elem_of_cons in H as [Hxy Hl]. cbn [indexOf].
  destruct (String.eqb_spec y x) as [->|_]; [contradiction|].
  rewrite (IH Hl). reflexivity.
Qed.

Lemma advance_to_idle (chatId : Z) (step : string) (d : gmap Z chat) :
  d !! chatId = Some (active_row step) -> step ∈ WORKFLOW_STEPS ->
  exists n, n <= 5 /\ advance_times n chatId d !! chatId = Some idle_row.
Proof.
  assert (forall d, d !! chatId = Some (active_row "testing") ->
                    advance_times 1 chatId d !! chatId = Some idle_row) as L1.
  { intros d0 H. apply (advanceStep_last _ _ H). }
  assert (forall n a b d,
             (a, b) ∈ [("planning", "docs"); ("docs", "frontend");
                       ("frontend", "backend"); ("backend", "testing")] ->
             (forall d, d !! chatId = Some (active_row b) ->
                        advance_times n chatId d !! chatId = Some idle_row) ->
             d !! chatId = Some (active_row a) ->
             advance_times (S n) chatId d !! chatId = Some idle_row) as LS.
  { intros n a b d0 Hab Hn H. cbn [advance_times]. apply Hn.
    apply (advanceStep_next _ _ _ _ H Hab). }
  intros H Hs. unfold WORKFLOW_STEPS in Hs. rewrite !elem_of_cons, elem_of_nil in Hs.
  destruct Hs as [->|[->|[->|[->|[->|[]]]]]].
  - exists 5. split; [lia|].
    refine (LS _ "planning" "docs" _ _ _ H); [set_solver|].
    intros d1 H1. refine (LS _ "docs" "frontend" _ _ _ H1); [set_solver|].
    intros d2 H2. refine (LS _ "frontend" "backend" _ _ _ H2); [set_solver|].
    intros d3 H3. refine (LS _ "backend" "testing" _ _ _ H3); [set_solver|]. exact L1.
  - exists 4. split; [lia|].
    refine (LS _ "docs" "frontend" _ _ _ H); [set_solver|].
    intros d2 H2. refine (LS _ "frontend" "backend" _ _ _ H2); [set_solver|].
    intros d3 H3. refine (LS _ "backend" "testing" _ _ _ H3); [set_solver|]. exact L1.
  - exists 3. split; [lia|].
    refine (LS _ "frontend" "backend" _ _ _ H); [set_solver|].
    intros d3 H3. refine (LS _ "backend" "testing" _ _ _ H3); [set_solver|]. exact L1.
  - exists 2. split; [lia|].
    refine (LS _ "backend" "testing" _ _ _ H); [set_solver|]. exact L1.
  - exists 1. split; [lia|]. apply L1, H.
Qed.

Lemma advanceStep_inactive (chatId : Z) (d : gmap Z chat) (c : chat) :
  d !! chatId = Some c -> workflowStatus c <> Some "active" ->
  advanceStep chatId d = (None, d).
Proof.
  intros H Hc. unfold advanceStep, getChatState. rewrite H.
  destruct (status_is_active c) eqn:E; [|reflexivity].
  apply status_is_active_iff in E. contradiction.
Qed.

Lemma advanceStep_invalid (chatId : Z) (d : gmap Z chat) (c : chat) :
  d !! chatId = Some c -> workflowStatus c = Some "active" ->
  (forall s, workflowStep c = Some s -> s ∉ WORKFLOW_STEPS) ->
  advanceStep chatId d = (Some "planning", <[chatId := active_row "planning"]> d).
Proof.
  intros H Hc Hs. unfold advanceStep, getChatState. rewrite H.
  apply status_is_active_iff in Hc. rewrite Hc. cbn [negb].
  assert (match workflowStep c with
          | Some step => indexOf WORKFLOW_STEPS step
          | None => (-1)%Z
          end = (-1)%Z) as ->.
  { destruct (workflowStep c) as [s|]; [|reflexivity]. apply indexOf_absent, Hs. reflexivity. }
  cbn [Z.eqb forceStep step_name]. f_equal. apply (update_const _ _ _ _ H).
Qed.

End WorkflowAdvance.

(** What [advanceStep] does on a row that is not at a step of an active
    workflow. A row whose status is not active is left as it is, whatever
    its step, and null is returned. A row whose status is active and whose
    step is null or is no workflow step is put at the step planning, which
    is returned. *)
Theorem advanceStep_on_irregular_rows (chatId : Z) (d : gmap Z WorkflowManager.chat)
  (c : WorkflowManager.chat) :
  d !! chatId = Some c ->
  (WorkflowManager.workflowStatus c <> Some "active" ->
   WorkflowManager.advanceStep chatId d = (None, d)) /\
  (WorkflowManager.workflowStatus c = Some "active" ->
   (forall s, WorkflowManager.workflowStep c = Some s ->
              s ∉ WorkflowManager.WORKFLOW_STEPS) ->
   WorkflowManager.advanceStep chatId d =
   (Some "planning", <[chatId := active_row "planning"]> d)).
Proof.
  intros H. split.
  - apply (advanceStep_inactive _ _ _ H).
  - apply (advanceStep_invalid _ _ _ H).
Qed.

Lemma advanceStep_on_irregular_rows_witness :
  let broken : WorkflowManager.chat :=
    {| WorkflowManager.workflowStatus := Some "active";
       WorkflowManager.workflowStep := Some "review" |} in
  WorkflowManager.advanceStep 3 {[ 3%Z := broken ]} =
  (Some "planning", <[3%Z := active_row "planning"]> {[ 3%Z := broken ]}).
Proof.
  intros broken.
  refine (proj2 (advanceStep_on_irregular_rows 3 {[ 3%Z := broken ]} broken _) _ _).
  - apply lookup_singleton_eq.
  - reflexivity.
  - intros s [= <-]. unfold WorkflowManager.WORKFLOW_STEPS.
    rewrite !not_elem_of_cons. repeat split; try discriminate. apply not_elem_of_nil.
Defined.

(** A workflow that is active comes to an end: at most six calls of
    [advanceStep] in a row, five when the row is at a workflow step, leave
    the row idle with no step. *)
Theorem active_workflow_ends (chatId : Z) (d : gmap Z WorkflowManager.chat)
  (c : WorkflowManager.chat) :
  d !! chatId = Some c ->
  WorkflowManager.workflowStatus c = Some "active" ->
  exists n, n <= 6 /\
            (row_ok c -> n <= 5) /\
            advance_times n chatId d !! chatId = Some idle_row.
Proof.
  intros H Hc.
  assert ((exists s, WorkflowManager.workflowStep c = Some s /\
                     s ∈ WorkflowManager.WORKFLOW_STEPS) \/
          ~ (exists s, WorkflowManager.workflowStep c = Some s /\
                       s ∈ WorkflowManager.WORKFLOW_STEPS)) as [(s & Hs & Hin)|Hno].
  { destruct (WorkflowManager.workflowStep c) as [s|].
    - destruct (decide (s ∈ WorkflowManager.WORKFLOW_STEPS)) as [Hin|Hout].
      + left. eauto.
      + right. intros (s' & [= <-] & Hin). contradiction.
    - right. intros (s' & E & _). discriminate. }
  - assert (c = active_row s) as ->
      by (destruct c; simpl in *; subst; reflexivity).
    destruct (advance_to_idle _ _ _ H Hin) as (n & Hn & E).
    exists n. split; [lia|]. split; [intros _; exact Hn | exact E].
  - assert (forall s, WorkflowManager.workflowStep c = Some s ->
                      s ∉ WorkflowManager.WORKFLOW_STEPS) as Hs.
    { intros s E Hin. apply Hno. eauto. }
    pose proof (advanceStep_invalid _ _ _ H Hc Hs) as E.
    destruct (advance_to_idle chatId "planning" (<[chatId := active_row "planning"]> d))
      as (n & Hn & En).
    { apply lookup_insert_eq. }
    { set_solver. }
    exists (S n). split; [lia|]. split.
    + intros [Hiff Hmem]. exfalso. destruct (WorkflowManager.workflowStep c) as [s|] eqn:Es.
      * apply (Hs s eq_refl), Hmem. reflexivity.
      * apply Hiff in Hc. apply Hc. reflexivity.
    + cbn [advance_times]. rewrite E. exact En.
Qed.

Lemma active_workflow_ends_witness :
  exists n, n <= 6 /\
            (row_ok (active_row "frontend") -> n <= 5) /\
            advance_times n 1 {[ 1%Z := active_row "frontend" ]} !! 1%Z = Some idle_row.
Proof.
  apply (active_workflow_ends 1 {[ 1%Z := active_row "frontend" ]} (active_row "frontend")).
  - apply lookup_singleton_eq.
  - reflexivity.
Defined.

(** ** The response validator *)

(** A regular expression that fails at every position finds nothing. *)
Lemma search_fails (r : regex) (s : jsstring) :
  (forall prev a t, s = a ++ t -> run r [] None prev t = None) ->
  forall prev i, search r prev s i = None.
Proof.
  induction s as [|c s IH]; intros H prev i; simpl; unfold anchored.
  - rewrite (H prev [] [] eq_refl). reflexivity.
  - rewrite (H prev [] (c :: s) eq_refl). apply IH.
    intros prev' a t ->. apply (H prev' (c :: a) t). reflexivity.
Qed.

Lemma scan_fails (r : regex) (s : jsstring) :
  (forall prev a t, s = a ++ t -> run r [] None prev t = None) ->
  forall prev i k, scan r prev s i k = [].
Proof.
  induction s as [|c s IH]; intros H prev i k; destruct k; simpl; unfold anchored;
    try reflexivity.
  - rewrite (H prev [] [] eq_refl). reflexivity.
  - rewrite (H prev [] (c :: s) eq_refl). apply IH.
    intros prev' a t ->. apply (H prev' (c :: a) t). reflexivity.
  - apply IH. intros prev' a t ->. apply (H prev' (c :: a) t). reflexivity.
Qed.

(** What a literal consumes is the literal, up to the folding. *)
Lemma literal_Some (fold : N -> N) (p : jsstring) (prev prev' : option N)
  (s s' : jsstring) :
  literal fold p prev s = Some (prev', s') ->
  exists u, s = u ++ s' /\ map fold u = map fold p.
Proof.
  revert prev s. induction p as [|a p IH]; intros prev s H; simpl in H.
  - injection H as _ <-. exists []. split; reflexivity.
  - destruct s as [|b s]; [discriminate|].
    destruct (N.eqb_spec (fold a) (fold b)) as [E|_]; [|discriminate].
    apply IH in H as (u & -> & Hu). exists (b :: u). split; [reflexivity|].
    simpl. rewrite Hu, E. reflexivity.
Qed.

(** A regular expression that starts with a literal matches only where the
    literal stands. *)
Lemma run_lit_needs (p : jsstring) (r : regex) (g0 : jsstring) (g : option jsstring)
  (prev : option N) (s : jsstring) :
  startsWith s p = false -> run (Lit p :: r) g0 g prev s = None.
Proof.
  intros H. cbn [run]. destruct (literal id p prev s) as [[pv u]|] eqn:E; [|reflexivity].
  apply literal_Some in E as (v & -> & Hv). rewrite !map_id in Hv. subst v.
  unfold startsWith in H. rewrite strip_app in H. discriminate.
Qed.

Lemma suffix_includes (a t p : jsstring) :
  includes (a ++ t) p = false -> startsWith t p = false.
Proof.
  intros H. destruct (startsWith t p) eqn:E; [|reflexivity].
  apply startsWith_true in E as [r ->].
  destruct (proj1 (includes_false _ _) H a r). reflexivity.
Qed.

Lemma matchAll_without_literal (p : jsstring) (r : regex) (s : jsstring) :
  includes s p = false -> matchAll (Lit p :: r) s = [].
Proof.
  intros H. apply scan_fails. intros prev a t ->.
  apply run_lit_needs. apply (suffix_includes a), H.
Qed.

Lemma test_without_literal (p : jsstring) (r : regex) (s : jsstring) :
  includes s p = false -> test (Lit p :: r) s = false.
Proof.
  intros H. unfold test, exec. rewrite search_fails; [reflexivity|].
  intros prev a t ->. apply run_lit_needs. apply (suffix_includes a), H.
Qed.

Lemma includes_needs_unit (x : N) (s p : jsstring) :
  In x p -> ~ In x s -> includes s p = false.
Proof.
  intros Hp Hs. apply includes_false. intros pre post ->. apply Hs.
  apply in_or_app. right. apply in_or_app. left. exact Hp.
Qed.

(** Under the [i] flag a literal with an underscore still needs an
    underscore in the text. *)
Lemma test_tool_needs_underscore (tool s : jsstring) :
  In 95%N tool -> ~ In 95%N s -> test (ResponseValidator.toolRegex tool) s = false.
Proof.
  intros Ht Hs. unfold test, exec. rewrite search_fails; [reflexivity|].
  intros prev a t ->. unfold ResponseValidator.toolRegex. cbn [run].
  destruct (xorb (word_before prev) (word_after t)); [|reflexivity].
  destruct (literal canonicalize tool prev t) as [[pv u]|] eqn:E; [|reflexivity].
  exfalso. apply literal_Some in E as (v & -> & Hv).
  assert (In (canonicalize 95) (map canonicalize v)) as Hin
    by (rewrite Hv; apply in_map, Ht).
  apply in_map_iff in Hin as (c & Hc & Hcv).
  assert (c = 95%N) as ->.
  { unfold canonicalize in Hc. simpl in Hc.
    destruct ((97 <=? c) && (c <=? 122))%N eqn:Eb; [|exact Hc].
    apply andb_true_iff in Eb as [E1 E2]. apply N.leb_le in E1, E2. lia. }
  apply Hs. apply in_or_app. right. apply in_or_app. left. exact Hcv.
Qed.

Section ValidatorFurther.

Import ResponseValidator.

Lemma validateModeCompliance_critical (response : jsstring) (context : ValidationContext) :
  Forall (fun v => severity v = critical) (validateModeCompliance response context).
Proof.
  unfold validateModeCompliance. rewrite !Forall_app. repeat split.
  - destruct (workflowStep context) as [[]|]; try constructor.
    destruct (_ || _); repeat constructor.
  - destruct (workflowStep context) as [[]|]; try constructor.
    destruct (test _ _); [|constructor].
    apply Forall_flat_map. apply Forall_forall. intros m _.
    destruct (_ || _); repeat constructor.
  - destruct (mode context); try constructor. destruct (_ || _); repeat constructor.
  - destruct (mode context); try constructor. destruct (_ || _); repeat constructor.
Qed.

Lemma detectors_critical (response : jsstring) (context : ValidationContext) :
  Forall (fun v => severity v = critical)
    (detectMarkdownCodeBlocks response ++ detectCodexCliTools response
     ++ validateDyadTagStructure response ++ detectProhibitedInstructions response
     ++ validateModeCompliance response context).
Proof.
  rewrite !Forall_app. repeat split.
  - unfold detectMarkdownCodeBlocks. apply Forall_map. apply Forall_forall.
    intros m _. reflexivity.
  - unfold detectCodexCliTools. apply Forall_flat_map. apply Forall_forall.
    intros tool _. destruct (test _ _); repeat constructor.
  - unfold validateDyadTagStructure. destruct (negb _); repeat constructor.
  - unfold detectProhibitedInstructions. apply Forall_flat_map. apply Forall_forall.
    intros m _. destruct (existsb _ _); repeat constructor.
  - apply validateModeCompliance_critical.
Qed.

Lemma filter_all_critical (l : list ValidationViolation) :
  Forall (fun v => severity v = critical) l ->
  List.filter is_critical l = l /\ List.filter is_warning l = [].
Proof.
  induction 1 as [|v l Hv _ [IH1 IH2]]; [split; reflexivity|].
  cbn [List.filter].
  assert (is_critical v = true) as -> by (unfold is_critical; rewrite Hv; reflexivity).
  assert (is_warning v = false) as -> by (unfold is_warning; rewrite Hv; reflexivity).
  rewrite IH1, IH2. split; reflexivity.
Qed.

End ValidatorFurther.

(** No check of the validator gives a warning: whatever the response, the
    mode and the step, the list of warnings [validateResponse] returns is
    empty, the violations are what the five checks return, in their order,
    and the response is valid exactly when there is none. *)
Theorem validateResponse_has_no_warning (response : jsstring)
  (context : ResponseValidator.ValidationContext) :
  let result := ResponseValidator.validateResponse response context in
  ResponseValidator.warnings result = [] /\
  ResponseValidator.violations result =
    ResponseValidator.detectMarkdownCodeBlocks response
    ++ ResponseValidator.detectCodexCliTools response
    ++ ResponseValidator.validateDyadTagStructure response
    ++ ResponseValidator.detectProhibitedInstructions response
    ++ ResponseValidator.validateModeCompliance response context /\
  (ResponseValidator.isValid result = true <-> ResponseValidator.violations result = []).
Proof.
  cbv zeta. unfold ResponseValidator.validateResponse.
  cbn [ResponseValidator.warnings ResponseValidator.violations ResponseValidator.isValid].
  destruct (filter_all_critical _ (detectors_critical response context)) as [-> ->].
  repeat split.
  - intros H. apply Nat.eqb_eq in H. apply length_zero_iff_nil in H. exact H.
  - intros ->. reflexivity.
Qed.

(** A response that holds no backtick, no [<] and no underscore is valid in
    every mode and at every step: no check finds anything in it. *)
Theorem plain_text_is_valid (response : jsstring)
  (context : ResponseValidator.ValidationContext) :
  plain response = true ->
  ResponseValidator.validateResponse response context =
  {| ResponseValidator.isValid := true;
     ResponseValidator.violations := [];
     ResponseValidator.warnings := [] |}.
Proof.
  intros H. unfold plain in H. rewrite forallb_forall in H.
  assert (forall x, (x = 96 \/ x = 60 \/ x = 95)%N -> ~ In x response) as Hno.
  { intros x Hx Hin. specialize (H x Hin).
    destruct Hx as [-> | [-> | ->]]; discriminate. }
  assert (ResponseValidator.detectMarkdownCodeBlocks response = []) as E1.
  { unfold ResponseValidator.detectMarkdownCodeBlocks, ResponseValidator.codeBlockRegex.
    rewrite matchAll_without_literal; [reflexivity|].
    apply (includes_needs_unit 96%N); [simpl; auto | apply Hno; auto]. }
  assert (ResponseValidator.detectCodexCliTools response = []) as E2.
  { unfold ResponseValidator.detectCodexCliTools, ResponseValidator.prohibitedTools.
    cbn [flat_map].
    rewrite !test_tool_needs_underscore; try (apply Hno; auto); try reflexivity;
      vm_compute; tauto. }
  assert (forall p, In 60%N p -> includes response p = false) as Hlt.
  { intros p Hp. apply (includes_needs_unit 60%N); [exact Hp | apply Hno; auto]. }
  assert (ResponseValidator.validateDyadTagStructure response = []) as E3.
  { unfold ResponseValidator.validateDyadTagStructure, ResponseValidator.writeOpenRegex,
      ResponseValidator.writeCloseRegex.
    rewrite !matchAll_without_literal; [reflexivity | |]; apply Hlt; simpl; auto. }
  assert (ResponseValidator.detectProhibitedInstructions response = []) as E4.
  { unfold ResponseValidator.detectProhibitedInstructions, ResponseValidator.writeTagRegex.
    rewrite matchAll_without_literal; [reflexivity|]. apply Hlt; simpl; auto. }
  assert (ResponseValidator.validateModeCompliance response context = []) as E5.
  { apply validateModeCompliance_no_tag. apply Hlt; simpl; auto. }
  unfold ResponseValidator.validateResponse. rewrite E1, E2, E3, E4, E5. reflexivity.
Qed.

Lemma plain_text_is_valid_witness :
  ResponseValidator.validateResponse
    (lit "Use a form with two inputs, then call the handler.")
    {| ResponseValidator.mode := ResponseValidator.ask;
       ResponseValidator.workflowStep := Some WorkflowManager.planning |} =
  {| ResponseValidator.isValid := true;
     ResponseValidator.violations := [];
     ResponseValidator.warnings := [] |}.
Proof. apply plain_text_is_valid. reflexivity. Defined.

Lemma tag_found (name : string) (pre attrs post : jsstring) :
  test (ResponseValidator.tagRegex name)
    (pre ++ lit "<dyad-" ++ lit name ++ attrs ++ GT :: post) = true.
Proof.
  apply test_true; [apply no_lookbehind_blind; reflexivity|].
  exists pre, (lit "<dyad-" ++ lit name ++ attrs ++ GT :: post). split; [reflexivity|].
  apply tag_here. exists attrs, post. rewrite <- !app_assoc. reflexivity.
Qed.

(** In the planning step, whatever the mode, and in agent mode, whatever
    the step, each of the four directives the mode check looks for is
    flagged: the violation of the planning step comes first in the list,
    the violation of agent mode last. *)
Theorem planning_and_agent_flag_directives (name : string)
  (response pre attrs post : jsstring) (mode : ResponseValidator.ChatMode)
  (step : option WorkflowManager.WorkflowStep) :
  name ∈ CHECKED_TAGS ->
  response = pre ++ lit "<dyad-" ++ lit name ++ attrs ++ GT :: post ->
  (exists rest,
     ResponseValidator.validateModeCompliance response
       {| ResponseValidator.mode := mode;
          ResponseValidator.workflowStep := Some WorkflowManager.planning |} =
     planning_violation :: rest) /\
  (exists before,
     ResponseValidator.validateModeCompliance response
       {| ResponseValidator.mode := ResponseValidator.agent;
          ResponseValidator.workflowStep := step |} =
     before ++ mode_violations ResponseValidator.agent).
Proof.
  intros Hname ->.
  pose proof (tag_found name pre attrs post) as Ht.
  set (response := pre ++ lit "<dyad-" ++ lit name ++ attrs ++ GT :: post) in *.
  assert (test (ResponseValidator.tagRegex "write") response
          || test (ResponseValidator.tagRegex "delete") response
          || test (ResponseValidator.tagRegex "rename") response
          || test (ResponseValidator.tagRegex "add-dependency") response = true) as Hany.
  { unfold CHECKED_TAGS in Hname. rewrite !elem_of_cons, elem_of_nil in Hname.
    destruct Hname as [-> | [-> | [-> | [-> | []]]]]; rewrite Ht;
      rewrite ?orb_true_r; reflexivity. }
  unfold ResponseValidator.validateModeCompliance.
  cbn [ResponseValidator.mode ResponseValidator.workflowStep]. cbv zeta.
  rewrite Hany. split.
  - eexists. reflexivity.
  - rewrite app_nil_r, app_assoc. eexists. reflexivity.
Qed.

Lemma planning_and_agent_flag_directives_witness :
  let response := lit "ok " ++ lit "<dyad-" ++ lit "rename" ++ lit " from=a to=b /"
                  ++ GT :: lit " done" in
  (exists rest,
     ResponseValidator.validateModeCompliance response
       {| ResponseValidator.mode := ResponseValidator.build;
          ResponseValidator.workflowStep := Some WorkflowManager.planning |} =
     planning_violation :: rest) /\
  (exists before,
     ResponseValidator.validateModeCompliance response
       {| ResponseValidator.mode := ResponseValidator.agent;
          ResponseValidator.workflowStep := None |} =
     before ++ mode_violations ResponseValidator.agent).
Proof.
  intros response.
  apply (planning_and_agent_flag_directives "rename" response (lit "ok ")
           (lit " from=a to=b /") (lit " done")).
  - unfold CHECKED_TAGS. set_solver.
  - reflexivity.
Defined.

(** ** The fast monitor and the streaming monitor *)

(** A fast monitor whose mode is none of planning, docs and agent and whose
    step is neither planning nor docs (build mode and ask mode without such
    a step are of this kind) has no check for directives: whatever the
    text, a call reports a fenced block, a Codex tool or nothing, and a
    text with neither is passed with the instance unchanged. *)
Theorem fast_monitor_passes_directives (m : FastMonitor.t) (text : jsstring) :
  FastMonitor.mode m ∉ ["planning"; "docs"; "agent"] ->
  (forall s, FastMonitor.workflowStep m = Some s -> s ∉ ["planning"; "docs"]) ->
  (FastMonitor.violationType (fst (FastMonitor.checkChunk m text))
     ∈ [None; Some "markdown_code_block"; Some "codex_cli_tool"]) /\
  (FastMonitor.detectMarkdownCodeBlock text = false ->
   FastMonitor.detectCodexCliTool text = false ->
   FastMonitor.checkChunk m text = (FastMonitor.no_violation, m)).
Proof.
  intros Hm Hs.
  rewrite !not_elem_of_cons in Hm. destruct Hm as (Hm1 & Hm2 & Hm3 & _).
  apply String.eqb_neq in Hm1, Hm2, Hm3.
  assert (forall name, name ∈ ["planning"; "docs"] -> FastMonitor.step_is m name = false)
    as Hstep.
  { intros name Hn. unfold FastMonitor.step_is.
    destruct (FastMonitor.workflowStep m) as [s|] eqn:E; [|reflexivity].
    apply String.eqb_neq. intros ->. apply (Hs name eq_refl Hn). }
  unfold FastMonitor.checkChunk, FastMonitor.checkModeViolations.
  rewrite !Hstep by set_solver. rewrite Hm1, Hm2, Hm3. cbn [orb andb]. split.
  - destruct (_ && _); [cbn; set_solver|].
    destruct (_ && _); cbn; set_solver.
  - intros -> ->. reflexivity.
Qed.

Lemma fast_monitor_passes_directives_witness :
  let m := FastMonitor.new "ask" None in
  let text := lit "<dyad-write path=" ++ Q ++ lit "a.ts" ++ Q ++ lit ">x</dyad-write>" in
  (FastMonitor.violationType (fst (FastMonitor.checkChunk m text))
     ∈ [None; Some "markdown_code_block"; Some "codex_cli_tool"]) /\
  (FastMonitor.detectMarkdownCodeBlock text = false ->
   FastMonitor.detectCodexCliTool text = false ->
   FastMonitor.checkChunk m text = (FastMonitor.no_violation, m)).
Proof.
  intros m text. apply (fast_monitor_passes_directives m text).
  - set_solver.
  - intros s. discriminate.
Defined.

(** With the fast correction on, a text delta is handed on as it is, and
    the controller is aborted exactly when the fast monitor reports a
    violation in the response with the delta added: every type the monitor
    reports has a cached correction that is not empty, which is put on the
    controller with the type, and the type joins the set of the instance.
    Without a violation the controller is left as it was. *)
Theorem fast_violation_aborts_stream (settings : Orchestrator.UserSettings)
  (m : FastMonitor.t) (text fullResponse : jsstring)
  (controller : Orchestrator.AbortController) :
  Orchestrator.enableFastCorrection settings = true ->
  let checked := FastMonitor.checkChunk m (fullResponse ++ text) in
  let out :=
    Orchestrator.handleTextDelta settings text (Orchestrator.Fast m) fullResponse controller in
  fst (fst out) = text /\
  snd (fst out) = Orchestrator.Fast (snd checked) /\
  (FastMonitor.hasViolation (fst checked) = false -> snd out = controller) /\
  (FastMonitor.hasViolation (fst checked) = true ->
   exists kind,
     kind ∈ FAST_KINDS /\
     (kind ∉ FastMonitor.detectedViolations m) /\
     kind ∈ FastMonitor.detectedViolations (snd checked) /\
     Orchestrator.truthy (FastMonitor.CACHED_CORRECTIONS kind) = true /\
     snd out = {| Orchestrator.aborted := true;
                  Orchestrator._correctionNeeded := FastMonitor.CACHED_CORRECTIONS kind;
                  Orchestrator._violationType := Some kind |}).
Proof.
  intros Hs. cbv zeta. unfold Orchestrator.handleTextDelta. rewrite Hs.
  rewrite checkChunk_pick.
  destruct (Once.pick (FastMonitor.detectedViolations m)
              (fast_found m (fullResponse ++ text))) as [kind|] eqn:E.
  - apply pick_Some in E as [Hin Hout].
    apply fast_found_kinds in Hin as [Hk _].
    assert (Orchestrator.truthy (FastMonitor.CACHED_CORRECTIONS kind) = true) as Ht.
    { unfold FAST_KINDS in Hk. rewrite !elem_of_cons, elem_of_nil in Hk.
      destruct Hk as [-> | [-> | [-> | [-> | [-> | []]]]]]; reflexivity. }
    cbn [fst snd FastMonitor.abort_with FastMonitor.hasViolation FastMonitor.correction
         FastMonitor.violationType andb].
    rewrite Ht. cbn [fst snd]. repeat split; [discriminate|].
    intros _. exists kind. repeat split; try assumption.
    cbn [FastMonitor.add FastMonitor.detectedViolations]. set_solver.
  - cbn [fst snd FastMonitor.no_violation FastMonitor.hasViolation andb].
    repeat split. discriminate.
Qed.

Lemma fast_violation_aborts_stream_witness :
  let checked :=
    FastMonitor.checkChunk (FastMonitor.new "build" None) (lit "Here:" ++ lit "```ts" ++ NL) in
  let out :=
    Orchestrator.handleTextDelta fast_settings (lit "```ts" ++ NL)
      (Orchestrator.Fast (FastMonitor.new "build" None)) (lit "Here:")
      Orchestrator.newAbortController in
  fst (fst out) = lit "```ts" ++ NL /\
  snd (fst out) = Orchestrator.Fast (snd checked) /\
  (FastMonitor.hasViolation (fst checked) = false ->
   snd out = Orchestrator.newAbortController) /\
  (FastMonitor.hasViolation (fst checked) = true ->
   exists kind,
     kind ∈ FAST_KINDS /\
     (kind ∉ FastMonitor.detectedViolations (FastMonitor.new "build" None)) /\
     kind ∈ FastMonitor.detectedViolations (snd checked) /\
     Orchestrator.truthy (FastMonitor.CACHED_CORRECTIONS kind) = true /\
     snd out = {| Orchestrator.aborted := true;
                  Orchestrator._correctionNeeded := FastMonitor.CACHED_CORRECTIONS kind;
                  Orchestrator._violationType := Some kind |}).
Proof.
  apply (fast_violation_aborts_stream fast_settings (FastMonitor.new "build" None)
           (lit "```ts" ++ NL) (lit "Here:") Orchestrator.newAbortController).
  reflexivity.
Defined.

(** *** What the streaming monitor finds, the fast monitor finds *)

Lemma greedy_zero (cls : N -> bool) (k : option N -> jsstring -> outcome)
  (prev : option N) (s : jsstring) :
  is_Some (k prev s) -> is_Some (greedy cls k prev s).
Proof.
  intros H. destruct s as [|c t]; [exact H|]. cbn [greedy].
  destruct (cls c); [|exact H].
  destruct (greedy cls k (Some c) t); [eauto | exact H].
Qed.

Lemma greedy_mono (cls : N -> bool) (k k' : option N -> jsstring -> outcome) :
  (forall prev s, is_Some (k prev s) -> is_Some (k' prev s)) ->
  forall prev s, is_Some (greedy cls k prev s) -> is_Some (greedy cls k' prev s).
Proof.
  intros Hk prev s. revert prev. induction s as [|c t IH]; intros prev H; cbn [greedy] in *.
  - apply Hk, H.
  - destruct (cls c); [|apply Hk, H].
    destruct (greedy cls k (Some c) t) as [r|] eqn:E.
    + destruct (IH (Some c)) as [r' ->]; [rewrite E; eauto | eauto].
    + destruct (greedy cls k' (Some c) t); [eauto | apply Hk, H].
Qed.

(** Where [```\w*\n] matches, [```\w*\s*\n] matches. *)
Lemma markdownRegex_wider (text : jsstring) :
  test StreamingMonitor.codeBlockRegex text = true ->
  test FastMonitor.markdownRegex text = true.
Proof.
  rewrite !test_true by (apply no_lookbehind_blind; reflexivity).
  intros (pre & post & -> & H). exists pre, post. split; [reflexivity|].
  unfold matches_here in *.
  assert (is_Some (run StreamingMonitor.codeBlockRegex [] None None post)) as Hs
    by (destruct (run _ _ _ _ post); [eauto | discriminate]).
  assert (is_Some (run FastMonitor.markdownRegex [] None None post)) as [r ->];
    [|reflexivity].
  change (run StreamingMonitor.codeBlockRegex [] None None post)
    with (match literal id (lit "```") None post with
          | Some (pv, u) => greedy is_word (run [Lit NL] [] None) pv u
          | None => None
          end) in Hs.
  change (run FastMonitor.markdownRegex [] None None post)
    with (match literal id (lit "```") None post with
          | Some (pv, u) =>
              greedy is_word (greedy is_space (run [Lit NL] [] None)) pv u
          | None => None
          end).
  destruct (literal id (lit "```") None post) as [[pv u]|]; [|exact Hs].
  revert Hs. apply greedy_mono. intros prev s. apply greedy_zero.
Qed.

Lemma codexTools_wider (text : jsstring) (tool : jsstring) :
  In tool StreamingMonitor.codexTools -> includes text tool = true ->
  FastMonitor.detectCodexCliTool text = true.
Proof.
  intros Hin Ht. unfold FastMonitor.detectCodexCliTool. apply existsb_exists.
  exists tool. split; [|exact Ht].
  unfold StreamingMonitor.codexTools in Hin. unfold FastMonitor.codexTools.
  simpl in *. tauto.
Qed.

(** Every violation the streaming monitor detects in a text, a fast
    monitor with the same mode and step detects in it under its own name of
    the type; so a fast monitor that has reported nothing yet reports a
    violation on that text. *)
Theorem fast_monitor_finds_what_streaming_finds (sm : StreamingMonitor.t)
  (fm : FastMonitor.t) (text : jsstring) (v : StreamingMonitor.ViolationDetection) :
  StreamingMonitor.mode sm = FastMonitor.mode fm ->
  StreamingMonitor.workflowStep sm = FastMonitor.workflowStep fm ->
  v ∈ StreamingMonitor.detectQuickViolations sm text ->
  fast_name (StreamingMonitor.type v) ∈ FAST_KINDS /\
  fast_detects fm (fast_name (StreamingMonitor.type v)) text = true /\
  (FastMonitor.detectedViolations fm = ∅ ->
   FastMonitor.hasViolation (fst (FastMonitor.checkChunk fm text)) = true).
Proof.
  intros Hmode Hstep Hv.
  assert (fast_name (StreamingMonitor.type v) ∈ FAST_KINDS /\
          fast_detects fm (fast_name (StreamingMonitor.type v)) text = true) as [H1 H2].
  { unfold StreamingMonitor.detectQuickViolations in Hv.
    unfold StreamingMonitor.step_is in Hv. rewrite Hmode, Hstep in Hv.
    fold (FastMonitor.step_is fm "planning") in Hv.
    fold (FastMonitor.step_is fm "docs") in Hv.
    rewrite !elem_of_app in Hv. destruct Hv as [H|[H|[H|[H|H]]]].
    - destruct (exec StreamingMonitor.codeBlockRegex text) as [m0|] eqn:E; [|inversion H].
      apply list_elem_of_singleton in H as ->. split; [unfold FAST_KINDS; set_solver|].
      apply markdownRegex_wider. unfold test. rewrite E. reflexivity.
    - apply list_elem_of_In, in_flat_map in H as (tool & Htool & H).
      destruct (includes text tool) eqn:E; [|inversion H]. destruct H as [<-|[]].
      split; [unfold FAST_KINDS; set_solver|].
      apply (codexTools_wider text tool Htool E).
    - destruct (_ && _) eqn:E; [|inversion H].
      apply list_elem_of_singleton in H as ->. split; [unfold FAST_KINDS; set_solver|].
      exact E.
    - destruct (_ && _) eqn:E; [|inversion H].
      apply list_elem_of_singleton in H as ->. split; [unfold FAST_KINDS; set_solver|].
      exact E.
    - destruct (_ && _) eqn:E; [|inversion H].
      apply list_elem_of_singleton in H as ->. split; [unfold FAST_KINDS; set_solver|].
      exact E. }
  repeat split; [exact H1 | exact H2 |].
  intros Hempty. rewrite checkChunk_pick.
  destruct (pick_is_Some (FastMonitor.detectedViolations fm) (fast_found fm text)
              (fast_name (StreamingMonitor.type v))) as [kind ->].
  - apply fast_found_kinds. split; assumption.
  - rewrite Hempty. apply not_elem_of_empty.
  - reflexivity.
Qed.

Lemma fast_monitor_finds_what_streaming_finds_witness :
  let sm := StreamingMonitor.new (fun _ => None) "agent" None false in
  let fm := FastMonitor.new "agent" None in
  let text := lit "<dyad-delete path=x>" in
  let v := {| StreamingMonitor.type := "agent_mode_violation";
              StreamingMonitor.context := lit "Dyad tags in agent mode" |} in
  fast_name (StreamingMonitor.type v) ∈ FAST_KINDS /\
  fast_detects fm (fast_name (StreamingMonitor.type v)) text = true /\
  (FastMonitor.detectedViolations fm = ∅ ->
   FastMonitor.hasViolation (fst (FastMonitor.checkChunk fm text)) = true).
Proof.
  intros sm fm text v.
  apply (fast_monitor_finds_what_streaming_finds sm fm text v); try reflexivity.
  assert (StreamingMonitor.detectQuickViolations sm text = [v]) as ->
    by (vm_compute; reflexivity).
  apply list_elem_of_singleton. reflexivity.
Defined.

(** *** A correction that fails *)

Lemma first_new_router_fails (this : StreamingMonitor.t)
  (violations : list StreamingMonitor.ViolationDetection) :
  (forall prompt, StreamingMonitor.router this prompt = None) ->
  StreamingMonitor.correction (fst (StreamingMonitor.first_new this violations)) = None /\
  StreamingMonitor.corrections (snd (StreamingMonitor.first_new this violations)) =
    StreamingMonitor.corrections this /\
  StreamingMonitor.hasViolation (fst (StreamingMonitor.first_new this violations)) =
    bool_decide (is_Some (StreamingMonitor.violationType
                            (fst (StreamingMonitor.first_new this violations)))).
Proof.
  intros Hr. induction violations as [|v violations IH]; [repeat split|].
  cbn [StreamingMonitor.first_new].
  destruct (bool_decide (StreamingMonitor.type v ∈ StreamingMonitor.violationsDetected this));
    [exact IH|].
  unfold StreamingMonitor.report, StreamingMonitor.generateCorrection.
  rewrite Hr. repeat split.
Qed.

(** When the call of the router model fails, the streaming monitor still
    reports the violation it found, with no correction: the callback is
    not called, the type is marked as seen all the same, and no later call
    of the instance reports it, so that no correction is made for it. *)
Theorem streaming_failed_correction_is_final (m : StreamingMonitor.t)
  (chunk : jsstring) (kind : string) :
  (forall prompt, StreamingMonitor.router m prompt = None) ->
  StreamingMonitor.violationType (fst (StreamingMonitor.analyzeChunk m chunk)) = Some kind ->
  let m' := snd (StreamingMonitor.analyzeChunk m chunk) in
  StreamingMonitor.hasViolation (fst (StreamingMonitor.analyzeChunk m chunk)) = true /\
  StreamingMonitor.correction (fst (StreamingMonitor.analyzeChunk m chunk)) = None /\
  StreamingMonitor.corrections m' = StreamingMonitor.corrections m /\
  kind ∈ StreamingMonitor.violationsDetected m' /\
  (forall chunks,
     Once.reports kind (map StreamingMonitor.violationType (streaming_run m' chunks)) = 0).
Proof.
  intros Hr Hk m'.
  destruct (analyzeChunk_pick m chunk) as (Hp & Hn & _).
  assert (kind ∈ StreamingMonitor.violationsDetected m') as Hseen.
  { unfold m'. rewrite Hn. unfold Once.next. rewrite <- Hp, Hk. set_solver. }
  unfold m', StreamingMonitor.analyzeChunk in *.
  set (this := StreamingMonitor.with_text m (StreamingMonitor.accumulatedResponse m ++ chunk))
    in *.
  destruct (first_new_router_fails this
              (StreamingMonitor.detectQuickViolations this
                 (StreamingMonitor.accumulatedResponse this)) Hr) as (H1 & H2 & H3).
  rewrite H3, Hk. repeat split; try assumption.
  intros chunks. rewrite streaming_run_policy. apply reports_seen, Hseen.
Qed.

Lemma streaming_failed_correction_is_final_witness :
  let m := StreamingMonitor.new (fun _ => None) "build" None true in
  let chunk := lit "```ts" ++ NL in
  let m' := snd (StreamingMonitor.analyzeChunk m chunk) in
  StreamingMonitor.hasViolation (fst (StreamingMonitor.analyzeChunk m chunk)) = true /\
  StreamingMonitor.correction (fst (StreamingMonitor.analyzeChunk m chunk)) = None /\
  StreamingMonitor.corrections m' = StreamingMonitor.corrections m /\
  "markdown_code_block" ∈ StreamingMonitor.violationsDetected m' /\
  (forall chunks,
     Once.reports "markdown_code_block"
       (map StreamingMonitor.violationType (streaming_run m' chunks)) = 0).
Proof.
  intros m chunk.
  apply (streaming_failed_correction_is_final m chunk "markdown_code_block").
  - reflexivity.
  - vm_compute. reflexivity.
Defined.

(** ** Processing a stream *)

Section StreamFurther.

Import Orchestrator.

Variable cleanFullResponse : jsstring -> jsstring.
Variable supabaseClientCode : option jsstring.
Variable settings : UserSettings.

Let processPart := processPart cleanFullResponse supabaseClientCode settings.
Let processParts := processParts cleanFullResponse supabaseClientCode settings.

(** Only the fast monitor touches the controller. *)
Lemma processPart_not_fast (p : part) (st : chunks_state) :
  not_fast (monitor st) = true ->
  abortController (fst (processPart p st)) = abortController st /\
  not_fast (monitor (fst (processPart p st))) = true.
Proof.
  intros Hm. unfold processPart, Orchestrator.processPart, handleTextDelta.
  destruct p; destruct (monitor st) as [fm|sm|] eqn:Em; try discriminate Hm;
    repeat match goal with
      | |- context [if ?b then _ else _] => destruct b
      | |- context [match ?x ++ ?y with _ => _ end] => destruct (x ++ y)
      | |- context [match ?x with [] => _ | _ :: _ => _ end] => destruct x
      end;
    cbn; rewrite ?Em; split; reflexivity.
Qed.

Lemma processParts_not_fast (fullStream : list part) (st : chunks_state) :
  not_fast (monitor st) = true ->
  abortController (processParts fullStream st) = abortController st.
Proof.
  revert st. induction fullStream as [|p rest IH]; intros st Hm; [reflexivity|].
  unfold processParts in *. cbn [Orchestrator.processParts].
  destruct (processPart_not_fast p st Hm) as [Hc Hm'].
  unfold processPart in *.
  destruct (Orchestrator.processPart cleanFullResponse supabaseClientCode settings p st)
    as [st' stop].
  cbn [fst] in *. destruct stop; [exact Hc|]. rewrite IH; assumption.
Qed.

End StreamFurther.

(** Without the fast correction the loop never corrects: whatever the
    stream holds and whether or not the streaming monitor is on, the
    stream is processed once, no message is added, nothing is retried and
    the controller is left as it was. What the streaming monitor finds
    does not reach the loop. *)
Theorem no_correction_without_fast_monitor
  (cleanFullResponse : jsstring -> jsstring) (supabaseClientCode : option jsstring)
  (model : list Orchestrator.message -> list Orchestrator.part)
  (router : jsstring -> option jsstring) (settings : Orchestrator.UserSettings)
  (workflowStep : option string) (fuel : nat)
  (fullStream : list Orchestrator.part) (fullResponse : jsstring)
  (chatMessages : list Orchestrator.message) :
  Orchestrator.enableFastCorrection settings = false ->
  Orchestrator.correctionLoop cleanFullResponse supabaseClientCode model router
    settings workflowStep (S fuel) fullStream fullResponse chatMessages
    Orchestrator.newAbortController =
  Some {| Orchestrator.fullStream := fullStream;
          Orchestrator.response :=
            Orchestrator.fullResponse
              (processed cleanFullResponse supabaseClientCode router settings
                 workflowStep fullStream fullResponse);
          Orchestrator.chatMessages := chatMessages;
          Orchestrator.correctionAttempts := 0;
          Orchestrator.controller := Orchestrator.newAbortController |}.
Proof.
  intros Hs. unfold Orchestrator.correctionLoop. cbn [Orchestrator.loop].
  unfold Orchestrator.iteration.
  cbn [Orchestrator.fullStream Orchestrator.response Orchestrator.controller
       Orchestrator.chatMessages Orchestrator.correctionAttempts].
  fold (processed cleanFullResponse supabaseClientCode router settings workflowStep
          fullStream fullResponse).
  assert (Orchestrator.abortController
            (processed cleanFullResponse supabaseClientCode router settings workflowStep
               fullStream fullResponse) = Orchestrator.newAbortController) as ->.
  { unfold processed, Orchestrator.processStreamChunks.
    rewrite processParts_not_fast; [reflexivity|].
    cbn [Orchestrator.monitor]. unfold Orchestrator.newMonitor. rewrite Hs.
    destruct (_ && _); reflexivity. }
  reflexivity.
Qed.

Lemma no_correction_without_fast_monitor_witness :
  let settings :=
    {| Orchestrator.enableFastCorrection := false;
       Orchestrator.enableRealtimeMonitoring := true;
       Orchestrator.routerModel := true;
       Orchestrator.maxCorrectionAttempts := None;
       Orchestrator.selectedChatMode := Some "build" |} in
  let fullStream := [Orchestrator.text_delta (lit "```ts" ++ NL)] in
  Orchestrator.correctionLoop id None stubborn_model (fun _ => None)
    settings None 1 fullStream [] [] Orchestrator.newAbortController =
  Some {| Orchestrator.fullStream := fullStream;
          Orchestrator.response :=
            Orchestrator.fullResponse
              (processed id None (fun _ => None) settings None fullStream []);
          Orchestrator.chatMessages := [];
          Orchestrator.correctionAttempts := 0;
          Orchestrator.controller := Orchestrator.newAbortController |}.
Proof.
  intros settings fullStream.
  apply (no_correction_without_fast_monitor id None stubborn_model (fun _ => None)
           settings None 0 fullStream [] []).
  reflexivity.
Defined.

Section StreamParts.

Import Orchestrator.

Variable cleanFullResponse : jsstring -> jsstring.
Variable supabaseClientCode : option jsstring.
Variable settings : UserSettings.

Let processPart := processPart cleanFullResponse supabaseClientCode settings.
Let processParts := processParts cleanFullResponse supabaseClientCode settings.



End StreamParts.




(** *** Escaping the reasoning, chunk by chunk *)

Lemma includes_short (s p : jsstring) :
  length s < length p -> includes s p = false.
Proof.
  intros H. apply includes_false. intros pre post ->.
  rewrite !length_app in H. lia.
Qed.

Lemma strip_app_inv (p a b r : jsstring) :
  strip p (a ++ b) = Some r ->
  (exists r', strip p a = Some r' /\ r = r' ++ b) \/
  (exists u, u <> [] /\ p = a ++ u /\ b = u ++ r).
Proof.
  revert a. induction p as [|y p IH]; intros a H.
  - left. exists a. simpl in H. injection H as <-. split; reflexivity.
  - destruct a as [|c a].
    + right. exists (y :: p). split; [discriminate|]. split; [reflexivity|].
      apply strip_Some in H. exact H.
    + simpl in H. simpl strip. destruct (N.eqb_spec y c) as [->|]; [|discriminate].
      apply IH in H as [(r' & H1 & H2)|(u & Hu & H1 & H2)].
      * left. eauto.
      * right. exists u. rewrite H1. auto.
Qed.

Section ReplaceLitFurther.

(** As before, the pattern is [x :: q] and [x] occurs neither in [q] nor
    in the replacement [z :: rep]. *)
Variables (x z : N) (q rep : jsstring).
Hypothesis Hq : forallb (non x) q = true.

Let p := x :: q.
Let R := replaceLit p (z :: rep).

(** A text that starts without [x] keeps its start. *)
Lemma replaceLit_head (a s : jsstring) :
  forallb (non x) a = true -> R (a ++ s) = a ++ R s.
Proof.
  induction a as [|c a IH]; intros Ha; [reflexivity|].
  simpl in Ha. apply andb_true_iff in Ha as [Hc Ha]. simpl app.
  unfold R, p. rewrite (replaceLit_nomatch x z q rep c (a ++ s)).
  - f_equal. apply IH, Ha.
  - simpl. unfold non in Hc. rewrite N.eqb_sym.
    destruct (c =? x)%N; [discriminate | reflexivity].
Qed.

(** A text that ends with a start of the pattern that is too short keeps
    its end: no occurrence reaches into it. *)
Lemma replaceLit_tail (s t : jsstring) :
  length (x :: t) < length p -> R (s ++ x :: t) = R s ++ x :: t.
Proof.
  intros Hlen. remember (length s) as n eqn:En. revert s En.
  induction n as [n IH] using lt_wf_ind. intros s ->.
  destruct s as [|c s].
  - simpl app. apply (replaceLit_id x z q rep). apply includes_short, Hlen.
  - destruct (strip p (c :: s)) as [rest|] eqn:E.
    + pose proof (strip_Some _ _ _ E) as Es.
      assert (strip p ((c :: s) ++ x :: t) = Some (rest ++ x :: t)) as E'
        by (rewrite Es, <- app_assoc; apply strip_app).
      transitivity (z :: rep ++ R (rest ++ x :: t));
        [apply (replaceLit_match x z q rep _ _ E')|].
      transitivity ((z :: rep ++ R rest) ++ x :: t);
        [|f_equal; symmetry; apply (replaceLit_match x z q rep _ _ E)].
      rewrite (IH (length rest)); [| | reflexivity].
      * simpl. rewrite <- !app_assoc. reflexivity.
      * rewrite Es, length_app. unfold p. simpl. lia.
    + assert (strip p ((c :: s) ++ x :: t) = None) as E'.
      { destruct (strip p ((c :: s) ++ x :: t)) as [r|] eqn:E'; [|reflexivity].
        exfalso. apply strip_app_inv in E' as [(r' & H1 & _)|(u & Hu & H1 & H2)].
        - congruence.
        - destruct u as [|u0 u]; [contradiction|]. injection H2 as <- _.
          unfold p in H1. injection H1 as _ H1.
          assert (In x q) as Hin by (rewrite H1; apply in_or_app; right; left; reflexivity).
          rewrite forallb_forall in Hq. specialize (Hq x Hin).
          unfold non in Hq. rewrite N.eqb_refl in Hq. discriminate. }
      transitivity (c :: R (s ++ x :: t));
        [apply (replaceLit_nomatch x z q rep c (s ++ x :: t) E')|].
      transitivity ((c :: R s) ++ x :: t);
        [|f_equal; symmetry; apply (replaceLit_nomatch x z q rep c s E)].
      rewrite (IH (length s)); [reflexivity | simpl; lia | reflexivity].
Qed.

End ReplaceLitFurther.

Lemma escapeDyadTags_head (a s : jsstring) :
  forallb (non 60%N) a = true ->
  escapeDyadTags (VString (a ++ s)) = a ++ escapeDyadTags (VString s).
Proof.
  intros Ha. unfold escapeDyadTags, replaceAll.
  change (replaceLit (lit "</dyad") (FULLWIDTH_LT :: lit "/dyad")
            (replaceLit (lit "<dyad") (FULLWIDTH_LT :: lit "dyad") (a ++ s)) =
          a ++ replaceLit (lit "</dyad") (FULLWIDTH_LT :: lit "/dyad")
                 (replaceLit (lit "<dyad") (FULLWIDTH_LT :: lit "dyad") s)).
  change (lit "<dyad") with (60%N :: lit "dyad").
  change (lit "</dyad") with (60%N :: lit "/dyad").
  rewrite !replaceLit_head by exact Ha. reflexivity.
Qed.

Lemma escapeDyadTags_tail (s t : jsstring) :
  length t < 4 ->
  escapeDyadTags (VString (s ++ 60%N :: t)) = escapeDyadTags (VString s) ++ 60%N :: t.
Proof.
  intros Ht. unfold escapeDyadTags, replaceAll.
  change (replaceLit (lit "</dyad") (FULLWIDTH_LT :: lit "/dyad")
            (replaceLit (lit "<dyad") (FULLWIDTH_LT :: lit "dyad") (s ++ 60%N :: t)) =
          replaceLit (lit "</dyad") (FULLWIDTH_LT :: lit "/dyad")
            (replaceLit (lit "<dyad") (FULLWIDTH_LT :: lit "dyad") s) ++ 60%N :: t).
  change (lit "<dyad") with (60%N :: lit "dyad").
  change (lit "</dyad") with (60%N :: lit "/dyad").
  rewrite !replaceLit_tail; try reflexivity; simpl; lia.
Qed.

Lemma two_reasoning_deltas (cleanFullResponse : jsstring -> jsstring)
  (supabaseClientCode : option jsstring) (settings : Orchestrator.UserSettings)
  (monitor : Orchestrator.Monitor) (fullResponse : jsstring) (t1 t2 : value) :
  escapeDyadTags t2 <> [] ->
  Orchestrator.incrementalResponse
    (Orchestrator.processStreamChunks cleanFullResponse supabaseClientCode settings
       [Orchestrator.reasoning_delta t1; Orchestrator.reasoning_delta t2]
       fullResponse Orchestrator.newAbortController monitor) =
  lit "<think>" ++ escapeDyadTags t1 ++ escapeDyadTags t2.
Proof.
  intros H. unfold Orchestrator.processStreamChunks.
  cbn [Orchestrator.processParts]. unfold Orchestrator.processPart.
  cbn [Orchestrator.is_reasoning Orchestrator.inThinkingBlock andb negb
       Orchestrator.monitor Orchestrator.abortController Orchestrator.fullResponse
       Orchestrator.incrementalResponse].
  generalize dependent (escapeDyadTags t2). intros e2 He2.
  generalize (escapeDyadTags t1). intros e1.
  destruct e2 as [|c e2]; [contradiction|].
  cbn [app lit map list_ascii_of_string fst snd Orchestrator.aborted
       Orchestrator.newAbortController Orchestrator.is_reasoning
       Orchestrator.inThinkingBlock andb negb
       Orchestrator.monitor Orchestrator.abortController Orchestrator.fullResponse
       Orchestrator.incrementalResponse].
  reflexivity.
Qed.

(** The reasoning is escaped delta by delta, so an opening of a directive
    that is split over two deltas is escaped in neither: whatever stands
    before and after it, the two escaped deltas joined in the response
    hold [<dyad] again. *)
Theorem split_tag_escapes_the_escaping
  (cleanFullResponse : jsstring -> jsstring) (supabaseClientCode : option jsstring)
  (settings : Orchestrator.UserSettings) (monitor : Orchestrator.Monitor)
  (fullResponse x y p1 p2 : jsstring) :
  p1 ++ p2 = lit "<dyad" -> p1 <> [] -> p2 <> [] ->
  let st :=
    Orchestrator.processStreamChunks cleanFullResponse supabaseClientCode settings
      [Orchestrator.reasoning_delta (VString (x ++ p1));
       Orchestrator.reasoning_delta (VString (p2 ++ y))]
      fullResponse Orchestrator.newAbortController monitor in
  Orchestrator.incrementalResponse st =
    lit "<think>" ++ escapeDyadTags (VString x) ++ lit "<dyad"
    ++ escapeDyadTags (VString y) /\
  includes (Orchestrator.incrementalResponse st) (lit "<dyad") = true.
Proof.
  intros Hp H1 H2 st.
  assert (escapeDyadTags (VString (x ++ p1)) = escapeDyadTags (VString x) ++ p1 /\
          escapeDyadTags (VString (p2 ++ y)) = p2 ++ escapeDyadTags (VString y))
    as [E1 E2].
  { destruct p1 as [|c1 p1]; [contradiction|].
    assert (c1 = 60%N /\ p1 ++ p2 = lit "dyad") as [-> Hp'].
    { simpl in Hp. injection Hp as -> Hp. split; [reflexivity | exact Hp]. }
    assert (length p1 + length p2 = 4) as Hlen.
    { rewrite <- length_app, Hp'. reflexivity. }
    assert (0 < length p2) as Hpos by (destruct p2; [contradiction | simpl; lia]).
    assert (forallb (non 60%N) p2 = true) as Hno.
    { assert (forallb (non 60%N) (p1 ++ p2) = true) as Hall by (rewrite Hp'; reflexivity).
      rewrite forallb_app in Hall. apply andb_true_iff in Hall as [_ Hall]. exact Hall. }
    split; [apply escapeDyadTags_tail; lia | apply escapeDyadTags_head, Hno]. }
  assert (Orchestrator.incrementalResponse st =
          lit "<think>" ++ escapeDyadTags (VString x) ++ lit "<dyad"
          ++ escapeDyadTags (VString y)) as E.
  { unfold st. rewrite two_reasoning_deltas.
    - rewrite E1, E2, <- Hp, <- !app_assoc. reflexivity.
    - rewrite E2. destruct p2; [contradiction | discriminate]. }
  split; [exact E|]. rewrite E. apply includes_true.
  exists (lit "<think>" ++ escapeDyadTags (VString x)), (escapeDyadTags (VString y)).
  rewrite <- !app_assoc. reflexivity.
Qed.

Lemma split_tag_escapes_the_escaping_witness :
  let st :=
    Orchestrator.processStreamChunks id None fast_settings
      [Orchestrator.reasoning_delta (VString (lit "I will emit " ++ lit "<dy"));
       Orchestrator.reasoning_delta
         (VString (lit "ad" ++ lit "-write path=x>"))]
      [] Orchestrator.newAbortController Orchestrator.null in
  Orchestrator.incrementalResponse st =
    lit "<think>" ++ escapeDyadTags (VString (lit "I will emit ")) ++ lit "<dyad"
    ++ escapeDyadTags (VString (lit "-write path=x>")) /\
  includes (Orchestrator.incrementalResponse st) (lit "<dyad") = true.
Proof.
  apply (split_tag_escapes_the_escaping id None fast_settings Orchestrator.null []
           (lit "I will emit ") (lit "-write path=x>") (lit "<dy") (lit "ad")).
  - reflexivity.
  - discriminate.
  - discriminate.
Defined.

(** ** More helpers of the chat stream handler *)

(** *** [escapeXml] *)

Lemma replace_unit (x z : N) (rep s : jsstring) :
  replaceLit [x] (z :: rep) s =
  flat_map (fun u => if (u =? x)%N then z :: rep else [u]) s.
Proof.
  induction s as [|u s IH]; [reflexivity|]. cbn [flat_map].
  destruct (N.eqb_spec u x) as [->|Hu].
  - rewrite (replaceLit_match x z [] rep (x :: s) s).
    + rewrite IH. reflexivity.
    + simpl. rewrite N.eqb_refl. reflexivity.
  - rewrite (replaceLit_nomatch x z [] rep u s).
    + rewrite IH. reflexivity.
    + simpl. apply N.eqb_neq in Hu. rewrite N.eqb_sym, Hu. reflexivity.
Qed.

(** [escapeXml] works code unit by code unit. *)
Lemma escapeXml_entities (unsafe : jsstring) :
  ChatHelpers.escapeXml unsafe = flat_map entity unsafe.
Proof.
  unfold ChatHelpers.escapeXml, replaceAll.
  change (replaceLit Q (lit "&quot;")
            (replaceLit (lit ">") (lit "&gt;")
               (replaceLit (lit "<") (lit "&lt;")
                  (replaceLit (lit "&") (lit "&amp;") unsafe))) =
          flat_map entity unsafe).
  change Q with [34%N]. change (lit ">") with [62%N].
  change (lit "<") with [60%N]. change (lit "&") with [38%N].
  change (lit "&quot;") with (38%N :: lit "quot;").
  change (lit "&gt;") with (38%N :: lit "gt;").
  change (lit "&lt;") with (38%N :: lit "lt;").
  change (lit "&amp;") with (38%N :: lit "amp;").
  rewrite !replace_unit.
  induction unsafe as [|c s IH]; [reflexivity|].
  cbn [flat_map]. rewrite !flat_map_app, IH. f_equal.
  unfold entity.
  destruct (N.eqb_spec c 38) as [->|H38]; [reflexivity|].
  destruct (N.eqb_spec c 60) as [->|H60]; [reflexivity|].
  destruct (N.eqb_spec c 62) as [->|H62]; [reflexivity|].
  destruct (N.eqb_spec c 34) as [->|H34]; [reflexivity|].
  cbn [flat_map app].
  apply N.eqb_neq in H60, H62, H34. rewrite H60. cbn [flat_map app].
  rewrite H62. cbn [flat_map app]. rewrite H34. reflexivity.
Qed.

Lemma entity_safe (c x : N) :
  In x (entity c) -> x <> 60%N /\ x <> 62%N /\ x <> 34%N.
Proof.
  unfold entity.
  destruct (N.eqb_spec c 38); [simpl; intuition (subst; discriminate)|].
  destruct (N.eqb_spec c 60); [simpl; intuition (subst; discriminate)|].
  destruct (N.eqb_spec c 62); [simpl; intuition (subst; discriminate)|].
  destruct (N.eqb_spec c 34); [simpl; intuition (subst; discriminate)|].
  simpl. intros [<-|[]]. auto.
Qed.

Lemma entity_plain (c : N) :
  c <> 38%N -> c <> 60%N -> c <> 62%N -> c <> 34%N -> entity c = [c].
Proof.
  intros H1 H2 H3 H4. unfold entity.
  apply N.eqb_neq in H1, H2, H3, H4. rewrite H1, H2, H3, H4. reflexivity.
Qed.

Lemma entity_inj (c1 c2 : N) (s1 s2 : jsstring) :
  entity c1 ++ s1 = entity c2 ++ s2 -> c1 = c2 /\ s1 = s2.
Proof.
  unfold entity.
  destruct (N.eqb_spec c1 38) as [->|?]; destruct (N.eqb_spec c2 38) as [->|?];
    try destruct (N.eqb_spec c1 60) as [->|?]; try destruct (N.eqb_spec c2 60) as [->|?];
    try destruct (N.eqb_spec c1 62) as [->|?]; try destruct (N.eqb_spec c2 62) as [->|?];
    try destruct (N.eqb_spec c1 34) as [->|?]; try destruct (N.eqb_spec c2 34) as [->|?];
    cbn [app lit map list_ascii_of_string]; intros H;
    try (injection H as H; try discriminate; subst; try contradiction;
         split; [reflexivity | assumption || (repeat f_equal; assumption)]);
    try discriminate H;
    try (injection H; intros; subst; contradiction).
Qed.

Lemma escapeXml_safe (unsafe : jsstring) :
  forallb (fun c => negb ((c =? 60) || (c =? 62) || (c =? 34))%N)
    (ChatHelpers.escapeXml unsafe) = true.
Proof.
  rewrite escapeXml_entities.
  apply forallb_forall. intros x Hx. apply in_flat_map in Hx as (c & _ & Hx).
  apply entity_safe in Hx as (H1 & H2 & H3).
  apply N.eqb_neq in H1, H2, H3. rewrite H1, H2, H3. reflexivity.
Qed.

Lemma entity_length (c : N) : 1 <= length (entity c).
Proof. unfold entity. repeat destruct (_ =? _)%N; simpl; lia. Qed.

(** What [escapeXml] returns holds no [<], no [>] and no double quote, so
    it can stand between the quotes of an attribute and in the text of an
    element; a text that holds none of the four code units is returned as
    it is. *)
Theorem escapeXml_output_is_safe (unsafe : jsstring) :
  forallb (fun c => negb ((c =? 60) || (c =? 62) || (c =? 34))%N)
    (ChatHelpers.escapeXml unsafe) = true /\
  length unsafe <= length (ChatHelpers.escapeXml unsafe) /\
  (forallb (fun c => negb ((c =? 38) || (c =? 60) || (c =? 62) || (c =? 34))%N) unsafe
   = true <-> ChatHelpers.escapeXml unsafe = unsafe).
Proof.
  split; [apply escapeXml_safe|].
  rewrite escapeXml_entities. repeat split.
  - induction unsafe as [|c s IH]; [simpl; lia|].
    cbn [flat_map]. rewrite length_app. simpl length.
    assert (1 <= length (entity c)); [|lia].
    unfold entity. repeat destruct (_ =? _)%N; simpl; lia.
  - induction unsafe as [|c s IH]; [reflexivity|].
    cbn [forallb flat_map]. intros H. apply andb_true_iff in H as [Hc Hs].
    rewrite (IH Hs), entity_plain; [reflexivity| | | |];
      intros ->; discriminate Hc.
  - induction unsafe as [|c s IH]; [reflexivity|].
    cbn [forallb flat_map]. intros H.
    assert (entity c = [c] /\ flat_map entity s = s) as [Ec Es].
    { destruct (entity c) as [|e1 [|e2 es]] eqn:Ee.
      - unfold entity in Ee. repeat destruct (_ =? _)%N; discriminate.
      - simpl in H. injection H as -> H. auto.
      - exfalso. assert (length (flat_map entity s) < length s); [|
          assert (length s <= length (flat_map entity s)); [|lia]].
        + simpl in H. injection H as _ H.
          apply (f_equal (@length N)) in H. cbn [length] in H.
          rewrite length_app in H. lia.
        + clear. induction s as [|c s IH]; [simpl; lia|].
          cbn [flat_map]. rewrite length_app. simpl length.
          assert (1 <= length (entity c)); [|lia].
          unfold entity. repeat destruct (_ =? _)%N; simpl; lia. }
    rewrite (IH Es), andb_true_r.
    unfold entity in Ec.
    destruct (c =? 38)%N; [discriminate|]. destruct (c =? 60)%N; [discriminate|].
    destruct (c =? 62)%N; [discriminate|]. destruct (c =? 34)%N; [discriminate|].
    reflexivity.
Qed.

(** [escapeXml] loses nothing and works piece by piece: two texts with the
    same result are the same text, and the result of two texts joined is
    the two results joined. *)
Theorem escapeXml_is_injective (s1 s2 : jsstring) :
  ChatHelpers.escapeXml (s1 ++ s2) =
    ChatHelpers.escapeXml s1 ++ ChatHelpers.escapeXml s2 /\
  (ChatHelpers.escapeXml s1 = ChatHelpers.escapeXml s2 <-> s1 = s2).
Proof.
  rewrite !escapeXml_entities. split; [apply flat_map_app|].
  split; [|intros ->; reflexivity].
  revert s2. induction s1 as [|c1 s1 IH]; intros [|c2 s2] H.
  - reflexivity.
  - exfalso. cbn [flat_map] in H. unfold entity in H.
    repeat destruct (_ =? _)%N; discriminate H.
  - exfalso. cbn [flat_map] in H. unfold entity in H.
    repeat destruct (_ =? _)%N; discriminate H.
  - cbn [flat_map] in H. apply entity_inj in H as [-> H]. f_equal. apply IH, H.
Qed.

(** *** [parseMcpToolKey] *)

(** [lastIndexOf] returns [-1] when the pattern does not occur, and else
    an index at which it starts and after which it starts nowhere. *)
Lemma lastIndexOf_spec (s : jsstring) (x : N) (p : jsstring) :
  (ChatHelpers.lastIndexOf s (x :: p) = (-1)%Z /\ includes s (x :: p) = false) \/
  (exists i, ChatHelpers.lastIndexOf s (x :: p) = Z.of_nat i /\
             startsWith (drop i s) (x :: p) = true /\
             includes (drop (S i) s) (x :: p) = false).
Proof.
  induction s as [|c s IH]; [left; split; reflexivity|].
  cbn [ChatHelpers.lastIndexOf]. destruct IH as [[-> Hs]|(i & -> & H1 & H2)].
  - cbn [Z.eqb]. destruct (startsWith (c :: s) (x :: p)) eqn:E.
    + right. exists 0. repeat split; [exact E | exact Hs].
    + left. split; [reflexivity|]. cbn [includes]. rewrite E, Hs. reflexivity.
  - destruct (Z.eqb_spec (Z.of_nat i) (-1)) as [|_]; [lia|].
    right. exists (S i). repeat split; [lia | exact H1 | exact H2].
Qed.

Lemma includes_suffix (a b p : jsstring) :
  includes b p = true -> includes (a ++ b) p = true.
Proof.
  rewrite !includes_true. intros (pre & post & ->). exists (a ++ pre), post.
  rewrite <- app_assoc. reflexivity.
Qed.

Lemma startsWith_includes (s p : jsstring) :
  startsWith s p = true -> includes s p = true.
Proof. intros H. destruct s; simpl; rewrite H; reflexivity. Qed.

(** The two names [parseMcpToolKey] returns, for a key that is a string
    and is not empty. Without the separator the key is the name of the
    tool. With it, the key is the name of the server, the separator and
    the name of the tool, and the split is at the last separator: none
    starts after it, so the name of the tool holds no separator and does
    not start with an underscore. *)
Theorem parseMcpToolKey_splits_at_last_separator (c : N) (key : jsstring) :
  let toolKey := c :: key in
  let parsed := ChatHelpers.parseMcpToolKey (VString toolKey) in
  (includes toolKey (lit "__") = false /\
   ChatHelpers.serverName parsed = [] /\ ChatHelpers.toolName parsed = toolKey) \/
  (includes toolKey (lit "__") = true /\
   toolKey = ChatHelpers.serverName parsed ++ lit "__" ++ ChatHelpers.toolName parsed /\
   includes (lit "_" ++ ChatHelpers.toolName parsed) (lit "__") = false).
Proof.
  cbv zeta. unfold ChatHelpers.parseMcpToolKey.
  change (lit "__") with (95%N :: [95%N]). cbv zeta.
  set (toolKey := c :: key).
  destruct (lastIndexOf_spec toolKey 95 [95%N]) as [[-> Hs]|(i & -> & H1 & H2)].
  - left. auto.
  - right. destruct (Z.eqb_spec (Z.of_nat i) (-1)) as [|_]; [lia|].
    cbn [ChatHelpers.serverName ChatHelpers.toolName]. rewrite Nat2Z.id.
    apply startsWith_true in H1 as [r Hr].
    assert (drop (i + length [95%N; 95%N]) toolKey = r) as ->.
    { rewrite <- drop_drop, Hr. reflexivity. }
    repeat split.
    + rewrite <- (take_drop i toolKey). apply includes_suffix. rewrite Hr.
      apply startsWith_includes, startsWith_true. eauto.
    + rewrite <- (take_drop i toolKey) at 1. rewrite Hr. reflexivity.
    + replace (lit "_" ++ r) with (drop (S i) toolKey); [exact H2|].
      replace (S i) with (i + 1) by lia. rewrite <- drop_drop, Hr. reflexivity.
Qed.

(** A key made of the name of a server, the separator and the name of a
    tool is split back into the two names when no separator starts in the
    name of the tool or at the underscore before it; the name of the server
    can hold separators. *)
Theorem parseMcpToolKey_inverts_the_key (server tool : jsstring) :
  includes (lit "_" ++ tool) (lit "__") = false ->
  ChatHelpers.parseMcpToolKey (VString (server ++ lit "__" ++ tool)) =
  {| ChatHelpers.serverName := server; ChatHelpers.toolName := tool |}.
Proof.
  intros Htool.
  assert (exists c key, server ++ lit "__" ++ tool = c :: key) as (c & key & E)
    by (destruct server; simpl; eauto).
  unfold ChatHelpers.parseMcpToolKey. rewrite E.
  change (lit "__") with (95%N :: [95%N]) in *. cbv zeta.
  destruct (lastIndexOf_spec (c :: key) 95 [95%N]) as [[_ Hs]|(i & -> & H1 & H2)].
  - exfalso. rewrite <- E in Hs.
    destruct (proj1 (includes_false _ _) Hs server tool). reflexivity.
  - destruct (Z.eqb_spec (Z.of_nat i) (-1)) as [|_]; [lia|]. rewrite Nat2Z.id.
    rewrite <- E in *. clear E c key.
    assert (i = length server) as ->.
    { destruct (Nat.lt_trichotomy i (length server)) as [Hlt|[Heq|Hgt]]; [|exact Heq|].
      - exfalso. rewrite drop_app_le in H2 by lia.
        assert (includes (drop (S i) server ++ [95%N; 95%N] ++ tool) [95%N; 95%N] = true)
          as Hin.
        { apply includes_suffix, startsWith_includes, startsWith_true. eauto. }
        congruence.
      - exfalso. rewrite drop_app_ge in H1 by lia.
        destruct (i - length server) as [|k] eqn:Ek; [lia|].
        change (drop (S k) ([95%N; 95%N] ++ tool)) with (drop k (lit "_" ++ tool)) in H1.
        apply startsWith_includes in H1.
        rewrite (includes_drop_false _ _ k Htool) in H1. discriminate. }
    f_equal.
    + apply take_app_length.
    + rewrite <- drop_drop, drop_app_length. reflexivity.
Qed.

Lemma parseMcpToolKey_inverts_the_key_witness :
  ChatHelpers.parseMcpToolKey (VString (lit "my__server" ++ lit "__" ++ lit "read_file")) =
  {| ChatHelpers.serverName := lit "my__server"; ChatHelpers.toolName := lit "read_file" |}.
Proof.
  apply (parseMcpToolKey_inverts_the_key (lit "my__server") (lit "read_file")).
  reflexivity.
Defined.

(** *** Where a pattern can be found in two texts joined *)

Lemma includes_prefix (a b p : jsstring) :
  includes a p = true -> includes (a ++ b) p = true.
Proof.
  rewrite !includes_true. intros (pre & post & ->). exists pre, (post ++ b).
  rewrite <- !app_assoc. reflexivity.
Qed.

(** When no end of the pattern starts [b], the pattern is found in
    [a ++ b] only inside [a] or inside [b]. *)
Lemma includes_app_right (a b p : jsstring) :
  forallb (fun k => negb (startsWith b (drop k p))) (seq 1 (length p - 1)) = true ->
  includes (a ++ b) p = includes a p || includes b p.
Proof.
  intros Hb. apply eq_true_iff_eq. rewrite orb_true_iff. split.
  - intros H. apply includes_true in H as (pre & post & E).
    apply app_eq_app in E as [l [[Ea Ep]|[Epre Eb]]].
    + symmetry in Ep. apply app_eq_app in Ep as [l' [[El Epost]|[Ep' Eb]]].
      * left. apply includes_true. exists pre, l'. rewrite Ea, El. reflexivity.
      * destruct l as [|y l].
        -- right. apply includes_true. exists [], post. rewrite Eb.
           simpl in Ep'. rewrite Ep'. reflexivity.
        -- destruct l' as [|y' l'].
           ++ left. apply includes_true. exists pre, []. rewrite Ea, Ep', !app_nil_r.
              reflexivity.
           ++ exfalso. rewrite forallb_forall in Hb.
              specialize (Hb (length (y :: l))).
              assert (startsWith b (drop (length (y :: l)) p) = true) as Hs.
              { rewrite Ep', drop_app_length. apply startsWith_true. eauto. }
              rewrite Hs in Hb. discriminate Hb. apply in_seq.
              rewrite Ep', length_app. simpl. lia.
    + right. apply includes_true. exists l, post. exact Eb.
  - intros [H|H]; [apply includes_prefix, H | apply includes_suffix, H].
Qed.

Lemma includes_longer (s p t : jsstring) :
  includes s p = false -> includes s (p ++ t) = false.
Proof.
  rewrite !includes_false. intros H pre post E. apply (H pre (t ++ post)).
  rewrite E, <- !app_assoc. reflexivity.
Qed.

Lemma forallb_take_drop (f : N -> bool) (n : nat) (s : jsstring) :
  forallb f s = true -> forallb f (take n s) = true /\ forallb f (drop n s) = true.
Proof.
  intros H. rewrite <- (take_drop n s), forallb_app in H.
  apply andb_true_iff in H. exact H.
Qed.

(** *** [handleToolCall] *)

Lemma parseMcpToolKey_keeps (f : N -> bool) (toolName : value) :
  match toolName with VString key => forallb f key = true | _ => True end ->
  forallb f (ChatHelpers.serverName (ChatHelpers.parseMcpToolKey toolName)) = true /\
  forallb f (ChatHelpers.toolName (ChatHelpers.parseMcpToolKey toolName)) = true.
Proof.
  destruct toolName as [[|c key]| | |json str|str]; intros H; try (split; reflexivity).
  unfold ChatHelpers.parseMcpToolKey. cbv zeta.
  destruct (_ =? _)%Z; cbn [ChatHelpers.serverName ChatHelpers.toolName].
  - split; [reflexivity | exact H].
  - split; eapply forallb_take_drop, H.
Qed.

Lemma no_checked_tag (response : jsstring)
  (context : ResponseValidator.ValidationContext) :
  (forall name, name ∈ CHECKED_TAGS ->
                includes response (lit "<dyad-" ++ lit name) = false) ->
  ResponseValidator.validateModeCompliance response context = [] /\
  hasUnclosedDyadWrite response = false.
Proof.
  intros H. split.
  - unfold ResponseValidator.validateModeCompliance, ResponseValidator.tagRegex.
    rewrite !test_without_literal by (apply H; unfold CHECKED_TAGS; set_solver).
    destruct context as [[] [[]|]]; reflexivity.
  - rewrite hasUnclosedDyadWrite_last. unfold openRegex.
    rewrite matchAll_without_literal; [reflexivity|].
    apply (H "write"). unfold CHECKED_TAGS. set_solver.
Qed.

(** What a tool call adds to the response opens no directive: as long as
    the key of the tool holds no [<], the chunk holds none of the four
    directives the mode check looks for, whatever the input of the call
    is, so the mode check finds nothing in it in any mode and no write
    directive is taken as unclosed. The chunk is empty, and the loop goes
    on, exactly for a call of [exec] under the Codex CLI that has an id,
    whose input is then kept under the id. *)
Theorem tool_call_opens_no_directive (toolName : value)
  (parsedInput : ChatHelpers.ExecInput) (json : option jsstring) (isCodexCli : bool)
  (toolCallId : option jsstring) (codexExecInputs : gmap (list N) ChatHelpers.ExecInput) :
  match toolName with VString key => forallb (non 60%N) key = true | _ => True end ->
  let out :=
    ChatHelpers.handleToolCall toolName parsedInput json isCodexCli toolCallId
      codexExecInputs in
  (forall name, name ∈ CHECKED_TAGS ->
                includes (ChatHelpers.chunk (fst out)) (lit "<dyad-" ++ lit name) = false) /\
  (forall context,
     ResponseValidator.validateModeCompliance (ChatHelpers.chunk (fst out)) context = []) /\
  hasUnclosedDyadWrite (ChatHelpers.chunk (fst out)) = false /\
  (ChatHelpers.shouldContinue (fst out) = true <-> ChatHelpers.chunk (fst out) = []) /\
  (ChatHelpers.shouldContinue (fst out) = true ->
   exists id, toolCallId = Some id /\ snd out = <[id := parsedInput]> codexExecInputs) /\
  (ChatHelpers.shouldContinue (fst out) = false -> snd out = codexExecInputs).
Proof.
  intros Hkey out.
  assert (forall name, name ∈ CHECKED_TAGS ->
            includes (ChatHelpers.chunk (fst out)) (lit "<dyad-" ++ lit name) = false)
    as Hno.
  { intros name Hname. unfold out, ChatHelpers.handleToolCall. cbv zeta.
    destruct (if isCodexCli && _ then _ else None) as [id|];
      cbn [fst ChatHelpers.chunk].
    { unfold CHECKED_TAGS in Hname. rewrite !elem_of_cons, elem_of_nil in Hname.
      destruct Hname as [-> | [-> | [-> | [-> | []]]]]; reflexivity. }
    destruct (parseMcpToolKey_keeps (non 60%N) toolName Hkey) as [Hs Ht].
    set (S := ChatHelpers.serverName (ChatHelpers.parseMcpToolKey toolName)) in *.
    set (T := ChatHelpers.toolName (ChatHelpers.parseMcpToolKey toolName)) in *.
    set (content := escapeDyadTags match json with
                                   | Some text => VString text
                                   | None => VUndefined
                                   end).
    assert (includes content (lit "<dyad-" ++ lit name) = false) as Hc.
    { change (lit "<dyad-" ++ lit name) with (lit "<dyad" ++ (45%N :: lit name)).
      apply includes_longer, escapeDyadTags_no_open. }
    change (lit "<dyad-mcp-tool-call server=" ++ Q ++ S ++ Q ++ lit " tool=" ++ Q ++ T
            ++ Q ++ lit ">" ++ NL ++ content ++ NL ++ lit "</dyad-mcp-tool-call>" ++ NL)
      with (60%N :: lit "dyad-mcp-tool-call server=" ++ Q ++ S ++ Q ++ lit " tool=" ++ Q
            ++ T ++ Q ++ lit ">" ++ NL ++ content ++ NL ++ lit "</dyad-mcp-tool-call>"
            ++ NL).
    cbn [includes]. apply orb_false_iff. split.
    { unfold CHECKED_TAGS in Hname. rewrite !elem_of_cons, elem_of_nil in Hname.
      destruct Hname as [-> | [-> | [-> | [-> | []]]]]; reflexivity. }
    replace (lit "dyad-mcp-tool-call server=" ++ Q ++ S ++ Q ++ lit " tool=" ++ Q ++ T
             ++ Q ++ lit ">" ++ NL ++ content ++ NL ++ lit "</dyad-mcp-tool-call>" ++ NL)
      with ((lit "dyad-mcp-tool-call server=" ++ Q ++ S ++ Q ++ lit " tool=" ++ Q ++ T
             ++ Q ++ lit ">" ++ NL)
            ++ content ++ NL ++ lit "</dyad-mcp-tool-call>" ++ NL)
      by (rewrite <- !app_assoc; reflexivity).
    change (lit "<dyad-" ++ lit name) with (60%N :: lit "dyad-" ++ lit name) in *.
    rewrite includes_after.
    2:{ rewrite !forallb_app, Hs, Ht. reflexivity. }
    rewrite includes_app_right.
    - rewrite Hc. unfold CHECKED_TAGS in Hname.
      rewrite !elem_of_cons, elem_of_nil in Hname.
      destruct Hname as [-> | [-> | [-> | [-> | []]]]]; reflexivity.
    - unfold CHECKED_TAGS in Hname. rewrite !elem_of_cons, elem_of_nil in Hname.
      destruct Hname as [-> | [-> | [-> | [-> | []]]]]; reflexivity. }
  split; [exact Hno|]. split; [intros context; apply no_checked_tag, Hno|].
  split; [apply (no_checked_tag _ {| ResponseValidator.mode := ResponseValidator.build;
                                     ResponseValidator.workflowStep := None |}), Hno|].
  unfold out, ChatHelpers.handleToolCall. cbv zeta.
  destruct (isCodexCli && _); [destruct toolCallId as [[|c id]|]|];
    cbn [fst snd ChatHelpers.chunk ChatHelpers.shouldContinue];
    repeat split; try discriminate; eauto.
Qed.

Lemma tool_call_opens_no_directive_witness :
  let out :=
    ChatHelpers.handleToolCall (VString (lit "files__read")) 
      {| ChatHelpers.command := None; ChatHelpers.cwd := None |}
      (Some (lit "{" ++ Q ++ lit "x" ++ Q ++ lit ":" ++ Q ++ lit "<dyad-write path=a>"
             ++ Q ++ lit "}"))
      false (Some (lit "call-1")) ∅ in
  (forall name, name ∈ CHECKED_TAGS ->
                includes (ChatHelpers.chunk (fst out)) (lit "<dyad-" ++ lit name) = false) /\
  (forall context,
     ResponseValidator.validateModeCompliance (ChatHelpers.chunk (fst out)) context = []) /\
  hasUnclosedDyadWrite (ChatHelpers.chunk (fst out)) = false /\
  (ChatHelpers.shouldContinue (fst out) = true <-> ChatHelpers.chunk (fst out) = []) /\
  (ChatHelpers.shouldContinue (fst out) = true ->
   exists id, Some (lit "call-1") = Some id /\
              snd out = <[id := {| ChatHelpers.command := None; ChatHelpers.cwd := None |}]> ∅) /\
  (ChatHelpers.shouldContinue (fst out) = false -> snd out = ∅).
Proof.
  apply (tool_call_opens_no_directive (VString (lit "files__read"))
           {| ChatHelpers.command := None; ChatHelpers.cwd := None |}
           (Some (lit "{" ++ Q ++ lit "x" ++ Q ++ lit ":" ++ Q ++ lit "<dyad-write path=a>"
                  ++ Q ++ lit "}"))
           false (Some (lit "call-1")) ∅).
  reflexivity.
Defined.

(** *** [codexPatchToDyadWrites] *)

Lemma startsWith_app_take (p a b : jsstring) (m : nat) :
  length p <= length a + m -> startsWith (a ++ b) p = true ->
  startsWith (a ++ take m b) p = true.
Proof.
  unfold startsWith. revert a b m. induction p as [|y p IH]; intros a b m Hm H;
    [reflexivity|].
  destruct a as [|c a].
  - destruct b as [|c b]; [discriminate H|]. destruct m as [|m]; [simpl in Hm; lia|].
    simpl in *. destruct (y =? c)%N; [|discriminate H].
    apply (IH [] b m); [simpl; lia | exact H].
  - simpl in *. destruct (y =? c)%N; [|discriminate H].
    apply (IH a b m); [lia | exact H].
Qed.

(** An occurrence that starts inside [a] ends at most one code unit short
    of the length of the pattern into what follows. *)
Lemma occurrence_before (a b p pre post : jsstring) :
  a ++ b = pre ++ p ++ post -> length pre < length a ->
  includes (a ++ take (length p - 1) b) p = true.
Proof.
  revert a. induction pre as [|c' pre IH]; intros a E Hlen.
  - apply startsWith_includes, startsWith_app_take.
    + destruct a; simpl in *; lia.
    + apply startsWith_true. exists post. exact E.
  - destruct a as [|c a]; [simpl in Hlen; lia|].
    simpl in E. injection E as _ E. simpl app. cbn [includes].
    rewrite (IH a E) by (simpl in Hlen; lia). apply orb_true_r.
Qed.

Lemma no_start_of (s p : jsstring) (j : nat) :
  includes s p = false -> startsWith (drop j s) p = false.
Proof.
  intros H. destruct (startsWith (drop j s) p) eqn:E; [|reflexivity].
  apply startsWith_includes in E. rewrite (includes_drop_false _ _ j H) in E.
  discriminate.
Qed.

Lemma scan_groups_nil (r : regex) (prev : option N) (i : nat) :
  run r [] None None [] = None -> blind r ->
  map group1 (scan r prev [] i 0) = [].
Proof.
  intros H Hr. cbn [scan]. rewrite (anchored_blind r prev [] i Hr).
  unfold anchored. rewrite H. reflexivity.
Qed.

(** A match at the start, and none in what follows it. *)
Lemma scan_groups_first (r : regex) (u v : jsstring) (g : option jsstring) :
  blind r -> u <> [] ->
  run r [] None None (u ++ v) = Some (v, g) ->
  (forall j, j < length v -> matches_here r (drop j v) = false) ->
  run r [] None None [] = None ->
  exists m, matchAll r (u ++ v) = [m] /\ index m = 0 /\ group1 m = g /\ matched m = u.
Proof.
  intros Hr Hu Hrun Hno Hnil. destruct u as [|c u]; [contradiction|].
  unfold matchAll. cbn [app scan]. unfold anchored at 1.
  change (c :: u ++ v) with ((c :: u) ++ v). rewrite Hrun.
  assert (take (length ((c :: u) ++ v) - length v) ((c :: u) ++ v) = c :: u) as ->
    by (rewrite length_app, Nat.add_sub; apply take_app_length).
  cbn [matched]. replace (length (c :: u) - 1) with (length u) by (simpl; lia).
  assert (scan r (Some c) (u ++ v) 1 (length u) = []) as ->.
  { assert (map group1 (scan r (Some c) (u ++ v) 1 (length u)) = []) as Hm.
    { rewrite (scan_groups_skip r Hr) by (rewrite length_app; lia).
      rewrite drop_app_length. rewrite <- (app_nil_r v) at 1.
      rewrite (scan_groups_nomatch r Hr).
      - apply scan_groups_nil; assumption.
      - intros j Hj. rewrite app_nil_r. apply Hno, Hj. }
    destruct (scan r (Some c) (u ++ v) 1 (length u)); [reflexivity | discriminate Hm]. }
  eexists. split; [reflexivity|]. repeat split.
Qed.

Section CodexWrite.

(** [P] is a path that was escaped and [E] a content that was. *)
Variables (P E : jsstring).
Hypothesis HP : P <> [].
Hypothesis HPsafe : forallb (fun c => negb ((c =? 60) || (c =? 62) || (c =? 34))%N) P = true.
Hypothesis HEopen : includes E (lit "<dyad") = false.
Hypothesis HEclose : includes E (lit "</dyad") = false.

Let DESC : jsstring :=
  lit " description=" ++ Q ++ lit "Update from Codex patch" ++ Q ++ lit ">".
Let w : jsstring := write_open P ++ DESC ++ E ++ CLOSE_WRITE.

Lemma codex_path_non (x : N) : (x = 60 \/ x = 62 \/ x = 34)%N -> forallb (non x) P = true.
Proof.
  intros Hx. apply forallb_forall. intros c Hc.
  rewrite forallb_forall in HPsafe. specialize (HPsafe c Hc).
  unfold non. destruct Hx as [-> | [-> | ->]];
    destruct (c =? 60)%N, (c =? 62)%N, (c =? 34)%N; try discriminate; reflexivity.
Qed.

Lemma content_then_close_has_no_open :
  includes (E ++ CLOSE_WRITE) OPEN_WRITE = false.
Proof.
  rewrite includes_app_right by reflexivity.
  change OPEN_WRITE with (lit "<dyad" ++ lit "-write").
  rewrite (includes_longer _ _ _ HEopen). reflexivity.
Qed.

Lemma rest_has_no_open : includes (DESC ++ E ++ CLOSE_WRITE) OPEN_WRITE = false.
Proof.
  change OPEN_WRITE with (60%N :: lit "dyad-write").
  rewrite includes_after by reflexivity. apply content_then_close_has_no_open.
Qed.

Lemma codex_write_paths :
  map group1 (matchAll ResponseValidator.pathRegex w) = [Some P].
Proof.
  pose proof (paths_of_directives None 0 [] [(P, DESC ++ E ++ CLOSE_WRITE)]) as H.
  unfold render in H. cbn [flat_map fst snd map app] in H.
  rewrite app_nil_r in H. unfold matchAll, w. apply H.
  - intros j Hj. simpl in Hj. lia.
  - split; [exact HP|]. split; [apply codex_path_non; auto|]. split; [|exact I].
    intros j _. cbn [render flat_map]. rewrite app_nil_r.
    apply no_start_of, rest_has_no_open.
Qed.

(** The closing tag is found at the end of the content, not before. *)
Lemma close_is_first (a : jsstring) :
  includes (a ++ take 12 CLOSE_WRITE) CLOSE_WRITE = false ->
  split_first CLOSE_WRITE (a ++ CLOSE_WRITE) = Some (a, []).
Proof.
  intros H. apply split_first_iff. split; [rewrite app_nil_r; reflexivity|].
  intros pre' post' E'. destruct (Nat.le_gt_cases (length a) (length pre')) as [|Hlt];
    [assumption|].
  pose proof (occurrence_before a CLOSE_WRITE CLOSE_WRITE pre' post' E' Hlt) as Ho.
  change (length CLOSE_WRITE - 1) with 12 in Ho. congruence.
Qed.

Lemma content_has_no_close :
  includes (E ++ take 12 CLOSE_WRITE) CLOSE_WRITE = false.
Proof.
  rewrite includes_app_right by reflexivity.
  change CLOSE_WRITE with (lit "</dyad" ++ lit "-write>") at 1.
  rewrite (includes_longer _ _ _ HEclose). reflexivity.
Qed.

Lemma before_close_has_no_close :
  includes ((write_open P ++ DESC ++ E) ++ take 12 CLOSE_WRITE) CLOSE_WRITE = false.
Proof.
  unfold write_open, DESC. rewrite <- !app_assoc.
  change (OPEN_WRITE ++ lit " path=" ++ Q ++ P ++ Q ++ lit " description=" ++ Q
          ++ lit "Update from Codex patch" ++ Q ++ lit ">" ++ E ++ take 12 CLOSE_WRITE)
    with (60%N :: lit "dyad-write path=" ++ Q ++ P ++ Q ++ lit " description=" ++ Q
          ++ lit "Update from Codex patch" ++ Q ++ lit ">" ++ E ++ take 12 CLOSE_WRITE).
  cbn [includes]. apply orb_false_iff. split; [reflexivity|].
  replace (lit "dyad-write path=" ++ Q ++ P ++ Q ++ lit " description=" ++ Q
           ++ lit "Update from Codex patch" ++ Q ++ lit ">" ++ E ++ take 12 CLOSE_WRITE)
    with ((lit "dyad-write path=" ++ Q ++ P ++ Q ++ lit " description=" ++ Q
           ++ lit "Update from Codex patch" ++ Q ++ lit ">")
          ++ E ++ take 12 CLOSE_WRITE)
    by (rewrite <- !app_assoc; reflexivity).
  change CLOSE_WRITE with (60%N :: lit "/dyad-write>") at 2.
  rewrite includes_after.
  - apply content_has_no_close.
  - rewrite !forallb_app, (codex_path_non 60) by auto. reflexivity.
Qed.

Let attrs : jsstring :=
  lit " path=" ++ Q ++ P ++ Q ++ lit " description=" ++ Q
  ++ lit "Update from Codex patch" ++ Q.

Lemma codex_write_shape : w = OPEN_WRITE ++ attrs ++ GT :: (E ++ CLOSE_WRITE).
Proof. unfold w, write_open, DESC, attrs. rewrite <- !app_assoc. reflexivity. Qed.

Lemma codex_attrs_non_GT : forallb (non GT) attrs = true.
Proof. unfold attrs. rewrite !forallb_app, (codex_path_non GT) by (unfold GT; auto). reflexivity. Qed.

Lemma run_after_open (k : regex) (prev : option N) :
  run (Lit (lit "<dyad-write") :: Star (non GT) :: Lit (lit ">") :: k) [] None prev w =
  run k [] None (Some GT) (E ++ CLOSE_WRITE).
Proof.
  rewrite codex_write_shape, run_lit_cons. change (lit "<dyad-write") with OPEN_WRITE.
  destruct (literal_id_app OPEN_WRITE prev (attrs ++ GT :: (E ++ CLOSE_WRITE))) as [pv ->].
  change (run (Star (non GT) :: Lit (lit ">") :: k) [] None pv
            (attrs ++ GT :: (E ++ CLOSE_WRITE)))
    with (greedy (non GT) (run (Lit (lit ">") :: k) [] None) pv
            (attrs ++ GT :: (E ++ CLOSE_WRITE))).
  rewrite greedy_until.
  - rewrite dropWhile_app by (apply codex_attrs_non_GT || reflexivity).
    rewrite run_lit_cons. cbn [literal lit map list_ascii_of_string].
    unfold id. change (N_of_ascii ">" =? GT)%N with true. reflexivity.
  - intros p p' u. rewrite !run_lit_cons. destruct u as [|b u]; [reflexivity|].
    cbn [literal lit map list_ascii_of_string].
    destruct (id (N_of_ascii ">") =? id b)%N; reflexivity.
  - intros p b u Hb. rewrite run_lit_cons. cbn [literal lit map list_ascii_of_string].
    unfold id. change (N_of_ascii ">") with GT.
    apply N.eqb_neq in Hb. rewrite N.eqb_sym, Hb. reflexivity.
Qed.

Lemma codex_write_open :
  exists m, matchAll openRegex w = [m] /\ index m = 0.
Proof.
  pose proof (run_after_open [] None) as Hrun. cbn [run] in Hrun.
  destruct (scan_groups_first openRegex (OPEN_WRITE ++ attrs ++ [GT]) (E ++ CLOSE_WRITE) None)
    as (m & Hm & Hi & _).
  - apply openRegex_blind.
  - discriminate.
  - rewrite <- Hrun, codex_write_shape. unfold openRegex. rewrite <- !app_assoc. reflexivity.
  - intros j _. unfold matches_here, openRegex. rewrite run_lit_needs; [reflexivity|].
    apply no_start_of, content_then_close_has_no_open.
  - reflexivity.
  - exists m. split; [|exact Hi]. rewrite <- Hm, codex_write_shape, <- !app_assoc. reflexivity.
Qed.

Lemma codex_write_content :
  map group1 (matchAll ResponseValidator.writeTagRegex w) = [Some E].
Proof.
  assert (run ResponseValidator.writeTagRegex [] None None w = Some ([], Some E)) as Hrun.
  { unfold ResponseValidator.writeTagRegex. rewrite run_after_open.
    change (run [GroupOpen; Lazy any; GroupClose; Lit (lit "</dyad-write>")] [] None
              (Some GT) (E ++ CLOSE_WRITE))
      with (reluctant any (run [GroupClose; Lit CLOSE_WRITE] (E ++ CLOSE_WRITE) None)
              (Some GT) (E ++ CLOSE_WRITE)).
    rewrite (reluctant_until CLOSE_WRITE (E ++ CLOSE_WRITE) [] (E ++ CLOSE_WRITE)
               (Some GT) eq_refl).
    rewrite (close_is_first E content_has_no_close). reflexivity. }
  destruct (scan_groups_first ResponseValidator.writeTagRegex w [] (Some E))
    as (m & Hm & _ & Hg & _).
  - apply no_lookbehind_blind. reflexivity.
  - rewrite codex_write_shape. discriminate.
  - rewrite app_nil_r. exact Hrun.
  - intros j Hj. simpl in Hj. lia.
  - reflexivity.
  - rewrite app_nil_r in Hm. rewrite Hm. cbn [map]. rewrite Hg. reflexivity.
Qed.

Lemma codex_write_close :
  map group1 (matchAll closeRegex w) = [None].
Proof.
  unfold matchAll, w.
  replace (write_open P ++ DESC ++ E ++ CLOSE_WRITE)
    with ((write_open P ++ DESC ++ E) ++ CLOSE_WRITE)
    by (rewrite <- !app_assoc; reflexivity).
  rewrite (scan_groups_nomatch closeRegex closeRegex_blind).
  - vm_compute. reflexivity.
  - intros j Hj. unfold closeRegex. rewrite lit_here.
    destruct (startsWith (drop j ((write_open P ++ DESC ++ E) ++ CLOSE_WRITE))
                (lit "</dyad-write>")) eqn:Es; [|reflexivity].
    exfalso. apply startsWith_true in Es as [r Er].
    pose proof (occurrence_before (write_open P ++ DESC ++ E) CLOSE_WRITE CLOSE_WRITE
                  (take j ((write_open P ++ DESC ++ E) ++ CLOSE_WRITE)) r) as Ho.
    change (length CLOSE_WRITE - 1) with 12 in Ho.
    rewrite before_close_has_no_close in Ho.
    assert (false = true) as Hf; [|discriminate Hf]. apply Ho.
    + rewrite <- (take_drop j ((write_open P ++ DESC ++ E) ++ CLOSE_WRITE)) at 1.
      rewrite Er. reflexivity.
    + rewrite length_take. lia.
Qed.

Lemma codex_write_ok :
  map group1 (matchAll ResponseValidator.pathRegex w) = [Some P] /\
  map group1 (matchAll ResponseValidator.writeTagRegex w) = [Some E] /\
  ResponseValidator.validateDyadTagStructure w = [] /\
  hasUnclosedDyadWrite w = false.
Proof.
  split; [apply codex_write_paths|]. split; [apply codex_write_content|].
  destruct codex_write_open as (m & Hm & Hi). split.
  - unfold ResponseValidator.validateDyadTagStructure.
    change ResponseValidator.writeOpenRegex with openRegex.
    change ResponseValidator.writeCloseRegex with closeRegex.
    assert (length (matchAll closeRegex w) = 1) as Hc
      by (rewrite <- (length_map group1), codex_write_close; reflexivity).
    cbv zeta. rewrite Hm, Hc. reflexivity.
  - rewrite hasUnclosedDyadWrite_last, Hm. cbn [last]. rewrite Hi, drop_0.
    unfold w. rewrite !app_assoc. rewrite includes_suffix; [reflexivity|].
    apply startsWith_includes, startsWith_true. exists []. rewrite app_nil_r. reflexivity.
Qed.

End CodexWrite.


(** Each write directive made from a Codex patch comes from a change with
    a path that is not empty and a content, and is well formed whatever
    the path and the content hold: read back with the regular expressions
    of the validator, the directive has the escaped path as its path and
    the escaped content as its content, one opening and one closing tag,
    and nothing left unclosed. A content that holds a closing tag, or a
    path that holds a quote, does not end the directive early. *)
Theorem codex_patch_writes_are_well_formed (changes : option (list ChatHelpers.Change))
  (w : jsstring) :
  In w (ChatHelpers.codexPatchToDyadWrites changes) ->
  exists change path content,
    In change (default [] changes) /\
    change_write change = Some (path, content) /\
    w = codex_write path content /\
    map group1 (matchAll ResponseValidator.pathRegex w) =
      [Some (ChatHelpers.escapeXml path)] /\
    map group1 (matchAll ResponseValidator.writeTagRegex w) =
      [Some (escapeDyadTags (VString content))] /\
    ResponseValidator.validateDyadTagStructure w = [] /\
    hasUnclosedDyadWrite w = false.
Proof.
  intros Hw. unfold ChatHelpers.codexPatchToDyadWrites in Hw.
  apply in_flat_map in Hw as (change & Hin & Hw).
  assert (exists path content,
             change_write change = Some (path, content) /\ path <> [] /\
             w = codex_write path content) as (path & content & Hc & Hne & ->).
  { unfold change_write. destruct (ChatHelpers.path change) as [[|c path]|];
      try (destruct (ChatHelpers.content change); destruct Hw); 
      cbv zeta in Hw.
    destruct (ChatHelpers.content change) as [text|].
    - destruct Hw as [<-|[]]. exists (c :: path), text. repeat split. discriminate.
    - destruct (ChatHelpers.new_content change) as [text|]; [|destruct Hw].
      destruct Hw as [<-|[]]. exists (c :: path), text. repeat split. discriminate. }
  exists change, path, content. split; [exact Hin|]. split; [exact Hc|].
  split; [reflexivity|].
  assert (ChatHelpers.escapeXml path <> []) as HP.
  { rewrite escapeXml_entities. destruct path as [|c path]; [contradiction|].
    cbn [flat_map]. pose proof (entity_length c). destruct (entity c); [simpl in *; lia|].
    discriminate. }
  pose proof (codex_write_ok (ChatHelpers.escapeXml path) (escapeDyadTags (VString content))
                HP (escapeXml_safe path) (escapeDyadTags_no_open _)
                (escapeDyadTags_no_close _)) as H.
  unfold codex_write.
  replace (lit "<dyad-write path=" ++ Q ++ ChatHelpers.escapeXml path ++ Q
           ++ lit " description=" ++ Q ++ lit "Update from Codex patch" ++ Q
           ++ lit ">" ++ escapeDyadTags (VString content) ++ lit "</dyad-write>")
    with (write_open (ChatHelpers.escapeXml path)
          ++ (lit " description=" ++ Q ++ lit "Update from Codex patch" ++ Q ++ lit ">")
          ++ escapeDyadTags (VString content) ++ CLOSE_WRITE).
  - exact H.
  - unfold write_open. rewrite <- !app_assoc. reflexivity.
Qed.

Lemma codex_patch_writes_are_well_formed_witness :
  let given :=
    {| ChatHelpers.path := Some (lit "a<b" ++ Q ++ lit ".ts");
       ChatHelpers.content := None;
       ChatHelpers.new_content := Some (lit "x</dyad-write>y") |} in
  let w := codex_write (lit "a<b" ++ Q ++ lit ".ts") (lit "x</dyad-write>y") in
  exists change path content,
    In change (default [] (Some [given])) /\
    change_write change = Some (path, content) /\
    w = codex_write path content /\
    map group1 (matchAll ResponseValidator.pathRegex w) =
      [Some (ChatHelpers.escapeXml path)] /\
    map group1 (matchAll ResponseValidator.writeTagRegex w) =
      [Some (escapeDyadTags (VString content))] /\
    ResponseValidator.validateDyadTagStructure w = [] /\
    hasUnclosedDyadWrite w = false.
Proof.
  intros given w.
  apply (codex_patch_writes_are_well_formed (Some [given]) w).
  left. vm_compute. reflexivity.
Defined.

(** ** The commands that run without being confirmed *)

Lemma startsWith_app (s p rest : jsstring) :
  startsWith s p = true -> startsWith (s ++ rest) p = true.
Proof.
  rewrite !startsWith_true. intros [r ->]. exists (r ++ rest).
  rewrite <- app_assoc. reflexivity.
Qed.

Lemma dropWhile_keeps (f : N -> bool) (a : jsstring) (x : N) (b : jsstring) :
  f x = false -> exists a', dropWhile f (a ++ x :: b) = a' ++ x :: b.
Proof.
  intros Hx. induction a as [|c a (a' & IH)]; simpl.
  - rewrite Hx. exists []. reflexivity.
  - destruct (f c); [eauto|]. exists (c :: a). reflexivity.
Qed.

(** What a trimmed text starts with, it starts with when the text goes
    on, as long as this start neither begins nor ends with white space. *)
Lemma trim_keeps_start (h l : N) (p' p s rest : jsstring) :
  p = h :: p' -> rev p = l :: rev (removelast p) ->
  is_space h = false -> is_space l = false ->
  startsWith (trim s) p = true -> startsWith (trim (s ++ rest)) p = true.
Proof.
  intros Ep Er Hh Hl H. unfold trim in *.
  destruct (dropWhile_split is_space s) as (ws & Es & Hws).
  set (d := dropWhile is_space s) in *.
  assert (exists y, d = p ++ y) as [y Ed].
  { apply startsWith_true in H as [r Hr].
    destruct (dropWhile_split is_space (rev d)) as (ts & Et & _).
    apply (f_equal (@rev N)) in Et. rewrite rev_involutive, rev_app_distr, Hr in Et.
    exists (r ++ rev ts). rewrite Et, app_assoc. reflexivity. }
  assert (dropWhile is_space (s ++ rest) = p ++ y ++ rest) as ->.
  { rewrite Es, Ed, Ep, <- !app_assoc. simpl app.
    rewrite dropWhile_app by assumption. reflexivity. }
  assert (rev (p ++ y ++ rest) = (rev rest ++ rev y) ++ l :: rev (removelast p)) as ->
    by (rewrite !rev_app_distr, Er, <- app_assoc; reflexivity).
  destruct (dropWhile_keeps is_space (rev rest ++ rev y) l (rev (removelast p)) Hl)
    as [a' ->].
  rewrite <- Er, rev_app_distr, rev_involutive.
  apply startsWith_true. exists (rev a'). reflexivity.
Qed.

Lemma safePrefixes_shape (prefix : jsstring) :
  In prefix RunCommand.safePrefixes ->
  exists h l p',
    prefix = h :: p' /\ rev prefix = l :: rev (removelast prefix) /\
    is_space h = false /\ is_space l = false.
Proof.
  intros H. unfold RunCommand.safePrefixes in H. simpl in H.
  repeat (destruct H as [<-|H];
          [eexists _, _, _; repeat split; try reflexivity|]).
  destruct H.
Qed.

Lemma isEphemeralCommand_app (command rest : jsstring) :
  RunCommand.isEphemeralCommand command = true ->
  RunCommand.isEphemeralCommand (command ++ rest) = true.
Proof.
  unfold RunCommand.isEphemeralCommand. cbv zeta. rewrite !existsb_exists.
  intros (prefix & Hin & Hs). exists prefix. split; [exact Hin|].
  destruct (safePrefixes_shape prefix Hin) as (h & l & p' & Ep & Er & Hh & Hl).
  apply (trim_keeps_start h l p' prefix command rest Ep Er Hh Hl Hs).
Qed.

(** A command that counts as safe, and so can run without being
    confirmed, still counts as safe whatever is added at its end: the test
    looks at how the command starts, not at what follows. The same holds
    of the commands that count as ephemeral. *)
Theorem safe_command_stays_safe_when_extended (command rest : jsstring) :
  RunCommand.isSafeFlutterCommand command = true ->
  RunCommand.isSafeFlutterCommand (command ++ rest) = true /\
  (RunCommand.isEphemeralCommand command = true ->
   RunCommand.isEphemeralCommand (command ++ rest) = true).
Proof.
  intros H. split; [|apply isEphemeralCommand_app].
  unfold RunCommand.isSafeFlutterCommand in *.
  apply orb_true_iff in H. destruct H as [H|H];
    [|rewrite (isEphemeralCommand_app _ _ H); apply orb_true_r].
  repeat (apply orb_true_iff in H; destruct H as [H|H]);
    rewrite (startsWith_app _ _ rest H);
    repeat (rewrite orb_true_r || rewrite orb_true_l); reflexivity.
Qed.

Lemma safe_command_stays_safe_when_extended_witness :
  RunCommand.isSafeFlutterCommand (lit "ls" ++ lit "; rm -rf ~") = true /\
  (RunCommand.isEphemeralCommand (lit "ls") = true ->
   RunCommand.isEphemeralCommand (lit "ls" ++ lit "; rm -rf ~") = true).
Proof.
  apply (safe_command_stays_safe_when_extended (lit "ls") (lit "; rm -rf ~")).
  reflexivity.
Defined.

(** ** Taking tags out of a text *)

Lemma dropWhile_head (f : N -> bool) (s : jsstring) (c : N) (r : jsstring) :
  dropWhile f s = c :: r -> f c = false.
Proof.
  induction s as [|x s IH]; simpl; [discriminate|].
  destruct (f x) eqn:E; [exact IH|]. intros [= <- _]. exact E.
Qed.

Lemma dropWhile_fixed (f : N -> bool) (c : N) (r : jsstring) :
  f c = false -> dropWhile f (c :: r) = c :: r.
Proof. intros H. simpl. rewrite H. reflexivity. Qed.

(** What [trim] returns is the text without the white space around it,
    and neither starts nor ends with white space. *)
Lemma trim_spec (s : jsstring) :
  exists a b, s = a ++ trim s ++ b /\
              (trim s = [] \/
               exists h l m t, trim s = h :: m /\ rev (trim s) = l :: t /\
                               is_space h = false /\ is_space l = false).
Proof.
  unfold trim.
  destruct (dropWhile_split is_space s) as (a & Es & _).
  destruct (dropWhile_split is_space (rev (dropWhile is_space s))) as (b & Eb & _).
  remember (dropWhile is_space s) as d eqn:Hd.
  remember (dropWhile is_space (rev d)) as X eqn:HX.
  assert (d = rev X ++ rev b) as Ed.
  { apply (f_equal (@rev N)) in Eb. rewrite rev_involutive, rev_app_distr in Eb. exact Eb. }
  exists a, (rev b). split; [rewrite Es at 1; rewrite Ed; reflexivity|].
  destruct X as [|l X']; [left; reflexivity|]. right.
  pose proof (dropWhile_head is_space (rev d) l X' (eq_sym HX)) as Hl.
  destruct (rev (l :: X')) as [|h m] eqn:Er.
  { apply (f_equal (@length N)) in Er. rewrite length_rev in Er. discriminate Er. }
  exists h, l, m, X'. repeat split.
  - rewrite <- Er, rev_involutive. reflexivity.
  - apply (dropWhile_head is_space s h (m ++ rev b)). rewrite <- Hd, Ed. reflexivity.
  - exact Hl.
Qed.

Lemma trim_trim (s : jsstring) : trim (trim s) = trim s.
Proof.
  destruct (trim_spec s) as (a & b & _ & [E|(h & l & m & t & Eh & El & Hh & Hl)]).
  - rewrite E. reflexivity.
  - unfold trim at 1. rewrite Eh at 1. rewrite (dropWhile_fixed _ _ _ Hh), <- Eh.
    rewrite El, (dropWhile_fixed _ _ _ Hl), <- El. apply rev_involutive.
Qed.

Lemma trim_includes (s p : jsstring) :
  includes s p = false -> includes (trim s) p = false.
Proof.
  destruct (trim_spec s) as (a & b & E & _). rewrite !includes_false.
  intros H pre post Et. apply (H (a ++ pre) (post ++ b)).
  rewrite E at 1. rewrite Et, <- !app_assoc. reflexivity.
Qed.

(** *** Replacing the matches of a regular expression *)

Lemma replacing_none (r : regex) (rep s : jsstring) :
  (forall prev a t, s = a ++ t -> run r [] None prev t = None) ->
  forall prev, replacing r rep prev s 0 = s.
Proof.
  induction s as [|c s IH]; intros H prev; cbn [replacing]; unfold anchored.
  - rewrite (H prev [] [] eq_refl). reflexivity.
  - rewrite (H prev [] (c :: s) eq_refl). f_equal. apply IH.
    intros prev' a t ->. apply (H prev' (c :: a) t). reflexivity.
Qed.

Lemma replaceAll_without_literal (p : jsstring) (r : regex) (rep s : jsstring) :
  includes s p = false -> replaceAll (Lit p :: r) rep s = s.
Proof.
  intros H. apply replacing_none. intros prev a t ->.
  apply run_lit_needs. apply (suffix_includes a), H.
Qed.

Section Replacing.

Variable r : regex.
Hypothesis Hr : blind r.
Variable rep : jsstring.

Lemma replacing_match (u rest : jsstring) (g : option jsstring) (prev : option N) :
  u <> [] -> run r [] None None (u ++ rest) = Some (rest, g) ->
  replacing r rep prev (u ++ rest) 0 = rep ++ replacing r rep None rest 0.
Proof.
  intros Hu Hrun. destruct u as [|c u]; [contradiction|].
  cbn [app replacing]. rewrite (anchored_blind r prev _ 0 Hr). unfold anchored.
  change (c :: u ++ rest) with ((c :: u) ++ rest). rewrite Hrun.
  assert (take (length ((c :: u) ++ rest) - length rest) ((c :: u) ++ rest) = c :: u) as ->
    by (rewrite length_app, Nat.add_sub; apply take_app_length).
  cbn [matched length]. f_equal.
  rewrite (replacing_skip r rep (Some c) (u ++ rest) (length u) Hr)
    by (rewrite length_app; lia).
  rewrite drop_app_length. reflexivity.
Qed.

Lemma replacing_prefix (a b : jsstring) (prev : option N) :
  (forall j, j < length a -> matches_here r (drop j (a ++ b)) = false) ->
  replacing r rep prev (a ++ b) 0 = a ++ replacing r rep None b 0.
Proof.
  revert prev. induction a as [|c a IH]; intros prev H.
  - apply replacing_blind, Hr.
  - cbn [app replacing].
    assert (anchored r prev (c :: a ++ b) 0 = None) as ->.
    { rewrite (anchored_blind r prev _ 0 Hr).
      destruct (anchored r None (c :: a ++ b) 0) eqn:E; [|reflexivity].
      assert (is_Some (anchored r None (c :: a ++ b) 0)) as Hs by eauto.
      apply anchored_matches_here in Hs.
      specialize (H 0 ltac:(simpl; lia)). simpl in H. congruence. }
    f_equal. apply IH. intros j Hj. apply (H (S j)). simpl. lia.
Qed.

End Replacing.

(** The first occurrence of [p] in [a ++ p ++ post] is the one after [a]
    when none starts inside [a]. *)
Lemma first_split_at (a p post : jsstring) :
  includes (a ++ take (length p - 1) (p ++ post)) p = false ->
  split_first p (a ++ p ++ post) = Some (a, post).
Proof.
  intros H. apply split_first_iff. split; [reflexivity|].
  intros pre' post' E'. destruct (Nat.le_gt_cases (length a) (length pre')) as [|Hlt];
    [assumption|].
  pose proof (occurrence_before a (p ++ post) p pre' post' E' Hlt) as Ho. congruence.
Qed.

Lemma split_first_absent (p s : jsstring) :
  includes s p = false -> split_first p s = None.
Proof.
  intros H. destruct (split_first p s) as [[pre post]|] eqn:E; [|reflexivity].
  apply split_first_Some in E as [E _].
  destruct (proj1 (includes_false _ _) H pre post E).
Qed.

Lemma no_match_before (r : regex) (p a b : jsstring) :
  (forall t, startsWith t p = false -> matches_here r t = false) ->
  includes (a ++ take (length p - 1) b) p = false ->
  forall j, j < length a -> matches_here r (drop j (a ++ b)) = false.
Proof.
  intros Hr H j Hj. apply Hr.
  destruct (startsWith (drop j (a ++ b)) p) eqn:Es; [|reflexivity].
  exfalso. apply startsWith_true in Es as [t Et].
  pose proof (occurrence_before a b p (take j (a ++ b)) t) as Ho.
  rewrite H in Ho. assert (false = true) as Hf; [|discriminate Hf]. apply Ho.
  - rewrite <- (take_drop j (a ++ b)) at 1. rewrite Et. reflexivity.
  - rewrite length_take. rewrite length_app. lia.
Qed.

(** *** The reasoning blocks *)

Lemma run_think (prev : option N) (s : jsstring) :
  run ChatTags.thinkRegex [] None prev s =
  match strip (lit "<think>") s with
  | Some u =>
      match split_first (lit "</think>") u with
      | Some (g, post) => Some (post, Some g)
      | None => None
      end
  | None => None
  end.
Proof.
  unfold ChatTags.thinkRegex. rewrite run_lit_cons.
  rewrite <- (literal_id_strip (lit "<think>") prev s).
  destruct (literal id (lit "<think>") prev s) as [[pv u]|];
    cbn [fmap option_fmap option_map snd]; cbv iota beta; [|reflexivity].
  change (run (GroupOpen :: Lazy any :: [GroupClose; Lit (lit "</think>")]) [] None pv u)
    with (reluctant any (run [GroupClose; Lit (lit "</think>")] u None) pv u).
  rewrite (reluctant_until (lit "</think>") u [] u pv eq_refl).
  destruct (split_first (lit "</think>") u) as [[g post]|]; reflexivity.
Qed.

Lemma thinkRegex_blind : blind ChatTags.thinkRegex.
Proof. apply no_lookbehind_blind. reflexivity. Qed.

Lemma think_needs_open (t : jsstring) :
  startsWith t (lit "<think>") = false -> matches_here ChatTags.thinkRegex t = false.
Proof.
  intros H. unfold matches_here, ChatTags.thinkRegex. rewrite run_lit_needs; [reflexivity|].
  exact H.
Qed.

(** A reasoning block is taken out with its two tags, and what stands
    around it is kept and trimmed: this for a text with one block, whose
    reasoning holds no closing tag, and no opening tag before or after the
    block. A block that is not closed is not taken out: without a closing
    tag in the text, the text is only trimmed. *)
Theorem think_block_is_removed (text pre body post : jsstring) :
  text = pre ++ lit "<think>" ++ body ++ lit "</think>" ++ post ->
  includes pre (lit "<think>") = false ->
  includes body (lit "</think>") = false ->
  includes post (lit "<think>") = false ->
  ChatTags.removeThinkingTags text = trim (pre ++ post) /\
  (forall open, includes open (lit "</think>") = false ->
                ChatTags.removeThinkingTags open = trim open).
Proof.
  intros -> Hpre Hbody Hpost. split.
  - unfold ChatTags.removeThinkingTags, replaceAll. f_equal.
    rewrite (replacing_prefix _ thinkRegex_blind).
    + f_equal.
      replace (lit "<think>" ++ body ++ lit "</think>" ++ post)
        with ((lit "<think>" ++ body ++ lit "</think>") ++ post)
        by (rewrite <- !app_assoc; reflexivity).
      rewrite (replacing_match _ thinkRegex_blind [] _ post (Some body)).
      * cbn [app]. apply replacing_none. intros prev a t ->.
        apply run_lit_needs. apply (suffix_includes a), Hpost.
      * discriminate.
      * rewrite run_think, <- !app_assoc, strip_app.
        rewrite first_split_at; [reflexivity|].
        change (take (length (lit "</think>") - 1) (lit "</think>" ++ post))
          with (lit "</think").
        rewrite includes_app_right by reflexivity. rewrite Hbody. reflexivity.
    + apply (no_match_before _ (lit "<think>")); [apply think_needs_open|].
      change (take (length (lit "<think>") - 1)
                (lit "<think>" ++ body ++ lit "</think>" ++ post))
        with (lit "<think").
      rewrite includes_app_right by reflexivity. rewrite Hpre. reflexivity.
  - intros open Hopen. unfold ChatTags.removeThinkingTags, replaceAll. f_equal.
    apply replacing_none. intros prev a t ->. rewrite run_think.
    destruct (strip (lit "<think>") t) as [u|] eqn:E; [|reflexivity].
    apply strip_Some in E. rewrite split_first_absent; [reflexivity|].
    apply includes_false. intros pre' post' E'.
    apply (proj1 (includes_false _ _) Hopen (a ++ lit "<think>" ++ pre') post').
    rewrite E, E', <- !app_assoc. reflexivity.
Qed.

Lemma think_block_is_removed_witness :
  ChatTags.removeThinkingTags
    (lit "  " ++ lit "<think>" ++ lit "plan" ++ lit "</think>" ++ lit " Done. ") =
    trim (lit "  " ++ lit " Done. ") /\
  (forall open, includes open (lit "</think>") = false ->
                ChatTags.removeThinkingTags open = trim open).
Proof.
  apply (think_block_is_removed _ (lit "  ") (lit "plan") (lit " Done. "));
    reflexivity.
Defined.

(** A text that holds neither [<think>] nor [<dyad-] goes through the
    removers unchanged but for the white space around it: each of them
    trims it, and so do they one after the other. *)
Theorem text_without_tags_is_trimmed (text : jsstring) :
  includes text (lit "<think>") = false ->
  includes text (lit "<dyad-") = false ->
  ChatTags.removeThinkingTags text = trim text /\
  ChatTags.removeProblemReportTags text = trim text /\
  ChatTags.removeDyadTags text = trim text /\
  ChatTags.removeNonEssentialTags text = trim text /\
  ChatTags.removeDyadTags (ChatTags.removeNonEssentialTags text) = trim text.
Proof.
  intros Ht Hd.
  assert (forall s, includes s (lit "<think>") = false ->
                    ChatTags.removeThinkingTags s = trim s) as H1.
  { intros s Hs. unfold ChatTags.removeThinkingTags, ChatTags.thinkRegex.
    rewrite replaceAll_without_literal by exact Hs. reflexivity. }
  assert (forall s, includes s (lit "<dyad-") = false ->
                    ChatTags.removeProblemReportTags s = trim s) as H2.
  { intros s Hs. unfold ChatTags.removeProblemReportTags, ChatTags.problemReportRegex.
    rewrite replaceAll_without_literal; [reflexivity|].
    change (lit "<dyad-problem-report") with (lit "<dyad-" ++ lit "problem-report").
    apply includes_longer, Hs. }
  assert (forall s, includes s (lit "<dyad-") = false ->
                    ChatTags.removeDyadTags s = trim s) as H3.
  { intros s Hs. unfold ChatTags.removeDyadTags, ChatTags.dyadRegex.
    rewrite replaceAll_without_literal by exact Hs. reflexivity. }
  assert (ChatTags.removeNonEssentialTags text = trim text) as H4.
  { unfold ChatTags.removeNonEssentialTags. rewrite (H1 _ Ht).
    rewrite H2 by (apply trim_includes, Hd). apply trim_trim. }
  repeat split; auto.
  rewrite H4, H3 by (apply trim_includes, Hd). apply trim_trim.
Qed.

Lemma text_without_tags_is_trimmed_witness :
  let text := lit " Use <b>bold</b> here. " ++ NL in
  ChatTags.removeThinkingTags text = trim text /\
  ChatTags.removeProblemReportTags text = trim text /\
  ChatTags.removeDyadTags text = trim text /\
  ChatTags.removeNonEssentialTags text = trim text /\
  ChatTags.removeDyadTags (ChatTags.removeNonEssentialTags text) = trim text.
Proof.
  intros text. apply (text_without_tags_is_trimmed text); reflexivity.
Defined.

(** ** The corrective agent *)

Lemma trim_blank (g : jsstring) : forallb is_space g = true -> trim g = [].
Proof.
  intros H. unfold trim.
  assert (dropWhile is_space g = []) as ->; [|reflexivity].
  induction g as [|c g IH]; [reflexivity|]. simpl in *.
  apply andb_true_iff in H as [-> H]. apply IH, H.
Qed.

(** An instruction that holds white space only makes the agent ask for a
    retry with an empty prompt: the text between the delimiters is not
    empty, so it is accepted, and trimming leaves nothing of it. *)
Theorem blank_instruction_gives_empty_prompt (CORRECTIVE_AGENT_PROMPT : jsstring)
  (router : jsstring -> CorrectiveAgent.RouterOutcome)
  (params : CorrectiveAgent.CorrectionAttemptParams) (chunks : list jsstring)
  (g : jsstring) :
  router (CorrectiveAgent.correctivePrompt CORRECTIVE_AGENT_PROMPT params) =
    CorrectiveAgent.Streamed chunks ->
  instruction_of (concat chunks) g -> g <> [] -> forallb is_space g = true ->
  CorrectiveAgent.attemptCorrection CORRECTIVE_AGENT_PROMPT router params = retry_with [].
Proof.
  intros Hr Hi Hg Hs. unfold CorrectiveAgent.attemptCorrection. rewrite Hr.
  rewrite fold_left_concat. cbn [app].
  rewrite (extractInstruction_retry _ g Hi Hg), (trim_blank g Hs). reflexivity.
Qed.

Lemma blank_instruction_gives_empty_prompt_witness :
  CorrectiveAgent.attemptCorrection []
    (fun _ => CorrectiveAgent.Streamed
                [lit "<corrective-instruction>"; lit " " ++ NL;
                 lit "</corrective-instruction>"])
    {| CorrectiveAgent.userPrompt := [];
       CorrectiveAgent.modelResponse := [];
       CorrectiveAgent.violations := [] |} = retry_with [].
Proof.
  apply (blank_instruction_gives_empty_prompt []
           (fun _ => CorrectiveAgent.Streamed
                       [lit "<corrective-instruction>"; lit " " ++ NL;
                        lit "</corrective-instruction>"])
           {| CorrectiveAgent.userPrompt := [];
              CorrectiveAgent.modelResponse := [];
              CorrectiveAgent.violations := [] |}
           [lit "<corrective-instruction>"; lit " " ++ NL; lit "</corrective-instruction>"]
           (lit " " ++ NL)).
  - reflexivity.
  - exists [], (lit " " ++ NL ++ lit "</corrective-instruction>"), [].
    split; apply split_first_iff; vm_compute; reflexivity.
  - discriminate.
  - reflexivity.
Defined.

(** *** Filling the template *)

Lemma substitution_plain (rep pat pre post : jsstring) :
  forallb (non 36%N) rep = true -> substitution rep pat pre post = rep.
Proof.
  induction rep as [|d tl IH]; intros H; [reflexivity|].
  simpl in H. apply andb_true_iff in H as [Hd H]. cbn [substitution].
  unfold non in Hd. destruct (d =? 36)%N; [discriminate|]. f_equal. apply IH, H.
Qed.

Lemma replace_first (s pat rep pre post : jsstring) :
  split_first pat s = Some (pre, post) -> forallb (non 36%N) rep = true ->
  replace s pat rep = pre ++ rep ++ post.
Proof.
  intros E H. unfold replace. rewrite E, (substitution_plain _ _ _ _ H). reflexivity.
Qed.

Lemma template_shape :
  CorrectivePrompt.CORRECTIVE_AGENT_PROMPT =
  PROMPT_HEAD ++ lit "{{VIOLATIONS}}" ++ PROMPT_BEFORE_USER ++ lit "{{USER_PROMPT}}"
  ++ PROMPT_BEFORE_RESPONSE ++ lit "{{MODEL_RESPONSE}}" ++ PROMPT_TAIL.
Proof. vm_compute. reflexivity. Qed.

(** The prompt the corrective agent sends is the template with the list of
    the violations, the prompt of the user and the response, cut at 1000
    code units, in the place of the three placeholders. This holds when
    none of the three texts holds a dollar sign, which [replace] reads as
    the start of a pattern, and when no text put in holds a placeholder
    that is filled after it. *)
Theorem corrective_prompt_is_filled (params : CorrectiveAgent.CorrectionAttemptParams) :
  let V := CorrectiveAgent.violationsText (CorrectiveAgent.violations params) in
  let U := CorrectiveAgent.userPrompt params in
  let M := CorrectiveAgent.truncatedResponse (CorrectiveAgent.modelResponse params) in
  forallb (non 36%N) (V ++ U ++ M) = true ->
  includes V (lit "{{USER_PROMPT}}") = false ->
  includes V (lit "{{MODEL_RESPONSE}}") = false ->
  includes U (lit "{{MODEL_RESPONSE}}") = false ->
  CorrectiveAgent.correctivePrompt CorrectivePrompt.CORRECTIVE_AGENT_PROMPT params =
  PROMPT_HEAD ++ V ++ PROMPT_BEFORE_USER ++ U ++ PROMPT_BEFORE_RESPONSE ++ M
  ++ PROMPT_TAIL.
Proof.
  intros V U M Hd HVU HVM HUM.
  rewrite !forallb_app in Hd. apply andb_true_iff in Hd as [HdV Hd].
  apply andb_true_iff in Hd as [HdU HdM].
  unfold CorrectiveAgent.correctivePrompt. fold V U M.
  set (R2 := PROMPT_BEFORE_RESPONSE ++ lit "{{MODEL_RESPONSE}}" ++ PROMPT_TAIL).
  set (R1 := PROMPT_BEFORE_USER ++ lit "{{USER_PROMPT}}" ++ R2).
  rewrite (replace_first _ _ V PROMPT_HEAD R1).
  2:{ rewrite template_shape. apply first_split_at. vm_compute. reflexivity. }
  2:{ exact HdV. }
  rewrite (replace_first _ _ U (PROMPT_HEAD ++ V ++ PROMPT_BEFORE_USER) R2).
  3:{ exact HdU. }
  2:{ unfold R1. rewrite !app_assoc. rewrite <- (app_assoc _ (lit "{{USER_PROMPT}}") R2).
      apply first_split_at.
      change (take (length (lit "{{USER_PROMPT}}") - 1) (lit "{{USER_PROMPT}}" ++ R2))
        with (lit "{{USER_PROMPT}").
      rewrite <- !app_assoc.
      change (lit "{{USER_PROMPT}}") with (123%N :: lit "{USER_PROMPT}}") at 1.
      rewrite includes_after by reflexivity.
      rewrite includes_app_right by reflexivity.
      change (123%N :: lit "{USER_PROMPT}}") with (lit "{{USER_PROMPT}}").
      rewrite HVU. reflexivity. }
  rewrite (replace_first _ _ M
             (PROMPT_HEAD ++ V ++ PROMPT_BEFORE_USER ++ U ++ PROMPT_BEFORE_RESPONSE)
             PROMPT_TAIL).
  - rewrite <- !app_assoc. reflexivity.
  - unfold R2.
    replace ((PROMPT_HEAD ++ V ++ PROMPT_BEFORE_USER) ++ U
             ++ PROMPT_BEFORE_RESPONSE ++ lit "{{MODEL_RESPONSE}}" ++ PROMPT_TAIL)
      with ((PROMPT_HEAD ++ V ++ PROMPT_BEFORE_USER ++ U ++ PROMPT_BEFORE_RESPONSE)
            ++ lit "{{MODEL_RESPONSE}}" ++ PROMPT_TAIL)
      by (rewrite <- !app_assoc; reflexivity).
    apply first_split_at.
    change (take (length (lit "{{MODEL_RESPONSE}}") - 1)
              (lit "{{MODEL_RESPONSE}}" ++ PROMPT_TAIL))
      with (lit "{{MODEL_RESPONSE}").
    rewrite <- !app_assoc.
    change (lit "{{MODEL_RESPONSE}}") with (123%N :: lit "{MODEL_RESPONSE}}") at 1.
    rewrite includes_after by reflexivity.
    rewrite includes_app_right by reflexivity.
    change (123%N :: lit "{MODEL_RESPONSE}}") with (lit "{{MODEL_RESPONSE}}").
    rewrite HVM. cbn [orb].
    change (lit "{{MODEL_RESPONSE}}") with (123%N :: lit "{MODEL_RESPONSE}}") at 1.
    rewrite includes_after by reflexivity.
    rewrite includes_app_right by reflexivity.
    change (123%N :: lit "{MODEL_RESPONSE}}") with (lit "{{MODEL_RESPONSE}}").
    rewrite HUM. reflexivity.
  - exact HdM.
Qed.

Lemma corrective_prompt_is_filled_witness :
  let params :=
    {| CorrectiveAgent.userPrompt := lit "Add a button";
       CorrectiveAgent.modelResponse := fix_text;
       CorrectiveAgent.violations := [fix_violation] |} in
  let V := CorrectiveAgent.violationsText (CorrectiveAgent.violations params) in
  let U := CorrectiveAgent.userPrompt params in
  let M := CorrectiveAgent.truncatedResponse (CorrectiveAgent.modelResponse params) in
  CorrectiveAgent.correctivePrompt CorrectivePrompt.CORRECTIVE_AGENT_PROMPT params =
  PROMPT_HEAD ++ V ++ PROMPT_BEFORE_USER ++ U ++ PROMPT_BEFORE_RESPONSE ++ M
  ++ PROMPT_TAIL.
Proof.
  intros params.
  apply (corrective_prompt_is_filled params); vm_compute; reflexivity.
Defined.

(** ** The task detector *)

Section TaskDetectorFurther.

Import TaskDetector.

Variable toLowerCase : jsstring -> jsstring.

Lemma score_zero (keywords : list jsstring) (promptLower : jsstring) :
  (forall keyword, In keyword keywords -> includes promptLower keyword = false) ->
  score keywords promptLower = 0.
Proof.
  intros H. unfold score. induction keywords as [|k l IH]; [reflexivity|].
  cbn [List.filter]. rewrite (H k) by (left; reflexivity).
  apply IH. intros k' Hk'. apply H. right. exact Hk'.
Qed.

Lemma score_positive (keywords : list jsstring) (promptLower keyword : jsstring) :
  In keyword keywords -> includes promptLower keyword = true ->
  1 <= score keywords promptLower.
Proof.
  intros Hin Hk. unfold score. induction keywords as [|k l IH]; [destruct Hin|].
  cbn [List.filter]. destruct Hin as [->|Hin].
  - rewrite Hk. simpl. lia.
  - destruct (includes promptLower k); [simpl; lia | apply IH, Hin].
Qed.

Lemma extensions_apart (ext : jsstring) :
  isFrontendExtension ext = true -> isBackendExtension ext = false.
Proof.
  unfold isFrontendExtension, isBackendExtension. cbn [existsb].
  intros H. destruct (eqs ext (lit "tsx")) eqn:E1; [rewrite andb_false_r; reflexivity|].
  destruct (eqs ext (lit "jsx")) eqn:E2;
    [cbn [orb negb]; rewrite andb_false_r; reflexivity|].
  cbn [orb] in H. rewrite !orb_false_r. cbn [negb]. rewrite andb_true_r.
  assert (forall a b, eqs ext a = true -> eqs ext b = true -> a = b) as Huniq.
  { assert (forall s p, eqs s p = true -> s = p) as Heq.
    { induction s as [|a s IH]; intros [|b p] Hs; try discriminate; [reflexivity|].
      simpl in Hs. apply andb_true_iff in Hs as [Hab Hs].
      apply N.eqb_eq in Hab. subst. f_equal. apply IH, Hs. }
    intros a b Ha Hb. apply Heq in Ha, Hb. congruence. }
  destruct (eqs ext (lit "ts")) eqn:Ets.
  - exfalso. rewrite !orb_true_iff in H.
    destruct H as [H|[H|[H|[H|[H|[H|[H|H]]]]]]]; try discriminate;
      pose proof (Huniq _ _ Ets H) as Hc; discriminate Hc.
  - destruct (eqs ext (lit "js")) eqn:Ejs; [|reflexivity].
    exfalso. rewrite !orb_true_iff in H.
    destruct H as [H|[H|[H|[H|[H|[H|[H|H]]]]]]]; try discriminate;
      pose proof (Huniq _ _ Ejs H) as Hc; discriminate Hc.
Qed.

End TaskDetectorFurther.

(** How the detector weighs its signals. A keyword of debugging in the
    prompt, in lower case, decides for debugging whatever else is given.
    When the prompt holds no keyword at all, the selected component decides
    alone: a frontend extension gives frontend and a backend extension
    backend, whatever the files of the codebase are, since they weigh one
    point against two; and without a selected component the majority of
    the files decides, a tie or no file giving general. *)
Theorem detectTaskType_priorities (toLowerCase : jsstring -> jsstring)
  (userPrompt : jsstring) (selectedComponent : option jsstring)
  (codebaseFiles : option (list jsstring)) :
  let detect := TaskDetector.detectTaskType toLowerCase userPrompt in
  let ext := TaskDetector.getFileExtension toLowerCase in
  let frontendFiles :=
    length (List.filter (fun f => TaskDetector.isFrontendExtension (ext f))
              (default [] codebaseFiles)) in
  let backendFiles :=
    length (List.filter (fun f => TaskDetector.isBackendExtension (ext f))
              (default [] codebaseFiles)) in
  (forall keyword,
     In keyword TaskDetector.debuggingKeywords ->
     includes (toLowerCase userPrompt) keyword = true ->
     detect selectedComponent codebaseFiles = TaskDetector.debugging) /\
  (no_keyword (toLowerCase userPrompt) ->
   (forall path, TaskDetector.isFrontendExtension (ext path) = true ->
                 detect (Some path) codebaseFiles = TaskDetector.frontend) /\
   (forall path, TaskDetector.isBackendExtension (ext path) = true ->
                 detect (Some path) codebaseFiles = TaskDetector.backend) /\
   detect None codebaseFiles =
     (if backendFiles <? frontendFiles then TaskDetector.frontend
      else if frontendFiles <? backendFiles then TaskDetector.backend
      else TaskDetector.general)).
Proof.
  cbv zeta. split.
  - intros keyword Hin Hk. unfold TaskDetector.detectTaskType.
    pose proof (score_positive _ _ _ Hin Hk) as Hs.
    apply Nat.leb_le in Hs. rewrite Hs. reflexivity.
  - intros Hno. unfold no_keyword in Hno.
    assert (TaskDetector.score TaskDetector.debuggingKeywords (toLowerCase userPrompt) = 0
            /\ TaskDetector.score TaskDetector.frontendKeywords (toLowerCase userPrompt) = 0
            /\ TaskDetector.score TaskDetector.backendKeywords (toLowerCase userPrompt) = 0)
      as (Hd & Hf & Hb).
    { repeat split; apply score_zero; intros k Hk; apply Hno;
        rewrite !in_app_iff; auto. }
    unfold TaskDetector.detectTaskType. rewrite Hd, Hf, Hb. cbn [Nat.leb].
    set (ff := fun files : list jsstring =>
                 length (List.filter
                           (fun f => TaskDetector.isFrontendExtension
                                       (TaskDetector.getFileExtension toLowerCase f))
                           files)).
    set (bf := fun files : list jsstring =>
                 length (List.filter
                           (fun f => TaskDetector.isBackendExtension
                                       (TaskDetector.getFileExtension toLowerCase f))
                           files)).
    repeat split.
    + intros path Hp. rewrite Hp.
      destruct codebaseFiles as [[|file files]|]; try reflexivity.
      fold (ff (file :: files)). fold (bf (file :: files)).
      destruct (bf (file :: files) <? ff (file :: files)); [reflexivity|].
      destruct (ff (file :: files) <? bf (file :: files)); reflexivity.
    + intros path Hp. rewrite Hp.
      destruct (TaskDetector.isFrontendExtension
                  (TaskDetector.getFileExtension toLowerCase path)) eqn:Ef.
      { apply extensions_apart in Ef. congruence. }
      destruct codebaseFiles as [[|file files]|]; try reflexivity.
      fold (ff (file :: files)). fold (bf (file :: files)).
      destruct (bf (file :: files) <? ff (file :: files)); [reflexivity|].
      destruct (ff (file :: files) <? bf (file :: files)); reflexivity.
    + destruct codebaseFiles as [[|file files]|]; try reflexivity.
      change (default [] (Some (file :: files))) with (file :: files).
      fold (ff (file :: files)). fold (bf (file :: files)).
      destruct (bf (file :: files) <? ff (file :: files)) eqn:E1; [reflexivity|].
      destruct (ff (file :: files) <? bf (file :: files)) eqn:E2; reflexivity.
Qed.

Lemma detectTaskType_priorities_witness :
  TaskDetector.detectTaskType ascii_lower (lit "Add a Prefix to the title")
    (Some (lit "src/App.tsx")) None = TaskDetector.debugging /\
  TaskDetector.detectTaskType ascii_lower (lit "Hello there")
    (Some (lit "src/App.TSX")) (Some [lit "a.ts"; lit "b.ts"; lit "c.css"])
  = TaskDetector.frontend /\
  TaskDetector.detectTaskType ascii_lower (lit "Hello there")
    (Some (lit "src/main.ts")) (Some [lit "a.css"; lit "b.css"; lit "c.ts"])
  = TaskDetector.backend /\
  TaskDetector.detectTaskType ascii_lower (lit "Hello there")
    None (Some [lit "a.css"; lit "b.ts"; lit "README"])
  = TaskDetector.general.
Proof.
  assert (no_keyword (ascii_lower (lit "Hello there"))) as Hno.
  { intros keyword Hin.
    repeat (destruct Hin as [<-|Hin]; [vm_compute; reflexivity|]).
    destruct Hin. }
  split; [|split; [|split]].
  - apply (proj1 (detectTaskType_priorities ascii_lower (lit "Add a Prefix to the title")
                    (Some (lit "src/App.tsx")) None) (lit "fix"));
      vm_compute; auto 10.
  - apply (proj2 (detectTaskType_priorities ascii_lower (lit "Hello there") None
                    (Some [lit "a.ts"; lit "b.ts"; lit "c.css"])) Hno).
    vm_compute; reflexivity.
  - apply (proj2 (detectTaskType_priorities ascii_lower (lit "Hello there") None
                    (Some [lit "a.css"; lit "b.css"; lit "c.ts"])) Hno).
    vm_compute; reflexivity.
  - exact (proj2 (proj2 (proj2 (detectTaskType_priorities ascii_lower (lit "Hello there")
                    None (Some [lit "a.css"; lit "b.ts"; lit "README"])) Hno))).
Defined.

